(** * The PKI tidy subsystem (builtin/logical/pki/path_tidy.go)

    A shallow embedding of the tidy write handler, the background tidy
    run (certificate store pass and revocation store pass), the status
    tracker and the status-read handler, followed by the properties of
    the specification that concern them.

    Conventions of the embedding.
    - Everything the handlers reach through an interface or another
      package (the storage facade, the clock, the issuer resolver, the
      revocation configuration, the CRL builder, the X.509 and JSON
      decoders, the two issuer-association helpers) is a field of the
      record [Env]; the code of this file is parametric in it.
    - The backend is threaded explicitly through a state-and-error monad
      [M]; a Go [error] is the text of its message.
    - Two ghost fields of the backend record what the run did: [calls]
      lists the mutating external calls in program order (a call is
      logged when it is issued, whether or not it fails), [statusLog]
      keeps every earlier value of the status tracker, newest first.
    - Instants are integer nanosecond counts from the zero [time.Time];
      a [time.Duration] is a signed 64-bit nanosecond count.  The range
      of [time.Time] exceeds every instant plus or minus a duration, so
      [Time.Add] is exact here.
    - Concurrency is modelled by interleaving.  A [System] is the
      backend together with the goroutines [startTidyOperation] has
      started; its events are a tidy request (the handler, whose
      compare-and-swap on the guard is atomic) and a scheduling step of
      a goroutine, which runs one of three segments: [tidyStatusStart];
      the passes up to [tidyStatusStop]; the deferred store that
      releases the guard.  Panics are not modelled.
    - Metrics and logger calls, and the revocation-store mutex, have no
      effect on the run of a single goroutine and are left out. *)

From Stdlib Require Import ZArith Lia String Ascii List.
From Stdlib.Strings Require Import Byte.
From stdpp Require Import base gmap strings list pretty.

Module pki.

Local Open Scope Z_scope.

(** ** Machine integers *)

Definition wrapInt64 (z : Z) : Z := (z + 2 ^ 63) mod 2 ^ 64 - 2 ^ 63.
Definition wrapUint64 (z : Z) : Z := z mod 2 ^ 64.

(** ** Time *)

Definition Time := Z.
Definition Duration := Z.
Definition Second : Duration := 1000000000.

Definition Time_Add (t : Time) (d : Duration) : Time := t + d.
Definition Time_After (t u : Time) : bool := u <? t.

(** ** Errors and formatted text *)

Definition error := string.

Inductive result (A : Type) : Type :=
| Ok (a : A)
| Err (e : error).
Arguments Ok {A} a.
Arguments Err {A} e.

Definition dquote : string := String (ascii_of_nat 34) EmptyString.

Definition backslash : string := String (ascii_of_nat 92) EmptyString.

Definition lowerhex (n : nat) : string :=
  String.substring n 1 "0123456789abcdef".

(** One character of [strconv.Quote]: the quote and the backslash get a
    backslash, the control characters their Go escape, every other
    character of the ASCII range is printable and stands for itself. *)
Definition quoteChar (c : ascii) : string :=
  let n := nat_of_ascii c in
  if (n =? 34)%nat || (n =? 92)%nat then backslash +:+ String c EmptyString
  else if (n =? 7)%nat then backslash +:+ "a"
  else if (n =? 8)%nat then backslash +:+ "b"
  else if (n =? 12)%nat then backslash +:+ "f"
  else if (n =? 10)%nat then backslash +:+ "n"
  else if (n =? 13)%nat then backslash +:+ "r"
  else if (n =? 9)%nat then backslash +:+ "t"
  else if (n =? 11)%nat then backslash +:+ "v"
  else if (n <? 32)%nat || (n =? 127)%nat
  then backslash +:+ "x" +:+ lowerhex (n / 16) +:+ lowerhex (n mod 16)
  else String c EmptyString.

Fixpoint quoteBody (s : string) : string :=
  match s with
  | EmptyString => EmptyString
  | String c rest => quoteChar c +:+ quoteBody rest
  end.

(** The verb [%q] of package fmt on a string, which is [strconv.Quote].
    It is exact on ASCII text.  Outside ASCII, Go decodes UTF-8 and asks
    the Unicode tables whether a rune is printable; those bytes are
    copied here, so statements that give a quoted serial are made for
    ASCII serials ([isASCII]). *)
Definition fmtQ (s : string) : string := dquote +:+ quoteBody s +:+ dquote.

Definition isASCII (s : string) : bool :=
  forallb (fun c => (nat_of_ascii c <? 128)%nat) (list_ascii_of_string s).

(** ** Data *)

Definition bytes := list byte.
Definition issuerID := string.

Record Certificate := {
  Raw : bytes;
  NotAfter : Time
}.

Record StorageEntry := {
  Key : string;
  Value : bytes
}.

(** The fields of [revocationInfo] that the tidy code reads or writes. *)
Record revocationInfo := {
  CertificateBytes : bytes;
  CertificateIssuer : issuerID
}.

Record crlConfig := {
  AutoRebuild : bool
}.

Record tidyConfig := {
  CertStore : bool;
  RevokedCerts : bool;
  IssuerAssocs : bool;
  SafetyBuffer : Duration
}.

Inductive tidyStatusState :=
| tidyStatusInactive
| tidyStatusStarted
| tidyStatusFinished
| tidyStatusError.

Record tidyStatus := {
  safetyBuffer : Z;
  tidyCertStore : bool;
  tidyRevokedCerts : bool;
  tidyRevokedAssocs : bool;
  state : tidyStatusState;
  err : option error;
  timeStarted : Time;
  timeFinished : Time;
  message : string;
  certStoreDeletedCount : Z;
  revokedCertDeletedCount : Z;
  missingIssuerCertCount : Z
}.

Global Instance tidyStatusState_eq_dec : EqDecision tidyStatusState.
Proof. solve_decision. Defined.

(** The request fields of the tidy endpoint, as [framework.FieldData]
    hands them over. *)
Record FieldData := {
  safety_buffer : Z;
  tidy_cert_store : bool;
  tidy_revoked_certs : bool;
  tidy_revocation_list : bool;
  tidy_revoked_cert_issuer_associations : bool
}.

(** Values stored under [interface{}] in a response. *)
Inductive Any :=
| VNil
| VBool (b : bool)
| VInt (z : Z)
| VUint (z : Z)
| VString (s : string)
| VTime (t : Time).

(** [logical.Response] as the two handlers build it: the error response,
    a response with data and warnings, and the wrapping that
    [logical.RespondWithStatusCode] puts around a response. *)
Inductive Response :=
| ErrorResponse (text : string)
| Resp (data : gmap string Any) (warnings : list string)
| RespondWithStatusCode (resp : Response) (code : Z).

Definition StatusAccepted : Z := 202.

Definition ErrReadOnly : error := "cannot write to readonly storage".

(** The message of the run-time panic on a method call through a nil
    interface value. *)
Definition nilDereference : error :=
  "runtime error: invalid memory address or nil pointer dereference".

(** Ghost record of a mutating call that left the tidy code. *)
Inductive Call :=
| CallDelete (key : string)
| CallPut (entry : StorageEntry)
| CallRebuild (forced : bool).

Definition isRebuild (c : Call) : bool :=
  match c with
  | CallRebuild _ => true
  | _ => false
  end.

(** How often the CRL rebuild trigger was invoked in a stretch of calls. *)
Definition countRebuild (l : list Call) : nat := length (List.filter isRebuild l).

Definition isCertsDelete (c : Call) : bool :=
  match c with
  | CallDelete key => String.prefix "certs/" key
  | _ => false
  end.

(** Whether a stretch of calls of the revocation pass holds a delete
    under [certs/]; the pass issues one only when it removes an expired
    revoked certificate. *)
Definition expiryDeletion (l : list Call) : bool := existsb isCertsDelete l.

(** ** The collaborators *)

Record Env (W : Type) := {
  storage_List : string -> W -> W * result (list string);
  storage_Get : string -> W -> W * result (option StorageEntry);
  storage_Put : StorageEntry -> W -> W * result unit;
  storage_Delete : string -> W -> W * result unit;
  time_Now : W -> W * Time;
  fetchIssuerMapForRevocationChecking :
    W -> W * result (gmap issuerID Certificate);
  getRevocationConfig : W -> W * result crlConfig;
  crlBuilder_rebuild : bool -> W -> W * result unit;
  perfSecondary : W -> bool;
  localMount : W -> bool;
  x509_ParseCertificate : bytes -> result Certificate;
  (* [entry.DecodeJSON(&revInfo)]: the decoder writes into the variable
     it is handed, so its outcome may depend on the old contents. *)
  DecodeJSON : bytes -> revocationInfo -> result revocationInfo;
  isRevInfoIssuerValid : revocationInfo -> gmap issuerID Certificate -> bool;
  (* the helper updates [revInfo] in place and reports whether it did *)
  associateRevokedCertWithIsssuer :
    revocationInfo -> Certificate -> gmap issuerID Certificate ->
    bool * revocationInfo;
  StorageEntryJSON : string -> revocationInfo -> result StorageEntry
}.

Arguments storage_List {W}.
Arguments storage_Get {W}.
Arguments storage_Put {W}.
Arguments storage_Delete {W}.
Arguments time_Now {W}.
Arguments fetchIssuerMapForRevocationChecking {W}.
Arguments getRevocationConfig {W}.
Arguments crlBuilder_rebuild {W}.
Arguments perfSecondary {W}.
Arguments localMount {W}.
Arguments x509_ParseCertificate {W}.
Arguments DecodeJSON {W}.
Arguments isRevInfoIssuerValid {W}.
Arguments associateRevokedCertWithIsssuer {W}.
Arguments StorageEntryJSON {W}.

(** ** The backend *)

Record backend (W : Type) := {
  tidyCASGuard : Z;
  bTidyStatus : tidyStatus;
  world : W;
  statusLog : list tidyStatus;
  calls : list Call
}.

Arguments tidyCASGuard {W}.
Arguments bTidyStatus {W}.
Arguments world {W}.
Arguments statusLog {W}.
Arguments calls {W}.

Section Code.

Context {W : Type} (env : Env W).

(** ** The monad of the tidy run: backend state, Go-style error result *)

Definition M (A : Type) : Type := backend W -> backend W * result A.

Definition ret {A} (a : A) : M A := fun b => (b, Ok a).
Definition fail {A} (e : error) : M A := fun b => (b, Err e).

Definition bind {A B} (m : M A) (k : A -> M B) : M B :=
  fun b =>
    match m b with
    | (b', Ok a) => k a b'
    | (b', Err e) => (b', Err e)
    end.

Notation "'let*' x ':=' m 'in' k" := (bind m (fun x => k))
  (at level 10, x name, m at level 100, k at level 200, only parsing).
Notation "m >> k" := (bind m (fun _ => k))
  (at level 100, k at level 200, right associativity, only parsing).

(** [fmt.Errorf(prefix + ": %w", err)] around a fallible step. *)
Definition wrapErr {A} (prefix : string) (m : M A) : M A :=
  fun b =>
    match m b with
    | (b', Ok a) => (b', Ok a)
    | (b', Err e) => (b', Err (prefix +:+ ": " +:+ e))
    end.

Definition setWorld (w : W) (b : backend W) : backend W :=
  {| tidyCASGuard := tidyCASGuard b; bTidyStatus := bTidyStatus b;
     world := w; statusLog := statusLog b; calls := calls b |}.

Definition logCall (c : Call) (b : backend W) : backend W :=
  {| tidyCASGuard := tidyCASGuard b; bTidyStatus := bTidyStatus b;
     world := world b; statusLog := statusLog b; calls := calls b ++ [c] |}.

(** Every write to [b.tidyStatus] goes through [setStatus], which keeps
    the value it replaces in the ghost log. *)
Definition setStatus (s : tidyStatus) (b : backend W) : backend W :=
  {| tidyCASGuard := tidyCASGuard b; bTidyStatus := s;
     world := world b; statusLog := bTidyStatus b :: statusLog b;
     calls := calls b |}.

Definition setGuard (g : Z) (b : backend W) : backend W :=
  {| tidyCASGuard := g; bTidyStatus := bTidyStatus b;
     world := world b; statusLog := statusLog b; calls := calls b |}.

Definition liftW {A} (f : W -> W * result A) : M A :=
  fun b => let (w', r) := f (world b) in (setWorld w' b, r).

Definition exec (f : backend W -> backend W) : M unit :=
  fun b => (f b, Ok tt).

Definition storageList (prefix : string) : M (list string) :=
  liftW (storage_List env prefix).

Definition storageGet (key : string) : M (option StorageEntry) :=
  liftW (storage_Get env key).

Definition storageDelete (key : string) : M unit :=
  fun b => liftW (storage_Delete env key) (logCall (CallDelete key) b).

Definition storagePut (entry : StorageEntry) : M unit :=
  fun b => liftW (storage_Put env entry) (logCall (CallPut entry) b).

Definition crlRebuild (forced : bool) : M unit :=
  fun b => liftW (crlBuilder_rebuild env forced) (logCall (CallRebuild forced) b).

Definition timeNow : M Time :=
  fun b => let (w', t) := time_Now env (world b) in (setWorld w' b, Ok t).

Definition liftR {A} (r : result A) : M A := fun b => (b, r).

(** ** Status tracker *)

Definition tidyStatusStart (config : tidyConfig) (b : backend W) : backend W :=
  let (w', now) := time_Now env (world b) in
  setStatus
    {| safetyBuffer := Z.quot (SafetyBuffer config) Second;
       tidyCertStore := CertStore config;
       tidyRevokedCerts := RevokedCerts config;
       tidyRevokedAssocs := IssuerAssocs config;
       state := tidyStatusStarted;
       err := None;
       timeStarted := now;
       timeFinished := 0;
       message := EmptyString;
       certStoreDeletedCount := 0;
       revokedCertDeletedCount := 0;
       missingIssuerCertCount := 0 |}
    (setWorld w' b).

Definition tidyStatusStop (e : option error) (b : backend W) : backend W :=
  let (w', now) := time_Now env (world b) in
  let s := bTidyStatus b in
  setStatus
    {| safetyBuffer := safetyBuffer s;
       tidyCertStore := tidyCertStore s;
       tidyRevokedCerts := tidyRevokedCerts s;
       tidyRevokedAssocs := tidyRevokedAssocs s;
       state := match e with
                | None => tidyStatusFinished
                | Some _ => tidyStatusError
                end;
       err := e;
       timeStarted := timeStarted s;
       timeFinished := now;
       message := message s;
       certStoreDeletedCount := certStoreDeletedCount s;
       revokedCertDeletedCount := revokedCertDeletedCount s;
       missingIssuerCertCount := missingIssuerCertCount s |}
    (setWorld w' b).

Definition tidyStatusMessage (msg : string) (b : backend W) : backend W :=
  let s := bTidyStatus b in
  setStatus
    {| safetyBuffer := safetyBuffer s;
       tidyCertStore := tidyCertStore s;
       tidyRevokedCerts := tidyRevokedCerts s;
       tidyRevokedAssocs := tidyRevokedAssocs s;
       state := state s;
       err := err s;
       timeStarted := timeStarted s;
       timeFinished := timeFinished s;
       message := msg;
       certStoreDeletedCount := certStoreDeletedCount s;
       revokedCertDeletedCount := revokedCertDeletedCount s;
       missingIssuerCertCount := missingIssuerCertCount s |}
    b.

Definition tidyStatusIncCertStoreCount (b : backend W) : backend W :=
  let s := bTidyStatus b in
  setStatus
    {| safetyBuffer := safetyBuffer s;
       tidyCertStore := tidyCertStore s;
       tidyRevokedCerts := tidyRevokedCerts s;
       tidyRevokedAssocs := tidyRevokedAssocs s;
       state := state s;
       err := err s;
       timeStarted := timeStarted s;
       timeFinished := timeFinished s;
       message := message s;
       certStoreDeletedCount := wrapUint64 (certStoreDeletedCount s + 1);
       revokedCertDeletedCount := revokedCertDeletedCount s;
       missingIssuerCertCount := missingIssuerCertCount s |}
    b.

Definition tidyStatusIncRevokedCertCount (b : backend W) : backend W :=
  let s := bTidyStatus b in
  setStatus
    {| safetyBuffer := safetyBuffer s;
       tidyCertStore := tidyCertStore s;
       tidyRevokedCerts := tidyRevokedCerts s;
       tidyRevokedAssocs := tidyRevokedAssocs s;
       state := state s;
       err := err s;
       timeStarted := timeStarted s;
       timeFinished := timeFinished s;
       message := message s;
       certStoreDeletedCount := certStoreDeletedCount s;
       revokedCertDeletedCount := wrapUint64 (revokedCertDeletedCount s + 1);
       missingIssuerCertCount := missingIssuerCertCount s |}
    b.

Definition tidyStatusIncMissingIssuerCertCount (b : backend W) : backend W :=
  let s := bTidyStatus b in
  setStatus
    {| safetyBuffer := safetyBuffer s;
       tidyCertStore := tidyCertStore s;
       tidyRevokedCerts := tidyRevokedCerts s;
       tidyRevokedAssocs := tidyRevokedAssocs s;
       state := state s;
       err := err s;
       timeStarted := timeStarted s;
       timeFinished := timeFinished s;
       message := message s;
       certStoreDeletedCount := certStoreDeletedCount s;
       revokedCertDeletedCount := revokedCertDeletedCount s;
       missingIssuerCertCount := wrapUint64 (missingIssuerCertCount s + 1) |}
    b.

(** ** Cert store tidier *)

(** One iteration of the loop of [doTidyCertStore]. *)
Definition tidyCertStoreEntry (config : tidyConfig) (serialCount i : nat)
    (serial : string) : M unit :=
  exec (tidyStatusMessage
          ("Tidying certificate store: checking entry " +:+ pretty i +:+
           " of " +:+ pretty serialCount)) >>
  let* certEntry := wrapErr ("error fetching certificate " +:+ fmtQ serial)
                 (storageGet ("certs/" +:+ serial)) in
  match certEntry with
  | None =>
      wrapErr ("error deleting nil entry with serial " +:+ serial)
        (storageDelete ("certs/" +:+ serial)) >>
      exec tidyStatusIncCertStoreCount
  | Some certEntry =>
      if (length (Value certEntry) =? 0)%nat then
        wrapErr ("error deleting entry with nil value with serial " +:+ serial)
          (storageDelete ("certs/" +:+ serial)) >>
        exec tidyStatusIncCertStoreCount
      else
        let* cert := wrapErr ("unable to parse stored certificate with serial " +:+
                         fmtQ serial)
                  (liftR (x509_ParseCertificate env (Value certEntry))) in
        let* now := timeNow in
        if Time_After now (Time_Add (NotAfter cert) (SafetyBuffer config)) then
          wrapErr ("error deleting serial " +:+ fmtQ serial +:+ " from storage")
            (storageDelete ("certs/" +:+ serial)) >>
          exec tidyStatusIncCertStoreCount
        else ret tt
  end.

Fixpoint certStoreLoop (config : tidyConfig) (serialCount i : nat)
    (serials : list string) : M unit :=
  match serials with
  | [] => ret tt
  | serial :: rest =>
      tidyCertStoreEntry config serialCount i serial >>
      certStoreLoop config serialCount (S i) rest
  end.

Definition doTidyCertStore (config : tidyConfig) : M unit :=
  let* serials := wrapErr "error fetching list of certs" (storageList "certs/") in
  certStoreLoop config (length serials) 0%nat serials.

(** ** Revocation store tidier *)

(** The variables of [doTidyRevocationStore] that live across iterations:
    [revInfo] is declared before the loop and decoded into each time. *)
Record revLoopVars := {
  revInfo : revocationInfo;
  rebuildCRL : bool;
  fixedIssuers : Z
}.

Definition setIssuer (id : issuerID) (r : revocationInfo) : revocationInfo :=
  {| CertificateBytes := CertificateBytes r; CertificateIssuer := id |}.

(** The block guarded by [config.IssuerAssocs]; yields the new [revInfo],
    [storeCert] and [fixedIssuers]. *)
Definition tidyIssuerAssoc (config : tidyConfig)
    (issuerIDCertMap : gmap issuerID Certificate)
    (revInfo : revocationInfo) (revokedCert : Certificate) (fixedIssuers : Z)
    : M (revocationInfo * bool * Z) :=
  if IssuerAssocs config then
    if negb (isRevInfoIssuerValid env revInfo issuerIDCertMap) then
      exec tidyStatusIncMissingIssuerCertCount >>
      let revInfo := setIssuer EmptyString revInfo in
      let storeCert := true in
      let (ok, revInfo) :=
        associateRevokedCertWithIsssuer env revInfo revokedCert issuerIDCertMap in
      ret (revInfo, storeCert, if ok then wrapInt64 (fixedIssuers + 1) else fixedIssuers)
    else ret (revInfo, false, fixedIssuers)
  else ret (revInfo, false, fixedIssuers).

(** The block guarded by [config.RevokedCerts]; yields the new
    [rebuildCRL] and [storeCert]. *)
Definition tidyRevokedExpiry (config : tidyConfig) (serial : string)
    (revokedCert : Certificate) (rebuildCRL storeCert : bool)
    : M (bool * bool) :=
  if RevokedCerts config then
    let* now := timeNow in
    if Time_After now (Time_Add (NotAfter revokedCert) (SafetyBuffer config)) then
      wrapErr ("error deleting serial " +:+ fmtQ serial +:+ " from revoked list")
        (storageDelete ("revoked/" +:+ serial)) >>
      wrapErr ("error deleting serial " +:+ fmtQ serial +:+
               " from store when tidying revoked")
        (storageDelete ("certs/" +:+ serial)) >>
      exec tidyStatusIncRevokedCertCount >>
      ret (true, false)
    else ret (rebuildCRL, storeCert)
  else ret (rebuildCRL, storeCert).

(** The write-back guarded by [storeCert]. *)
Definition tidyStoreCert (serial : string) (revInfo : revocationInfo)
    (storeCert : bool) : M unit :=
  if storeCert then
    let* revokedEntry := wrapErr ("error building entry to persist changes to serial " +:+
                             serial +:+ " from revoked list")
                      (liftR (StorageEntryJSON env ("revoked/" +:+ serial) revInfo)) in
    wrapErr ("error persisting changes to serial " +:+ serial +:+
             " from revoked list")
      (storagePut revokedEntry)
  else ret tt.

(** One iteration of the loop of [doTidyRevocationStore]. *)
Definition tidyRevokedEntry (config : tidyConfig)
    (issuerIDCertMap : gmap issuerID Certificate) (total i : nat)
    (serial : string) (v : revLoopVars) : M revLoopVars :=
  exec (tidyStatusMessage
          ("Tidying revoked certificates: checking certificate " +:+ pretty i +:+
           " of " +:+ pretty total)) >>
  let* revokedEntry := wrapErr ("unable to fetch revoked cert with serial " +:+ fmtQ serial)
                    (storageGet ("revoked/" +:+ serial)) in
  match revokedEntry with
  | None =>
      wrapErr ("error deleting nil revoked entry with serial " +:+ serial)
        (storageDelete ("revoked/" +:+ serial)) >>
      exec tidyStatusIncRevokedCertCount >>
      ret v
  | Some revokedEntry =>
      if (length (Value revokedEntry) =? 0)%nat then
        wrapErr ("error deleting revoked entry with nil value with serial " +:+ serial)
          (storageDelete ("revoked/" +:+ serial)) >>
        exec tidyStatusIncRevokedCertCount >>
        ret v
      else
        let* revInfo1 := wrapErr ("error decoding revocation entry for serial " +:+
                             fmtQ serial)
                      (liftR (DecodeJSON env (Value revokedEntry) (revInfo v))) in
        let* revokedCert := wrapErr ("unable to parse stored revoked certificate with serial " +:+
                                fmtQ serial)
                         (liftR (x509_ParseCertificate env (CertificateBytes revInfo1))) in
        let* r := tidyIssuerAssoc config issuerIDCertMap revInfo1 revokedCert
               (fixedIssuers v) in
        let '(revInfo2, storeCert, fixed) := r in
        let* r' := tidyRevokedExpiry config serial revokedCert (rebuildCRL v) storeCert in
        let '(rebuild, storeCert) := r' in
        tidyStoreCert serial revInfo2 storeCert >>
        ret {| revInfo := revInfo2; rebuildCRL := rebuild; fixedIssuers := fixed |}
  end.

Fixpoint revokedLoop (config : tidyConfig)
    (issuerIDCertMap : gmap issuerID Certificate) (total i : nat)
    (serials : list string) (v : revLoopVars) : M revLoopVars :=
  match serials with
  | [] => ret v
  | serial :: rest =>
      let* v' := tidyRevokedEntry config issuerIDCertMap total i serial v in
      revokedLoop config issuerIDCertMap total (S i) rest v'
  end.

Definition revLoopInit : revLoopVars :=
  {| revInfo := {| CertificateBytes := []; CertificateIssuer := EmptyString |};
     rebuildCRL := false;
     fixedIssuers := 0 |}.

(** The tail of [doTidyRevocationStore], after the loop. *)
Definition tidyRebuildCRL (rebuildCRL : bool) : M unit :=
  if rebuildCRL then
    let* config := liftW (getRevocationConfig env) in
    if negb (AutoRebuild config) then crlRebuild false else ret tt
  else ret tt.

Definition doTidyRevocationStore (config : tidyConfig) : M unit :=
  let* issuerIDCertMap := liftW (fetchIssuerMapForRevocationChecking env) in
  let* revokedSerials := wrapErr "error fetching list of revoked certs"
                      (storageList "revoked/") in
  let* v := revokedLoop config issuerIDCertMap (length revokedSerials) 0%nat
         revokedSerials revLoopInit in
  tidyRebuildCRL (rebuildCRL v).

(** ** The background run *)

(** The closure [doTidy] of [startTidyOperation].  The branch taken when
    the revocation pass fails returns nil, as the source does. *)
Definition doTidy (config : tidyConfig) : M unit :=
  (if CertStore config then doTidyCertStore config else ret tt) >>
  if RevokedCerts config || IssuerAssocs config then
    fun b =>
      match doTidyRevocationStore config b with
      | (b', Err _) => (b', Ok tt)
      | (b', Ok _) => (b', Ok tt)
      end
  else ret tt.

(** From [doTidy()] to [tidyStatusStop]. *)
Definition tidyRunBody (config : tidyConfig) (b : backend W) : backend W :=
  match doTidy config b with
  | (b', Err e) => tidyStatusStop (Some e) b'
  | (b', Ok _) => tidyStatusStop None b'
  end.

(** The whole goroutine of [startTidyOperation], run without interruption:
    status start, the passes, status stop, then the deferred store that
    releases the guard. *)
Definition tidyGoroutine (config : tidyConfig) (b : backend W) : backend W :=
  setGuard 0 (tidyRunBody config (tidyStatusStart config b)).

(** ** Status read *)

Definition inactiveData : gmap string Any :=
  <["missing_issuer_cert_count" := VNil]>
  (<["revoked_cert_deleted_count" := VNil]>
  (<["cert_store_deleted_count" := VNil]>
  (<["message" := VNil]>
  (<["time_finished" := VNil]>
  (<["time_started" := VNil]>
  (<["error" := VNil]>
  (<["state" := VString "Inactive"]>
  (<["tidy_revoked_certs" := VNil]>
  (<["tidy_cert_store" := VNil]>
  (<["safety_buffer" := VNil]> ∅)))))))))).

Definition pathTidyStatusRead (b : backend W) : result Response :=
  if perfSecondary env (world b) && negb (localMount env (world b)) then
    Err ErrReadOnly
  else
    let st := bTidyStatus b in
    let data := inactiveData in
    if decide (state st = tidyStatusInactive) then Ok (Resp data [])
    else
      let data := <["safety_buffer" := VInt (safetyBuffer st)]> data in
      let data := <["tidy_cert_store" := VBool (tidyCertStore st)]> data in
      let data := <["tidy_revoked_certs" := VBool (tidyRevokedCerts st)]> data in
      let data := <["tidy_revoked_cert_issuer_associations" :=
                      VBool (tidyRevokedAssocs st)]> data in
      let data := <["time_started" := VTime (timeStarted st)]> data in
      let data := <["message" := VString (message st)]> data in
      let data := <["cert_store_deleted_count" :=
                      VUint (certStoreDeletedCount st)]> data in
      let data := <["revoked_cert_deleted_count" :=
                      VUint (revokedCertDeletedCount st)]> data in
      let data := <["missing_issuer_cert_count" :=
                      VUint (missingIssuerCertCount st)]> data in
      match state st with
      | tidyStatusStarted =>
          Ok (Resp (<["state" := VString "Running"]> data) [])
      | tidyStatusFinished =>
          let data := <["state" := VString "Finished"]> data in
          let data := <["time_finished" := VTime (timeFinished st)]> data in
          Ok (Resp (<["message" := VNil]> data) [])
      | tidyStatusError =>
          let data := <["state" := VString "Error"]> data in
          let data := <["time_finished" := VTime (timeFinished st)]> data in
          match err st with
          | Some e => Ok (Resp (<["error" := VString e]> data) [])
          | None => Err nilDereference
          end
      | tidyStatusInactive => Ok (Resp data [])
      end.

(** The status request is served here rather than refused for forwarding. *)
Definition servedLocally (w : W) : Prop :=
  perfSecondary env w && negb (localMount env w) = false.

(** ** The write handler and the goroutines it starts *)

(** How far a goroutine started by [startTidyOperation] has come: not yet
    scheduled; past [tidyStatusStart]; past [tidyStatusStop], with only
    the deferred release of the guard left. *)
Inductive goPhase :=
| GoSpawned
| GoStarted
| GoStopped.

Record goroutine := {
  goConfig : tidyConfig;
  goAt : goPhase
}.

Record System := {
  sysBackend : backend W;
  sysGoroutines : list goroutine
}.

(** [atomic.CompareAndSwapUint32(b.tidyCASGuard, old, new)] *)
Definition CompareAndSwapUint32 (old new : Z) (b : backend W)
    : backend W * bool :=
  if tidyCASGuard b =? old then (setGuard new b, true) else (b, false).

Definition startTidyOperation (config : tidyConfig) (s : System) : System :=
  {| sysBackend := sysBackend s;
     sysGoroutines := sysGoroutines s ++ [{| goConfig := config; goAt := GoSpawned |}] |}.

Definition pathTidyWrite (d : FieldData) (s : System) : System * Response :=
  let safetyBuffer := safety_buffer d in
  let tidyCertStore := tidy_cert_store d in
  let tidyRevokedCerts := tidy_revoked_certs d || tidy_revocation_list d in
  let tidyRevokedAssocs := tidy_revoked_cert_issuer_associations d in
  if safetyBuffer <? 1 then
    (s, ErrorResponse "safety_buffer must be greater than zero")
  else
    let bufferDuration := wrapInt64 (safetyBuffer * Second) in
    let config := {| CertStore := tidyCertStore;
                     RevokedCerts := tidyRevokedCerts;
                     IssuerAssocs := tidyRevokedAssocs;
                     SafetyBuffer := bufferDuration |} in
    let (b', swapped) := CompareAndSwapUint32 0 1 (sysBackend s) in
    if negb swapped then
      (s, Resp ∅ ["Tidy operation already in progress."])
    else
      let s' := startTidyOperation config
                  {| sysBackend := b'; sysGoroutines := sysGoroutines s |} in
      let resp :=
        if negb tidyCertStore && negb tidyRevokedCerts && negb tidyRevokedAssocs then
          Resp ∅ ["No targets to tidy; specify tidy_cert_store=true or tidy_revoked_certs=true or tidy_revoked_cert_issuer_associations=true to start a tidy operation."]
        else
          Resp ∅ ["Tidy operation successfully started. Any information from the operation will be printed to Vault's server logs."] in
      (s', RespondWithStatusCode resp StatusAccepted).

(** One scheduling step of a goroutine: the segment it runs next. *)
Definition goStep (g : goroutine) (b : backend W) : backend W * option goroutine :=
  match goAt g with
  | GoSpawned =>
      (tidyStatusStart (goConfig g) b,
       Some {| goConfig := goConfig g; goAt := GoStarted |})
  | GoStarted =>
      (tidyRunBody (goConfig g) b,
       Some {| goConfig := goConfig g; goAt := GoStopped |})
  | GoStopped => (setGuard 0 b, None)
  end.

(** What can happen to the system: a tidy request arrives, or the
    goroutine at position [i] is scheduled for its next segment. *)
Inductive Event :=
| EvWrite (d : FieldData)
| EvGo (i : nat).

Definition sysStep (e : Event) (s : System) : System * list Response :=
  match e with
  | EvWrite d => let (s', r) := pathTidyWrite d s in (s', [r])
  | EvGo i =>
      match sysGoroutines s !! i with
      | None => (s, [])
      | Some g =>
          match goStep g (sysBackend s) with
          | (b', Some g') =>
              ({| sysBackend := b'; sysGoroutines := <[i := g']> (sysGoroutines s) |}, [])
          | (b', None) =>
              ({| sysBackend := b'; sysGoroutines := delete i (sysGoroutines s) |}, [])
          end
      end
  end.

Fixpoint sysRun (es : list Event) (s : System) : System * list Response :=
  match es with
  | [] => (s, [])
  | e :: es' =>
      let (s1, r1) := sysStep e s in
      let (s2, r2) := sysRun es' s1 in
      (s2, r1 ++ r2)
  end.

End Code.

Arguments sysBackend {W}.
Arguments sysGoroutines {W}.

(** The backend of a freshly started process: guard idle, status
    [Inactive], nothing logged. *)
Definition zeroStatus : tidyStatus :=
  {| safetyBuffer := 0; tidyCertStore := false; tidyRevokedCerts := false;
     tidyRevokedAssocs := false; state := tidyStatusInactive; err := None;
     timeStarted := 0; timeFinished := 0; message := EmptyString;
     certStoreDeletedCount := 0; revokedCertDeletedCount := 0;
     missingIssuerCertCount := 0 |}.

Definition newBackend {W} (w : W) : backend W :=
  {| tidyCASGuard := 0; bTidyStatus := zeroStatus; world := w;
     statusLog := []; calls := [] |}.

Definition newSystem {W} (w : W) : System (W:=W) :=
  {| sysBackend := newBackend w; sysGoroutines := [] |}.

(** ** Vocabulary of the status history

    [fullLog] is the history of the status tracker, newest value first.
    [statusStep] is one permitted move of the tracker: the start of a
    run (into [Started], from any other state, with all counters zero),
    progress within a run (counters do not decrease), and the stop of a
    run (into [Finished] or [Error], counters unchanged). *)

Definition fullLog {W} (b : backend W) : list tidyStatus :=
  bTidyStatus b :: statusLog b.

Definition countersZero (s : tidyStatus) : Prop :=
  certStoreDeletedCount s = 0
  /\ revokedCertDeletedCount s = 0
  /\ missingIssuerCertCount s = 0.

Definition countersLe (s s' : tidyStatus) : Prop :=
  certStoreDeletedCount s <= certStoreDeletedCount s'
  /\ revokedCertDeletedCount s <= revokedCertDeletedCount s'
  /\ missingIssuerCertCount s <= missingIssuerCertCount s'.

Definition countersEq (s s' : tidyStatus) : Prop :=
  certStoreDeletedCount s = certStoreDeletedCount s'
  /\ revokedCertDeletedCount s = revokedCertDeletedCount s'
  /\ missingIssuerCertCount s = missingIssuerCertCount s'.

Definition statusStep (s s' : tidyStatus) : Prop :=
  (state s <> tidyStatusStarted /\ state s' = tidyStatusStarted
   /\ countersZero s')
  \/ (state s = tidyStatusStarted /\ state s' = tidyStatusStarted
      /\ countersLe s s')
  \/ (state s = tidyStatusStarted
      /\ (state s' = tidyStatusFinished \/ state s' = tidyStatusError)
      /\ countersEq s s').

Fixpoint statusChain (l : list tidyStatus) : Prop :=
  match l with
  | [] => True
  | s' :: tl =>
      match tl with
      | [] => True
      | s :: _ => statusStep s s'
      end /\ statusChain tl
  end.

(** A listing is a Go slice: its length fits a signed 64-bit [int]. *)
Definition listingsFit {W} (env : Env W) : Prop :=
  forall (prefix : string) (w : W),
    match snd (storage_List env prefix w) with
    | Ok l => Z.of_nat (length l) < 2 ^ 63
    | Err _ => True
    end.

(** Room for [n1], [n2], [n3] more increments of the three counters
    before a 64-bit unsigned counter would wrap. *)
Definition room (n1 n2 n3 : Z) (s : tidyStatus) : Prop :=
  (0 <= certStoreDeletedCount s /\ certStoreDeletedCount s + n1 < 2 ^ 64)
  /\ (0 <= revokedCertDeletedCount s /\ revokedCertDeletedCount s + n2 < 2 ^ 64)
  /\ (0 <= missingIssuerCertCount s /\ missingIssuerCertCount s + n3 < 2 ^ 64).

(** [adv n1 n2 n3 b b']: from [b] the run has advanced to [b'] without
    touching the guard or the oldest entry of the history, and - if it
    started in state [Started] with room
    for that many increments - it is still [Started], each counter has
    grown by at most its budget, and a well-formed history stays
    well-formed. *)
Definition adv {W} (n1 n2 n3 : Z) (b b' : backend W) : Prop :=
  tidyCASGuard b' = tidyCASGuard b
  /\ last (fullLog b') = last (fullLog b)
  /\ (state (bTidyStatus b) = tidyStatusStarted ->
      room n1 n2 n3 (bTidyStatus b) ->
      state (bTidyStatus b') = tidyStatusStarted
      /\ (certStoreDeletedCount (bTidyStatus b)
            <= certStoreDeletedCount (bTidyStatus b')
            <= certStoreDeletedCount (bTidyStatus b) + n1)
      /\ (revokedCertDeletedCount (bTidyStatus b)
            <= revokedCertDeletedCount (bTidyStatus b')
            <= revokedCertDeletedCount (bTidyStatus b) + n2)
      /\ (missingIssuerCertCount (bTidyStatus b)
            <= missingIssuerCertCount (bTidyStatus b')
            <= missingIssuerCertCount (bTidyStatus b) + n3)
      /\ (statusChain (fullLog b) -> statusChain (fullLog b'))).

(** The guard tells whether a goroutine of the tidy run exists, and
    there is never more than one. *)
Definition guardInv {W} (s : System (W:=W)) : Prop :=
  (sysGoroutines s = [] /\ tidyCASGuard (sysBackend s) = 0)
  \/ (exists g, sysGoroutines s = [g] /\ tidyCASGuard (sysBackend s) = 1).

(** What the status tracker holds while the goroutine is at a phase. *)
Definition phaseInv (g : goroutine) (st : tidyStatus) : Prop :=
  match goAt g with
  | GoSpawned => state st <> tidyStatusStarted
  | GoStarted => state st = tidyStatusStarted /\ countersZero st
  | GoStopped => state st <> tidyStatusStarted
  end.

Definition statusInv {W} (s : System (W:=W)) : Prop :=
  statusChain (fullLog (sysBackend s))
  /\ last (fullLog (sysBackend s)) = Some zeroStatus
  /\ match sysGoroutines s with
     | [] => state (bTidyStatus (sysBackend s)) <> tidyStatusStarted
     | g :: _ => phaseInv g (bTidyStatus (sysBackend s))
     end.

(** The answers of the write handler. *)
Definition busyResponse : Response :=
  Resp ∅ ["Tidy operation already in progress."].

Definition isAccepted (r : Response) : bool :=
  match r with
  | RespondWithStatusCode (Resp _ _) code => code =? StatusAccepted
  | _ => false
  end.

Definition validRequest (d : FieldData) : Prop := 1 <= safety_buffer d.

(** ** An in-memory world

    A small concrete collaborator set on which the handlers can be run:
    an association list as storage, a fixed clock, a switch for automatic
    CRL rebuilds, a counter of rebuilds performed, and a list of keys and
    prefixes on which the storage reports a failure.  Certificates and
    revocation records use a toy encoding: the first byte of a
    certificate is its expiry in seconds, the second names its signer, the
    third its subject; a revocation record is one byte for the issuer
    reference followed by the certificate.  A listing returns at most
    [memListCap] keys. *)

Record MemWorld := {
  mStore : list (string * bytes);
  mClock : Time;
  mAutoRebuild : bool;
  mRebuilds : nat;
  mIssuers : gmap issuerID Certificate;
  mFail : list string
}.

Definition memListCap : nat := 64.

Definition mFails (k : string) (w : MemWorld) : bool :=
  bool_decide (k ∈ mFail w).

Definition withStore (st : list (string * bytes)) (w : MemWorld) : MemWorld :=
  {| mStore := st; mClock := mClock w; mAutoRebuild := mAutoRebuild w;
     mRebuilds := mRebuilds w; mIssuers := mIssuers w; mFail := mFail w |}.

Definition stripPrefix (p k : string) : option string :=
  if String.prefix p k
  then Some (String.substring (String.length p) (String.length k - String.length p) k)
  else None.

Definition memList (p : string) (w : MemWorld) : MemWorld * result (list string) :=
  if mFails p w then (w, Err "storage unavailable")
  else (w, Ok (take memListCap (omap (fun kv => stripPrefix p (fst kv)) (mStore w)))).

Definition memGet (k : string) (w : MemWorld) : MemWorld * result (option StorageEntry) :=
  if mFails k w then (w, Err "storage unavailable")
  else (w, Ok ((fun kv => {| Key := fst kv; Value := snd kv |}) <$>
               List.find (fun kv => bool_decide (fst kv = k)) (mStore w))).

Definition memDelete (k : string) (w : MemWorld) : MemWorld * result unit :=
  if mFails k w then (w, Err "storage unavailable")
  else (withStore (List.filter (fun kv => negb (bool_decide (fst kv = k))) (mStore w)) w,
        Ok tt).

Definition memPut (e : StorageEntry) (w : MemWorld) : MemWorld * result unit :=
  if mFails (Key e) w then (w, Err "storage unavailable")
  else (withStore
          (List.filter (fun kv => negb (bool_decide (fst kv = Key e))) (mStore w)
             ++ [(Key e, Value e)]) w,
        Ok tt).

Definition memRebuild (forced : bool) (w : MemWorld) : MemWorld * result unit :=
  ({| mStore := mStore w; mClock := mClock w; mAutoRebuild := mAutoRebuild w;
      mRebuilds := S (mRebuilds w); mIssuers := mIssuers w; mFail := mFail w |},
   Ok tt).

Definition toyParseCertificate (der : bytes) : result Certificate :=
  match der with
  | [] => Err "x509: malformed certificate"
  | xff :: _ => Err "x509: malformed certificate"
  | t :: _ => Ok {| Raw := der; NotAfter := Z.of_N (Byte.to_N t) * Second |}
  end.

Definition toyDecodeJSON (v : bytes) (old : revocationInfo) : result revocationInfo :=
  match v with
  | [] => Err "unexpected end of JSON input"
  | xff :: _ => Err "invalid character"
  | x00 :: der =>
      Ok {| CertificateBytes := der; CertificateIssuer := CertificateIssuer old |}
  | x01 :: der =>
      Ok {| CertificateBytes := der; CertificateIssuer := EmptyString |}
  | i :: der =>
      Ok {| CertificateBytes := der;
            CertificateIssuer := String (ascii_of_byte i) EmptyString |}
  end.

Definition toyEntryJSON (k : string) (r : revocationInfo) : result StorageEntry :=
  Ok {| Key := k;
        Value := match CertificateIssuer r with
                 | EmptyString => x01
                 | String c _ => byte_of_ascii c
                 end :: CertificateBytes r |}.

Definition toyIssuerValid (r : revocationInfo) (m : gmap issuerID Certificate) : bool :=
  negb (String.length (CertificateIssuer r) =? 0)%nat &&
  bool_decide (is_Some (m !! CertificateIssuer r)).

Definition toyAssociate (r : revocationInfo) (c : Certificate)
    (m : gmap issuerID Certificate) : bool * revocationInfo :=
  match List.find (fun kv => bool_decide (Byte.to_N <$> Raw (snd kv) !! 2%nat
                                            = Byte.to_N <$> Raw c !! 1%nat
                                          ∧ is_Some (Raw c !! 1%nat)))
                  (map_to_list m) with
  | Some kv => (true, {| CertificateBytes := CertificateBytes r;
                         CertificateIssuer := fst kv |})
  | None => (false, r)
  end.

Definition memEnv : Env MemWorld :=
  {| storage_List := memList;
     storage_Get := memGet;
     storage_Put := memPut;
     storage_Delete := memDelete;
     time_Now := fun w => (w, mClock w);
     fetchIssuerMapForRevocationChecking := fun w => (w, Ok (mIssuers w));
     getRevocationConfig := fun w => (w, Ok {| AutoRebuild := mAutoRebuild w |});
     crlBuilder_rebuild := memRebuild;
     perfSecondary := fun _ => false;
     localMount := fun _ => true;
     x509_ParseCertificate := toyParseCertificate;
     DecodeJSON := toyDecodeJSON;
     isRevInfoIssuerValid := toyIssuerValid;
     associateRevokedCertWithIsssuer := toyAssociate;
     StorageEntryJSON := toyEntryJSON |}.

Definition memWorld (st : list (string * bytes)) (now : Time) (auto : bool)
    (issuers : gmap issuerID Certificate) (failing : list string) : MemWorld :=
  {| mStore := st; mClock := now; mAutoRebuild := auto; mRebuilds := 0;
     mIssuers := issuers; mFail := failing |}.

Definition cfg (certStore revoked assocs : bool) (seconds : Z) : tidyConfig :=
  {| CertStore := certStore; RevokedCerts := revoked; IssuerAssocs := assocs;
     SafetyBuffer := seconds * Second |}.

(** ** Vocabulary of the call log *)

Definition isPut (c : Call) : bool :=
  match c with
  | CallPut _ => true
  | _ => false
  end.

Definition certsDelete (serial : string) : Call :=
  CallDelete ("certs/" +:+ serial).

(** A value of Go type [uint] on a 64-bit platform. *)
Definition isUint64 (z : Z) : Prop := 0 <= z < 2 ^ 64.

(** A status in state [Error] carries an error. *)
Definition errorRecorded (st : tidyStatus) : Prop :=
  state st = tidyStatusError -> err st <> None.

(** * The fetch handler (builtin/logical/pki/path_fetch.go)

    [pathFetchRead] answers the read of a CA certificate, a CA chain, a
    CRL or a stored certificate, raw or as JSON.  Its collaborators - the
    If-Modified-Since helper, the CA and certificate fetchers, the PEM
    encoder, [strings.TrimSpace], the JSON decoder - and the constants of
    other files are the fields of [FetchEnv].  The two last fields state
    what the handler relies on from [logical.Response.IsError]: a
    response whose data map is empty is not an error (the response built
    by [logical.ErrorResponse] is the constructor [FetchError], which
    is). *)

Inductive FetchValue :=
| FString (s : string)
| FBytes (bs : bytes)
| FInt (z : Z).

Inductive FetchResponse :=
| FetchError (text : string)
| FetchData (data : gmap string FetchValue).

Record FetchRequest := {
  reqPath : string;
  reqSerial : string
}.

(** [caInfo.Certificate.Raw] and the bytes of the blocks of
    [caInfo.GetFullChain()]. *)
Record CAInfoBundle := {
  caRaw : bytes;
  caFullChain : list bytes
}.

Definition HTTPContentType : string := "http_content_type".
Definition HTTPRawBody : string := "http_raw_body".
Definition HTTPStatusCode : string := "http_status_code".

Definition newline : string := String (ascii_of_nat 10) EmptyString.

(** [strings.HasSuffix] *)
Definition HasSuffix (s suffix : string) : bool :=
  let n := String.length s in
  let m := String.length suffix in
  (m <=? n)%nat && String.eqb (String.substring (n - m) m s) suffix.

Record FetchEnv (W : Type) := {
  defaultRef : string;
  legacyCRLPath : string;
  deltaCRLPath : string;
  (* the helper is handed the response and may rewrite its data *)
  sendNotModifiedResponseIfNecessary :
    string -> FetchRequest -> W -> W * (result bool * gmap string FetchValue);
  fetchCAInfo : string -> W -> W * result CAInfoBundle;
  fetchCertBySerial : string -> string -> W -> W * result (option StorageEntry);
  (* the type switch [case errutil.UserError] *)
  isUserError : error -> bool;
  (* [string(pem.EncodeToMemory(&pem.Block{Type: t, Bytes: bs}))] *)
  pemEncodeToMemory : string -> bytes -> string;
  TrimSpace : string -> string;
  (* [DecodeJSON] into a fresh [revocationInfo], then [RevocationTime] *)
  decodeRevocationTime : bytes -> result Z;
  dataIsError : gmap string FetchValue -> bool;
  dataIsError_empty : dataIsError ∅ = false
}.

Arguments defaultRef {W}.
Arguments legacyCRLPath {W}.
Arguments deltaCRLPath {W}.
Arguments sendNotModifiedResponseIfNecessary {W}.
Arguments fetchCAInfo {W}.
Arguments fetchCertBySerial {W}.
Arguments isUserError {W}.
Arguments pemEncodeToMemory {W}.
Arguments TrimSpace {W}.
Arguments decodeRevocationTime {W}.
Arguments dataIsError {W}.
Arguments dataIsError_empty {W}.

(** The variables of [pathFetchRead] that are live at the label
    [reply]. *)
Record fetchVars := {
  fvResponse : option FetchResponse;
  fvRetErr : option error;
  fvContentType : string;
  fvCertificate : bytes;
  fvFullChain : bytes;
  fvRevocationTime : Z
}.

(** What the first [switch] settles when it does not jump to [reply]. *)
Record fetchSelected := {
  selSerial : string;
  selPemType : string;
  selContentType : string;
  selResponse : FetchResponse
}.

(** Where the body of [pathFetchRead] ends: at the label [reply], or in
    the [return] inside the body. *)
Inductive fetchFlow :=
| AtReply (v : fetchVars)
| Returned (response : option FetchResponse) (retErr : option error).

Definition IsError (r : FetchResponse) (dataIsError : gmap string FetchValue -> bool)
    : bool :=
  match r with
  | FetchError _ => true
  | FetchData data => dataIsError data
  end.

Section FetchCode.

Context {W : Type} (fenv : FetchEnv W).

Definition fetchVars0 (response : FetchResponse) (contentType : string) : fetchVars :=
  {| fvResponse := Some response; fvRetErr := None;
     fvContentType := contentType; fvCertificate := []; fvFullChain := [];
     fvRevocationTime := 0 |}.

Definition isCAPath (path : string) : bool :=
  String.eqb path "ca" || String.eqb path "ca/pem" || String.eqb path "cert/ca"
  || String.eqb path "cert/ca/raw" || String.eqb path "cert/ca/raw/pem".

Definition isChainPath (path : string) : bool :=
  String.eqb path "ca_chain" || String.eqb path "cert/ca_chain".

Definition isCRLPath (path : string) : bool :=
  String.eqb path "crl" || String.eqb path "crl/pem" || String.eqb path "crl/delta"
  || String.eqb path "crl/delta/pem" || String.eqb path "cert/crl"
  || String.eqb path "cert/crl/raw" || String.eqb path "cert/crl/raw/pem".

(** The first [switch] of [pathFetchRead]. *)
Definition fetchSelect (req : FetchRequest) (w : W) : W * (fetchVars + fetchSelected) :=
  let path := reqPath req in
  if isCAPath path then
    let '(w1, (r, data)) :=
      sendNotModifiedResponseIfNecessary fenv (defaultRef fenv) req w in
    match r with
    | Err e =>
        (w1, inl {| fvResponse := Some (FetchData data); fvRetErr := Some e;
                    fvContentType := EmptyString; fvCertificate := [];
                    fvFullChain := []; fvRevocationTime := 0 |})
    | Ok true => (w1, inl (fetchVars0 (FetchData data) EmptyString))
    | Ok false =>
        let serial := "ca" in
        let contentType := "application/pkix-cert" in
        if String.eqb path "ca/pem" || String.eqb path "cert/ca/raw/pem" then
          (w1, inr {| selSerial := serial; selPemType := "CERTIFICATE";
                      selContentType := "application/pem-certificate-chain";
                      selResponse := FetchData data |})
        else if String.eqb path "cert/ca" then
          (w1, inr {| selSerial := serial; selPemType := "CERTIFICATE";
                      selContentType := EmptyString;
                      selResponse := FetchData data |})
        else
          (w1, inr {| selSerial := serial; selPemType := EmptyString;
                      selContentType := contentType;
                      selResponse := FetchData data |})
    end
  else if isChainPath path then
    (w, inr {| selSerial := "ca_chain"; selPemType := EmptyString;
               selContentType := if String.eqb path "ca_chain"
                                 then "application/pkix-cert" else EmptyString;
               selResponse := FetchData ∅ |})
  else if isCRLPath path then
    let '(w1, (r, data)) :=
      sendNotModifiedResponseIfNecessary fenv EmptyString req w in
    match r with
    | Err e =>
        (w1, inl {| fvResponse := Some (FetchData data); fvRetErr := Some e;
                    fvContentType := EmptyString; fvCertificate := [];
                    fvFullChain := []; fvRevocationTime := 0 |})
    | Ok true => (w1, inl (fetchVars0 (FetchData data) EmptyString))
    | Ok false =>
        let serial :=
          if String.eqb path "crl/delta" || String.eqb path "crl/delta/pem"
          then deltaCRLPath fenv else legacyCRLPath fenv in
        let contentType := "application/pkix-crl" in
        if String.eqb path "crl/pem" || String.eqb path "crl/delta/pem" then
          (w1, inr {| selSerial := serial; selPemType := "X509 CRL";
                      selContentType := "application/x-pem-file";
                      selResponse := FetchData data |})
        else if String.eqb path "cert/crl" then
          (w1, inr {| selSerial := serial; selPemType := "X509 CRL";
                      selContentType := EmptyString;
                      selResponse := FetchData data |})
        else
          (w1, inr {| selSerial := serial; selPemType := EmptyString;
                      selContentType := contentType;
                      selResponse := FetchData data |})
    end
  else if HasSuffix path "/pem" || HasSuffix path "/raw" then
    let serial := reqSerial req in
    if HasSuffix path "/pem" then
      (w, inr {| selSerial := serial; selPemType := "CERTIFICATE";
                 selContentType := "application/pem-certificate-chain";
                 selResponse := FetchData ∅ |})
    else
      (w, inr {| selSerial := serial; selPemType := EmptyString;
                 selContentType := "application/pkix-cert";
                 selResponse := FetchData ∅ |})
  else
    (w, inr {| selSerial := reqSerial req; selPemType := "CERTIFICATE";
               selContentType := EmptyString; selResponse := FetchData ∅ |}).

(** The [switch err.(type)] that follows each fetch. *)
Definition fetchFail (e : error) (v : fetchVars) : fetchVars :=
  if isUserError fenv e then
    {| fvResponse := Some (FetchError e); fvRetErr := fvRetErr v;
       fvContentType := fvContentType v; fvCertificate := fvCertificate v;
       fvFullChain := fvFullChain v; fvRevocationTime := fvRevocationTime v |}
  else
    {| fvResponse := fvResponse v; fvRetErr := Some e;
       fvContentType := fvContentType v; fvCertificate := fvCertificate v;
       fvFullChain := fvFullChain v; fvRevocationTime := fvRevocationTime v |}.

(** [[]byte(strings.TrimSpace(string(pem.EncodeToMemory(&block))))] *)
Definition pemTrimmed (pemType : string) (der : bytes) : bytes :=
  list_byte_of_string (TrimSpace fenv (pemEncodeToMemory fenv pemType der)).

(** The loop that builds [chainStr], and the final trim. *)
Definition fetchChain (rawChain : list bytes) : bytes :=
  let chainStr :=
    fold_left
      (fun chainStr ca =>
         chainStr +:+ newline +:+
         TrimSpace fenv (pemEncodeToMemory fenv "CERTIFICATE" ca))
      rawChain EmptyString in
  list_byte_of_string (TrimSpace fenv chainStr).

Definition withCertificate (certificate fullChain : bytes) (v : fetchVars) : fetchVars :=
  {| fvResponse := fvResponse v; fvRetErr := fvRetErr v;
     fvContentType := fvContentType v; fvCertificate := certificate;
     fvFullChain := fullChain; fvRevocationTime := fvRevocationTime v |}.

(** From the check of the serial to the label [reply]. *)
Definition fetchBody (req : FetchRequest) (sel : fetchSelected) (w : W)
    : W * fetchFlow :=
  let serial := selSerial sel in
  let pemType := selPemType sel in
  let v := fetchVars0 (selResponse sel) (selContentType sel) in
  if (String.length serial =? 0)%nat then
    (w, AtReply {| fvResponse := Some (FetchError "The serial number must be provided");
                   fvRetErr := None; fvContentType := selContentType sel;
                   fvCertificate := []; fvFullChain := [];
                   fvRevocationTime := 0 |})
  else if String.eqb serial "ca_chain" || String.eqb serial "ca" then
    match fetchCAInfo fenv (defaultRef fenv) w with
    | (w1, Err e) => (w1, AtReply (fetchFail e v))
    | (w1, Ok caInfo) =>
        if String.eqb serial "ca_chain" then
          let fullChain := fetchChain (caFullChain caInfo) in
          (w1, AtReply (withCertificate fullChain fullChain v))
        else
          let certificate := caRaw caInfo in
          if negb (String.length pemType =? 0)%nat then
            (w1, AtReply (withCertificate (pemTrimmed pemType certificate) [] v))
          else
            (w1, AtReply (withCertificate certificate [] v))
    end
  else
    match fetchCertBySerial fenv (reqPath req) serial w with
    | (w1, Err e) => (w1, AtReply (fetchFail e v))
    | (w1, Ok None) =>
        (w1, AtReply {| fvResponse := None; fvRetErr := None;
                        fvContentType := selContentType sel;
                        fvCertificate := []; fvFullChain := [];
                        fvRevocationTime := 0 |})
    | (w1, Ok (Some certEntry)) =>
        let certificate :=
          if negb (String.length pemType =? 0)%nat
          then pemTrimmed pemType (Value certEntry)
          else Value certEntry in
        let v := withCertificate certificate [] v in
        match fetchCertBySerial fenv "revoked/" serial w1 with
        | (w2, Err e) => (w2, AtReply (fetchFail e v))
        | (w2, Ok None) => (w2, AtReply v)
        | (w2, Ok (Some revokedEntry)) =>
            match decodeRevocationTime fenv (Value revokedEntry) with
            | Err e =>
                (w2, Returned
                       (Some (FetchError
                                ("Error decoding revocation entry for serial " +:+
                                 serial +:+ ": " +:+ e)))
                       None)
            | Ok revocationTime =>
                (w2, AtReply {| fvResponse := fvResponse v;
                                fvRetErr := fvRetErr v;
                                fvContentType := fvContentType v;
                                fvCertificate := fvCertificate v;
                                fvFullChain := fvFullChain v;
                                fvRevocationTime := revocationTime |})
            end
        end
    end.

(** The raw answer: content type, body and a status by the body. *)
Definition rawResponse (contentType : string) (certificate : bytes) : FetchResponse :=
  FetchData
    (<[HTTPStatusCode := FInt (if (0 <? length certificate)%nat then 200 else 204)]>
     (<[HTTPRawBody := FBytes certificate]>
      (<[HTTPContentType := FString contentType]> ∅))).

(** The [switch] at the label [reply] and the final [return]. *)
Definition fetchReply (v : fetchVars) : option FetchResponse * option error :=
  if negb (String.length (fvContentType v) =? 0)%nat then
    (Some (rawResponse (fvContentType v) (fvCertificate v)), None)
  else
    match fvRetErr v with
    | Some e => (None, Some e)
    | None =>
        match fvResponse v with
        | None => (None, None)
        | Some response =>
            if IsError response (dataIsError fenv) then (Some response, None)
            else
              match response with
              | FetchError _ => (Some response, None)
              | FetchData data =>
                  let data :=
                    <["certificate" :=
                        FString (string_of_list_byte (fvCertificate v))]> data in
                  let data :=
                    <["revocation_time" := FInt (fvRevocationTime v)]> data in
                  let data :=
                    if (0 <? length (fvFullChain v))%nat
                    then <["ca_chain" :=
                             FString (string_of_list_byte (fvFullChain v))]> data
                    else data in
                  (Some (FetchData data), None)
              end
        end
    end.

Definition pathFetchRead (req : FetchRequest) (w : W)
    : W * (option FetchResponse * option error) :=
  match fetchSelect req w with
  | (w1, inl v) => (w1, fetchReply v)
  | (w1, inr sel) =>
      match fetchBody req sel w1 with
      | (w2, AtReply v) => (w2, fetchReply v)
      | (w2, Returned response retErr) => (w2, (response, retErr))
      end
  end.

End FetchCode.

(** ** The fetch collaborators over the in-memory world

    A toy PEM armour (no base64), a trim of blanks and line feeds, a
    revocation record whose first byte is the revocation time, a CA that
    is missing when the key [config/ca] is marked as failing, and an
    If-Modified-Since helper that answers "not modified" when the key
    [not-modified] is. *)

Definition toyPem (t : string) (der : bytes) : string :=
  "-----BEGIN " +:+ t +:+ "-----" +:+ newline +:+ string_of_list_byte der +:+
  newline +:+ "-----END " +:+ t +:+ "-----" +:+ newline.

Definition isBlank (c : ascii) : bool :=
  (nat_of_ascii c =? 32)%nat || (nat_of_ascii c =? 10)%nat.

Fixpoint dropBlanks (l : list ascii) : list ascii :=
  match l with
  | [] => []
  | c :: l' => if isBlank c then dropBlanks l' else l
  end.

Definition toyTrimSpace (s : string) : string :=
  string_of_list_ascii
    (List.rev (dropBlanks (List.rev (dropBlanks (list_ascii_of_string s))))).

Definition toyFetchCert (prefix serial : string) (w : MemWorld)
    : MemWorld * result (option StorageEntry) :=
  if String.eqb prefix "revoked/" then memGet ("revoked/" +:+ serial) w
  else memGet ("certs/" +:+ serial) w.

Definition toyFetchCA (ref : string) (w : MemWorld) : MemWorld * result CAInfoBundle :=
  if mFails "config/ca" w
  then (w, Err "user error: backend must be configured with a CA certificate/key")
  else (w, Ok {| caRaw := [x63; x00; x07];
                 caFullChain := [[x63; x00; x07]; [x64; x00; x08]] |}).

Definition toyNotModified (ref : string) (req : FetchRequest) (w : MemWorld)
    : MemWorld * (result bool * gmap string FetchValue) :=
  if mFails "not-modified" w
  then (w, (Ok true, <[HTTPStatusCode := FInt 304]> ∅))
  else (w, (Ok false, ∅)).

Definition toyRevocationTime (v : bytes) : result Z :=
  match v with
  | [] => Err "unexpected end of JSON input"
  | xff :: _ => Err "invalid character"
  | t :: _ => Ok (Z.of_N (Byte.to_N t))
  end.

Definition toyDataIsError (data : gmap string FetchValue) : bool :=
  bool_decide (is_Some (data !! "error") /\ size data = 1%nat).

Definition memFetchEnv : FetchEnv MemWorld :=
  {| defaultRef := "default";
     legacyCRLPath := "crl";
     deltaCRLPath := "delta-crl";
     sendNotModifiedResponseIfNecessary := toyNotModified;
     fetchCAInfo := toyFetchCA;
     fetchCertBySerial := toyFetchCert;
     isUserError := String.prefix "user error";
     pemEncodeToMemory := toyPem;
     TrimSpace := toyTrimSpace;
     decodeRevocationTime := toyRevocationTime;
     dataIsError := toyDataIsError;
     dataIsError_empty := eq_refl |}.

(** * Properties *)

Ltac unfold_m :=
  unfold bind, exec, wrapErr, liftR, ret, fail, storageGet, storageList,
    storageDelete, storagePut, crlRebuild, timeNow, liftW in *.

Ltac entry_start Hget Hdec Hparse :=
  unfold tidyRevokedEntry; unfold_m;
  cbn [world setWorld tidyStatusMessage setStatus];
  rewrite Hget;
  match goal with
  | Hval : Value ?e <> [] |- _ =>
      destruct (Value e) as [|? ?] eqn:?; [contradiction|]
  end;
  cbn [length Nat.eqb]; rewrite Hdec; rewrite Hparse.

Ltac cbn_state :=
  cbn [world setWorld logCall setStatus setGuard tidyStatusMessage
       tidyStatusIncCertStoreCount tidyStatusIncRevokedCertCount
       tidyStatusIncMissingIssuerCertCount bTidyStatus calls statusLog
       tidyCASGuard fst snd negb].

(** Case analysis on the next collaborator call or flag the code
    branches on. *)
Ltac split_scrutinee :=
  match goal with
  | |- context [match ?x with _ => _ end] =>
      match x with
      | storage_Get _ _ _ => destruct x as [? [[?|]|?]] eqn:?
      | storage_List _ _ _ => destruct x as [? [?|?]] eqn:?
      | storage_Delete _ _ _ => destruct x as [? [[]|?]] eqn:?
      | storage_Put _ _ _ => destruct x as [? [[]|?]] eqn:?
      | crlBuilder_rebuild _ _ _ => destruct x as [? [[]|?]] eqn:?
      | getRevocationConfig _ _ => destruct x as [? [?|?]] eqn:?
      | fetchIssuerMapForRevocationChecking _ _ => destruct x as [? [?|?]] eqn:?
      | time_Now _ _ => destruct x as [? ?] eqn:?
      | associateRevokedCertWithIsssuer _ _ _ _ => destruct x as [[] ?] eqn:?
      | StorageEntryJSON _ _ _ => destruct x as [?|?] eqn:?
      | DecodeJSON _ _ _ => destruct x as [?|?] eqn:?
      | x509_ParseCertificate _ _ => destruct x as [?|?] eqn:?
      | Time_After _ _ => destruct x eqn:?
      | Nat.eqb _ _ => destruct x eqn:?
      | RevokedCerts _ => destruct x eqn:?
      | IssuerAssocs _ => destruct x eqn:?
      | CertStore _ => destruct x eqn:?
      | AutoRebuild _ => destruct x eqn:?
      | isRevInfoIssuerValid _ _ _ => destruct x eqn:?
      | negb ?y => destruct y eqn:?
      end
  end.

Ltac split_match := split_scrutinee; cbn_state.

Ltac split_matches := repeat split_match.

(** ** Start request validation *)

Section StartRequest.

Context {W : Type}.

Implicit Types (s : System (W:=W)).

(** C7. A start request whose [safety_buffer] is below 1 is answered with
    the user-level error response, and the whole system - guard, status
    tracker, world, started goroutines - is left exactly as it was: the
    guard is not acquired and no run is started. *)
Theorem pathTidyWrite_rejects_safety_buffer (d : FieldData) s
    (Hsb : safety_buffer d < 1) :
  pathTidyWrite d s
    = (s, ErrorResponse "safety_buffer must be greater than zero").
Proof.
  unfold pathTidyWrite.
  destruct (safety_buffer d <? 1) eqn:E; [reflexivity|].
  apply Z.ltb_ge in E. lia.
Qed.

End StartRequest.

Lemma pathTidyWrite_rejects_safety_buffer_witness :
  pathTidyWrite
    {| safety_buffer := 0; tidy_cert_store := true; tidy_revoked_certs := true;
       tidy_revocation_list := false;
       tidy_revoked_cert_issuer_associations := true |}
    (newSystem (memWorld [] 0 false ∅ []))
  = (newSystem (memWorld [] 0 false ∅ []),
     ErrorResponse "safety_buffer must be greater than zero").
Proof.
  apply pathTidyWrite_rejects_safety_buffer. simpl. lia.
Defined.

(** ** Status read *)

Section StatusRead.

Context {W : Type} (env : Env W).

Implicit Types (b : backend W).

Lemma inactiveData_nil (k : string) (v : Any) :
  inactiveData !! k = Some v ->
  (k = "state" /\ v = VString "Inactive") \/ (k <> "state" /\ v = VNil).
Proof.
  unfold inactiveData. intros H.
  repeat (apply lookup_insert_Some in H as [[<- <-]|[? H]];
          [first [left; split; [reflexivity|reflexivity]
                 |right; split; [discriminate|reflexivity]]|]).
  rewrite lookup_empty in H. discriminate.
Qed.

(** C9. While the state is [Inactive] the snapshot is the initial data
    map, in which [state] is the string Inactive and every other key
    present is nil.  [tidyStatusStop] stamps [timeFinished] with the
    clock reading, stores the error, and sets the state to [Finished]
    for a nil error and to [Error] otherwise, leaving the message in
    place.  The snapshot read after a clean stop reports state Finished
    with a nil message and a nil error; the snapshot read after a failed
    stop reports state Error, the progress message of the run, and the
    text of the error. *)
Theorem status_snapshot_after_stop b0 b (e : option error)
    (Hinactive : state (bTidyStatus b0) = tidyStatusInactive)
    (Hserved0 : servedLocally env (world b0))
    (Hserved : servedLocally env (world (tidyStatusStop env e b))) :
  pathTidyStatusRead env b0 = Ok (Resp inactiveData [])
  /\ (forall k v, inactiveData !! k = Some v ->
        (k = "state" /\ v = VString "Inactive") \/ (k <> "state" /\ v = VNil))
  /\ timeFinished (bTidyStatus (tidyStatusStop env e b))
       = snd (time_Now env (world b))
  /\ err (bTidyStatus (tidyStatusStop env e b)) = e
  /\ message (bTidyStatus (tidyStatusStop env e b)) = message (bTidyStatus b)
  /\ state (bTidyStatus (tidyStatusStop env e b))
       = match e with None => tidyStatusFinished | Some _ => tidyStatusError end
  /\ exists data,
       pathTidyStatusRead env (tidyStatusStop env e b) = Ok (Resp data [])
       /\ data !! "time_finished" = Some (VTime (snd (time_Now env (world b))))
       /\ match e with
          | None =>
              data !! "state" = Some (VString "Finished")
              /\ data !! "message" = Some VNil
              /\ data !! "error" = Some VNil
          | Some text =>
              data !! "state" = Some (VString "Error")
              /\ data !! "message" = Some (VString (message (bTidyStatus b)))
              /\ data !! "error" = Some (VString text)
          end.
Proof.
  split.
  { unfold pathTidyStatusRead. rewrite Hserved0.
    destruct (decide _) as [_|N]; [reflexivity|contradiction]. }
  split; [exact inactiveData_nil|].
  unfold pathTidyStatusRead. rewrite Hserved. clear Hserved.
  unfold tidyStatusStop.
  destruct (time_Now env (world b)) as [w' now]. cbn [snd].
  repeat (split; [reflexivity|]).
  destruct e as [text|]; cbn.
  - eexists. split; [reflexivity|]. repeat split.
  - eexists. split; [reflexivity|]. repeat split.
Qed.

End StatusRead.

Lemma status_snapshot_after_stop_witness :
  let b0 := newBackend (memWorld [] (7 * Second) false ∅ []) in
  let b := tidyStatusMessage "Tidying certificate store: checking entry 0 of 1"
             (tidyStatusStart memEnv (cfg true false false 5) b0) in
  state (bTidyStatus b0) = tidyStatusInactive
  /\ servedLocally memEnv (world b0)
  /\ servedLocally memEnv (world (tidyStatusStop memEnv (Some "storage unavailable") b))
  /\ exists data,
       pathTidyStatusRead memEnv (tidyStatusStop memEnv (Some "storage unavailable") b)
         = Ok (Resp data [])
       /\ data !! "state" = Some (VString "Error")
       /\ data !! "message"
            = Some (VString "Tidying certificate store: checking entry 0 of 1")
       /\ data !! "error" = Some (VString "storage unavailable").
Proof.
  intros b0 b.
  assert (H0 : state (bTidyStatus b0) = tidyStatusInactive) by reflexivity.
  assert (H1 : servedLocally memEnv (world b0)) by reflexivity.
  assert (H2 : servedLocally memEnv
                 (world (tidyStatusStop memEnv (Some "storage unavailable") b)))
    by reflexivity.
  repeat (split; [assumption|]).
  destruct (status_snapshot_after_stop memEnv b0 b (Some "storage unavailable")
              H0 H1 H2) as (_ & _ & _ & _ & _ & _ & data & Hr & _ & Hs & Hm & He).
  exists data. repeat split; assumption.
Defined.

(** ** Cert store tidier *)

Section CertStore.

Context {W : Type} (env : Env W).

Implicit Types (b : backend W) (config : tidyConfig).


End CertStore.

(** ** Revocation store tidier: one entry *)

Section RevokedEntry.

Context {W : Type} (env : Env W).

Implicit Types (b : backend W) (config : tidyConfig) (v : revLoopVars).

(** One iteration on an entry of the revocation store that is nil or has
    an empty value, whatever the flags of the configuration: the delete
    of [revoked/<serial>] is issued; when it succeeds the revoked-deleted
    count goes up by one and the loop goes on with its variables
    untouched.  With [tidy_revoked_certs] off and only the
    issuer-association flag on, the run is the revocation pass. *)
Lemma tidyRevokedEntry_empty config
    (issuerIDCertMap : gmap issuerID Certificate) (total i : nat)
    (serial : string) v b (revokedEntry : option StorageEntry) (w1 : W)
    (Hget : storage_Get env ("revoked/" +:+ serial) (world b) = (w1, Ok revokedEntry))
    (Hempty : match revokedEntry with
              | None => True
              | Some e => Value e = []
              end) :
  let b' := fst (tidyRevokedEntry env config issuerIDCertMap total i serial v b) in
  let r := snd (tidyRevokedEntry env config issuerIDCertMap total i serial v b) in
  calls b' = calls b ++ [CallDelete ("revoked/" +:+ serial)]
  /\ match storage_Delete env ("revoked/" +:+ serial) w1 with
     | (w2, Ok _) =>
         r = Ok v /\ world b' = w2
         /\ revokedCertDeletedCount (bTidyStatus b')
              = wrapUint64 (revokedCertDeletedCount (bTidyStatus b) + 1)
     | (w2, Err e) =>
         (exists text, r = Err text) /\ world b' = w2
         /\ revokedCertDeletedCount (bTidyStatus b')
              = revokedCertDeletedCount (bTidyStatus b)
     end
  /\ forall (sb : Duration) (b0 : backend W),
       fst (doTidy env {| CertStore := false; RevokedCerts := false;
                          IssuerAssocs := true; SafetyBuffer := sb |} b0)
       = fst (doTidyRevocationStore env
                {| CertStore := false; RevokedCerts := false;
                   IssuerAssocs := true; SafetyBuffer := sb |} b0).
Proof.
  cbv zeta. split; [|split].
  - unfold tidyRevokedEntry. unfold_m.
    cbn [world setWorld tidyStatusMessage setStatus]. rewrite Hget.
    destruct revokedEntry as [e|].
    + rewrite Hempty. cbn [length Nat.eqb world setWorld logCall].
      destruct (storage_Delete env _ w1) as [w2 [[]|e']]; reflexivity.
    + cbn [world setWorld logCall].
      destruct (storage_Delete env _ w1) as [w2 [[]|e']]; reflexivity.
  - unfold tidyRevokedEntry. unfold_m.
    cbn [world setWorld tidyStatusMessage setStatus]. rewrite Hget.
    destruct revokedEntry as [e|].
    + rewrite Hempty. cbn [length Nat.eqb world setWorld logCall].
      destruct (storage_Delete env _ w1) as [w2 [[]|e']]; cbn; eauto.
    + cbn [world setWorld logCall].
      destruct (storage_Delete env _ w1) as [w2 [[]|e']]; cbn; eauto.
  - intros sb b0. unfold doTidy. unfold_m. cbn [CertStore RevokedCerts IssuerAssocs orb].
    destruct (doTidyRevocationStore env _ b0) as [b1 [[]|e]]; reflexivity.
Qed.

(** One iteration with [tidy_revoked_cert_issuer_associations] on, for
    an entry that is present, decodes and parses.  The record examined,
    [revInfo1], is the entry decoded into the loop-wide variable, so a
    field the entry does not carry keeps the value the previous entry
    left.  When the helper reports the issuer reference of [revInfo1] as
    not valid, the missing-issuer count goes up by exactly one in this
    iteration (whatever the rest of the iteration does), the reference
    is cleared, the association helper is run on the cleared record with
    the whole issuer map, and the entry is marked for rewrite - it is
    written back unless the expiry step deletes it.  When the reference
    is valid the backend is untouched by the block: no count, no change
    to the record, nothing written. *)
Lemma tidyRevokedEntry_issuer_repair config
    (issuerIDCertMap : gmap issuerID Certificate) (total i : nat)
    (serial : string) v b (revokedEntry : StorageEntry)
    (revInfo1 : revocationInfo) (revokedCert : Certificate) (w1 : W)
    (Hassoc : IssuerAssocs config = true)
    (Hget : storage_Get env ("revoked/" +:+ serial) (world b)
            = (w1, Ok (Some revokedEntry)))
    (Hval : Value revokedEntry <> [])
    (Hdec : DecodeJSON env (Value revokedEntry) (revInfo v) = Ok revInfo1)
    (Hparse : x509_ParseCertificate env (CertificateBytes revInfo1) = Ok revokedCert) :
  let b' := fst (tidyRevokedEntry env config issuerIDCertMap total i serial v b) in
  let r := snd (tidyRevokedEntry env config issuerIDCertMap total i serial v b) in
  let cleared := setIssuer EmptyString revInfo1 in
  let assoc := associateRevokedCertWithIsssuer env cleared revokedCert issuerIDCertMap in
  let expired :=
    RevokedCerts config &&
    Time_After (snd (time_Now env w1))
      (Time_Add (NotAfter revokedCert) (SafetyBuffer config)) in
  (forall bx fixed,
     tidyIssuerAssoc env config issuerIDCertMap revInfo1 revokedCert fixed bx
     = if isRevInfoIssuerValid env revInfo1 issuerIDCertMap
       then (bx, Ok (revInfo1, false, fixed))
       else (tidyStatusIncMissingIssuerCertCount bx,
             Ok (snd assoc, true,
                 if fst assoc then wrapInt64 (fixed + 1) else fixed)))
  /\ CertificateIssuer cleared = EmptyString
  /\ missingIssuerCertCount (bTidyStatus b')
     = (if isRevInfoIssuerValid env revInfo1 issuerIDCertMap
        then missingIssuerCertCount (bTidyStatus b)
        else wrapUint64 (missingIssuerCertCount (bTidyStatus b) + 1))
  /\ (if expired then True
      else if isRevInfoIssuerValid env revInfo1 issuerIDCertMap
      then calls b' = calls b
           /\ r = Ok {| revInfo := revInfo1; rebuildCRL := rebuildCRL v;
                        fixedIssuers := fixedIssuers v |}
      else match StorageEntryJSON env ("revoked/" +:+ serial) (snd assoc) with
           | Ok e => calls b' = calls b ++ [CallPut e]
           | Err _ => calls b' = calls b /\ exists text, r = Err text
           end).
Proof.
  cbv zeta. split; [|split; [reflexivity|split]].
  - intros bx fixed. unfold tidyIssuerAssoc. rewrite Hassoc. unfold_m.
    destruct (isRevInfoIssuerValid env revInfo1 issuerIDCertMap); cbn [negb];
      [reflexivity|].
    destruct (associateRevokedCertWithIsssuer env _ revokedCert issuerIDCertMap)
      as [[] ?]; reflexivity.
  - entry_start Hget Hdec Hparse.
    unfold tidyIssuerAssoc, tidyRevokedExpiry, tidyStoreCert. rewrite Hassoc.
    unfold_m.
    destruct (isRevInfoIssuerValid env revInfo1 issuerIDCertMap); cbn [negb];
      split_matches; reflexivity.
  - entry_start Hget Hdec Hparse.
    unfold tidyIssuerAssoc, tidyRevokedExpiry, tidyStoreCert. rewrite Hassoc.
    unfold_m.
    destruct (RevokedCerts config); cbn [andb].
    + destruct (time_Now env w1) as [w2 now] eqn:En. cbn [snd].
      destruct (Time_After now _) eqn:Ea; [exact I|].
      destruct (isRevInfoIssuerValid env revInfo1 issuerIDCertMap); cbn [negb].
      * cbn [world setWorld]. rewrite En, Ea. cbn. auto.
      * destruct (associateRevokedCertWithIsssuer env _ revokedCert issuerIDCertMap)
          as [ok ri] eqn:Eas.
        cbn [world setWorld tidyStatusIncMissingIssuerCertCount setStatus snd].
        destruct ok; rewrite En, Ea;
          destruct (StorageEntryJSON env _ ri) as [e|e]; cbn;
          try (destruct (storage_Put env e _) as [? [[]|?]]; reflexivity);
          (split; [reflexivity|eexists; reflexivity]).
    + destruct (isRevInfoIssuerValid env revInfo1 issuerIDCertMap); cbn [negb].
      * cbn. auto.
      * destruct (associateRevokedCertWithIsssuer env _ revokedCert issuerIDCertMap)
          as [ok ri] eqn:Eas.
        cbn [snd].
        destruct ok;
          destruct (StorageEntryJSON env _ ri) as [e|e]; cbn;
          try (destruct (storage_Put env e _) as [? [[]|?]]; reflexivity);
          (split; [reflexivity|eexists; reflexivity]).
Qed.

(** C5. With both the issuer-association flag and [tidy_revoked_certs]
    on, for an entry that is present, decodes, parses and is past
    [NotAfter + SafetyBuffer]: the issuer repair has been evaluated first
    (its count is already in the status that precedes the deletion
    count), and the iteration issues the delete of [revoked/<serial>],
    then of [certs/<serial>], and nothing else - no write-back of the
    record, whether the deletes succeed or fail. *)
Theorem expired_entry_not_rewritten config
    (issuerIDCertMap : gmap issuerID Certificate) (total i : nat)
    (serial : string) v b (revokedEntry : StorageEntry)
    (revInfo1 : revocationInfo) (revokedCert : Certificate) (w1 w2 : W)
    (now : Time)
    (Hassoc : IssuerAssocs config = true)
    (Hrev : RevokedCerts config = true)
    (Hget : storage_Get env ("revoked/" +:+ serial) (world b)
            = (w1, Ok (Some revokedEntry)))
    (Hval : Value revokedEntry <> [])
    (Hdec : DecodeJSON env (Value revokedEntry) (revInfo v) = Ok revInfo1)
    (Hparse : x509_ParseCertificate env (CertificateBytes revInfo1) = Ok revokedCert)
    (Hnow : time_Now env w1 = (w2, now))
    (Hexp : NotAfter revokedCert + SafetyBuffer config < now) :
  let b' := fst (tidyRevokedEntry env config issuerIDCertMap total i serial v b) in
  let r := snd (tidyRevokedEntry env config issuerIDCertMap total i serial v b) in
  let valid := isRevInfoIssuerValid env revInfo1 issuerIDCertMap in
  let assoc := associateRevokedCertWithIsssuer env (setIssuer EmptyString revInfo1)
                 revokedCert issuerIDCertMap in
  let rk := "revoked/" +:+ serial in
  let ck := "certs/" +:+ serial in
  missingIssuerCertCount (bTidyStatus b')
  = (if valid then missingIssuerCertCount (bTidyStatus b)
     else wrapUint64 (missingIssuerCertCount (bTidyStatus b) + 1))
  /\ match storage_Delete env rk w2 with
     | (w3, Err _) =>
         calls b' = calls b ++ [CallDelete rk] /\ exists text, r = Err text
     | (w3, Ok _) =>
         match storage_Delete env ck w3 with
         | (w4, Err _) =>
             calls b' = calls b ++ [CallDelete rk; CallDelete ck]
             /\ exists text, r = Err text
         | (w4, Ok _) =>
             calls b' = calls b ++ [CallDelete rk; CallDelete ck]
             /\ world b' = w4
             /\ r = Ok {| revInfo := if valid then revInfo1 else snd assoc;
                          rebuildCRL := true;
                          fixedIssuers :=
                            if valid then fixedIssuers v
                            else if fst assoc then wrapInt64 (fixedIssuers v + 1)
                                 else fixedIssuers v |}
             /\ revokedCertDeletedCount (bTidyStatus b')
                = wrapUint64 (revokedCertDeletedCount (bTidyStatus b) + 1)
             /\ exists prev rest,
                  statusLog b' = prev :: rest
                  /\ missingIssuerCertCount prev
                     = missingIssuerCertCount (bTidyStatus b')
                  /\ revokedCertDeletedCount prev
                     = revokedCertDeletedCount (bTidyStatus b)
         end
     end.
Proof.
  cbv zeta. apply Z.ltb_lt in Hexp.
  entry_start Hget Hdec Hparse.
  unfold tidyIssuerAssoc, tidyRevokedExpiry, tidyStoreCert.
  rewrite Hassoc, Hrev. unfold_m. unfold Time_After, Time_Add.
  destruct (isRevInfoIssuerValid env revInfo1 issuerIDCertMap); cbn [negb].
  - cbn [world setWorld]. rewrite Hnow, Hexp. cbn [world setWorld logCall].
    destruct (storage_Delete env _ w2) as [w3 [[]|e3]].
    + cbn [world setWorld logCall].
      destruct (storage_Delete env _ w3) as [w4 [[]|e4]]; cbn;
        rewrite <- app_assoc; cbn; eauto 10.
    + cbn. eauto.
  - destruct (associateRevokedCertWithIsssuer env _ revokedCert issuerIDCertMap)
      as [ok ri].
    cbn [world setWorld tidyStatusIncMissingIssuerCertCount setStatus fst snd].
    destruct ok; rewrite Hnow, Hexp; cbn [world setWorld logCall];
      (destruct (storage_Delete env _ w2) as [w3 [[]|e3]];
       [cbn [world setWorld logCall];
        destruct (storage_Delete env _ w3) as [w4 [[]|e4]]; cbn;
          rewrite <- app_assoc; cbn; eauto 10
       |cbn; eauto]).
Qed.

End RevokedEntry.

(** A record that names the unknown issuer A and carries a certificate
    signed by the key of subject 7, expired at second 10; the only known
    issuer, B, has subject 7.  With both flags on and the clock at
    second 20 it is deleted, and the repaired record is not written
    back. *)
Lemma expired_entry_not_rewritten_witness :
  let issuers : gmap issuerID Certificate :=
    {[ "B" := {| Raw := [x64; x00; x07]; NotAfter := 100 * Second |} ]} in
  let w := memWorld [("revoked/aa", [x41; x0a; x07; x02]);
                     ("certs/aa", [x0a; x07; x02])] (20 * Second)
             false issuers [] in
  let config := cfg false true true 5 in
  let entry := {| Key := "revoked/aa"; Value := [x41; x0a; x07; x02] |} in
  let revInfo1 := {| CertificateBytes := [x0a; x07; x02]; CertificateIssuer := "A" |} in
  let cert := {| Raw := [x0a; x07; x02]; NotAfter := 10 * Second |} in
  let b' := fst (tidyRevokedEntry memEnv config issuers 1 0 "aa" revLoopInit
                   (newBackend w)) in
  IssuerAssocs config = true
  /\ RevokedCerts config = true
  /\ Value entry <> []
  /\ DecodeJSON memEnv (Value entry) (revInfo revLoopInit) = Ok revInfo1
  /\ x509_ParseCertificate memEnv (CertificateBytes revInfo1) = Ok cert
  /\ NotAfter cert + SafetyBuffer config < 20 * Second
  /\ missingIssuerCertCount (bTidyStatus b') = 1
  /\ calls b' = [CallDelete "revoked/aa"; CallDelete "certs/aa"]
  /\ mStore (world b') = [].
Proof.
  intros issuers w config entry revInfo1 cert b'.
  assert (Hval : Value entry <> []) by discriminate.
  assert (Hexp : NotAfter cert + SafetyBuffer config < 20 * Second)
    by (vm_compute; reflexivity).
  do 6 (split; [first [assumption|reflexivity]|]).
  destruct (expired_entry_not_rewritten memEnv config issuers 1 0 "aa" revLoopInit
              (newBackend w) entry revInfo1 cert w w (20 * Second)
              eq_refl eq_refl eq_refl Hval eq_refl eq_refl eq_refl Hexp)
    as (Hm & Hd).
  split; [vm_compute in Hm; exact Hm|].
  vm_compute in Hd. destruct Hd as (Hc & Hw & _).
  split; [exact Hc|]. reflexivity.
Defined.

(** ** The background run *)

Section Run.

Context {W : Type} (env : Env W).

Implicit Types (b : backend W) (config : tidyConfig).

(** An error of the cert store pass ends [doTidy] at once, in the state
    the pass left; the revocation pass is not entered and the run stops
    in state [Error] with that error. *)
Lemma doTidy_cert_store_error config b b1 (e : error) :
  CertStore config = true ->
  doTidyCertStore env config b = (b1, Err e) ->
  doTidy env config b = (b1, Err e)
  /\ tidyRunBody env config b = tidyStatusStop env (Some e) b1.
Proof.
  intros Hc He. unfold tidyRunBody, doTidy, bind. rewrite Hc, He. auto.
Qed.

(** Whatever the revocation pass returns, [doTidy] returns nil after it. *)
Lemma doTidy_revocation_result_dropped config b :
  CertStore config = false -> snd (doTidy env config b) = Ok tt.
Proof.
  intros Hc. unfold doTidy, bind, ret. rewrite Hc.
  destruct (RevokedCerts config || IssuerAssocs config); [|reflexivity].
  destruct (doTidyRevocationStore env config b) as [b1 [[]|e]]; reflexivity.
Qed.

End Run.

(** C1 (the code departs from it). A run with only [tidy_revoked_certs]
    on, over a store whose entry [revoked/aa] cannot be read: the
    revocation pass returns an error, yet [doTidy] returns nil, the
    status tracker holds no error and the run ends in state [Finished]. *)
Theorem revocation_error_not_reported :
  let w := memWorld [("revoked/aa", [x41; x0a; x07; x02])] (20 * Second)
             false ∅ ["revoked/aa"] in
  let config := cfg false true false 5 in
  let b := tidyStatusStart memEnv config (newBackend w) in
  snd (doTidyRevocationStore memEnv config b)
    = Err ("unable to fetch revoked cert with serial " +:+ fmtQ "aa" +:+
           ": storage unavailable")
  /\ snd (doTidy memEnv config b) = Ok tt
  /\ state (bTidyStatus (tidyGoroutine memEnv config (newBackend w)))
     = tidyStatusFinished
  /\ err (bTidyStatus (tidyGoroutine memEnv config (newBackend w))) = None.
Proof.
  vm_compute. repeat split.
Qed.

(** C6 (the code departs from it). [revInfo] is declared once, before the
    loop, and every entry is decoded into it; a field that an entry does
    not carry keeps the value of the entry before.  The only known
    issuer is B.  Entry [bb] carries no issuer reference, so on its own
    its reference does not resolve: tidied alone, or ahead of [aa], it is
    counted once, re-associated and written back.  Listed after [aa],
    whose reference B is sound, it is examined with the reference of
    [aa]: the run counts no missing issuer, writes nothing and leaves
    [bb] as it was. *)
Theorem issuer_repair_missed_after_sound_entry :
  let issuers : gmap issuerID Certificate :=
    {[ "B" := {| Raw := [x64; x00; x07]; NotAfter := 100 * Second |} ]} in
  let aa := ("revoked/aa", [x42; x63; x07; x09]) in
  let bb := ("revoked/bb", [x00; x63; x07; x0a]) in
  let config := cfg false false true 5 in
  let run store := tidyGoroutine memEnv config
                     (newBackend (memWorld store (20 * Second) false issuers [])) in
  (exists revInfo1,
     DecodeJSON memEnv (snd bb) (revInfo revLoopInit) = Ok revInfo1
     /\ CertificateIssuer revInfo1 = EmptyString
     /\ isRevInfoIssuerValid memEnv revInfo1 issuers = false)
  /\ (missingIssuerCertCount (bTidyStatus (run [bb])) = 1
      /\ calls (run [bb])
         = [CallPut {| Key := "revoked/bb"; Value := [x42; x63; x07; x0a] |}])
  /\ (missingIssuerCertCount (bTidyStatus (run [bb; aa])) = 1
      /\ calls (run [bb; aa])
         = [CallPut {| Key := "revoked/bb"; Value := [x42; x63; x07; x0a] |}])
  /\ (missingIssuerCertCount (bTidyStatus (run [aa; bb])) = 0
      /\ calls (run [aa; bb]) = []
      /\ mStore (world (run [aa; bb])) = [aa; bb]
      /\ state (bTidyStatus (run [aa; bb])) = tidyStatusFinished).
Proof.
  cbv zeta. split.
  - eexists. split; [reflexivity|]. split; vm_compute; reflexivity.
  - vm_compute. repeat split.
Qed.

(** ** Revocation store tidier: the pass and the CRL rebuild *)

Section RevocationPass.

Context {W : Type} (env : Env W).

Implicit Types (b : backend W) (config : tidyConfig) (v : revLoopVars).

Lemma countRebuild_app (l1 l2 : list Call) :
  countRebuild (l1 ++ l2) = (countRebuild l1 + countRebuild l2)%nat.
Proof. unfold countRebuild. rewrite List.filter_app, length_app. reflexivity. Qed.

Lemma expiryDeletion_app (l1 l2 : list Call) :
  expiryDeletion (l1 ++ l2) = expiryDeletion l1 || expiryDeletion l2.
Proof. apply existsb_app. Qed.

Lemma revoked_key_not_certs (serial : string) :
  isCertsDelete (CallDelete ("revoked/" +:+ serial)) = false.
Proof. reflexivity. Qed.

Lemma certs_key_is_certs (serial : string) :
  isCertsDelete (CallDelete ("certs/" +:+ serial)) = true.
Proof. cbn. destruct serial; reflexivity. Qed.

(** What one iteration adds to the call log: no rebuild, and a delete
    under [certs/] exactly when it sets [rebuildCRL]. *)
Lemma tidyRevokedEntry_calls config (m : gmap issuerID Certificate)
    (total i : nat) (serial : string) v b :
  exists l,
    calls (fst (tidyRevokedEntry env config m total i serial v b)) = calls b ++ l
    /\ countRebuild l = 0%nat
    /\ forall v', snd (tidyRevokedEntry env config m total i serial v b) = Ok v' ->
         rebuildCRL v' = rebuildCRL v || expiryDeletion l.
Proof.
  pose proof (revoked_key_not_certs serial) as Hr.
  pose proof (certs_key_is_certs serial) as Hc.
  unfold tidyRevokedEntry, tidyIssuerAssoc, tidyRevokedExpiry, tidyStoreCert.
  unfold_m. cbn_state. split_matches;
    rewrite <- ?app_assoc;
    first
      [ solve [exists []; rewrite app_nil_r; repeat split;
               intros v' Hv; inversion Hv; subst; cbn;
               rewrite orb_false_r; reflexivity]
      | (eexists; split; [reflexivity|split; [reflexivity|]]);
        intros v' Hv; inversion Hv; subst; unfold expiryDeletion;
        cbn [existsb app rebuildCRL];
        rewrite ?Hr, ?Hc; cbn; rewrite ?orb_false_r, ?orb_true_r; reflexivity ].
Qed.

Lemma revokedLoop_calls config (m : gmap issuerID Certificate) (total : nat)
    (serials : list string) :
  forall (i : nat) v b,
  exists l,
    calls (fst (revokedLoop env config m total i serials v b)) = calls b ++ l
    /\ countRebuild l = 0%nat
    /\ forall v', snd (revokedLoop env config m total i serials v b) = Ok v' ->
         rebuildCRL v' = rebuildCRL v || expiryDeletion l.
Proof.
  induction serials as [|serial rest IH]; intros i v b.
  - exists []. cbn. rewrite app_nil_r. repeat split.
    intros v' Hv. inversion Hv. rewrite orb_false_r. reflexivity.
  - cbn [revokedLoop]. unfold bind.
    destruct (tidyRevokedEntry_calls config m total i serial v b)
      as (l1 & Hc1 & Hn1 & Hv1).
    destruct (tidyRevokedEntry env config m total i serial v b)
      as [b1 [v1|e]]; cbn [fst snd] in *.
    + destruct (IH (S i) v1 b1) as (l2 & Hc2 & Hn2 & Hv2).
      exists (l1 ++ l2). rewrite Hc2, Hc1, <- app_assoc.
      split; [reflexivity|]. split.
      * rewrite countRebuild_app, Hn1, Hn2. reflexivity.
      * intros v' Hv. rewrite (Hv2 v' Hv), (Hv1 v1 eq_refl).
        rewrite expiryDeletion_app, orb_assoc. reflexivity.
    + exists l1. split; [exact Hc1|]. split; [exact Hn1|].
      intros v' Hv. inversion Hv.
Qed.

(** C3 (as the code has it). Take a revocation pass whose issuer map,
    listing and scan succeed, and let [scan] be the calls the scan
    issued.  The scan itself never invokes the rebuild trigger.  After
    it the pass adds exactly one call, the non-forced rebuild, when the
    scan removed an expired revoked certificate (a delete under
    [certs/]) and the revocation configuration read then has automatic
    rebuilding off; it adds nothing when automatic rebuilding is on, when
    the configuration cannot be read, or when the scan removed no expired
    certificate - in particular when it only cleaned out nil or empty
    entries. *)
Theorem crl_rebuild_after_expiry_deletion config b
    (m : gmap issuerID Certificate) (serials : list string) (w1 w2 : W)
    (b1 : backend W) v
    (Hmap : fetchIssuerMapForRevocationChecking env (world b) = (w1, Ok m))
    (Hlist : storage_List env "revoked/" w1 = (w2, Ok serials))
    (Hscan : revokedLoop env config m (length serials) 0 serials revLoopInit
               (setWorld w2 b) = (b1, Ok v)) :
  let b' := fst (doTidyRevocationStore env config b) in
  let r := snd (doTidyRevocationStore env config b) in
  exists scan after,
    calls b1 = calls b ++ scan
    /\ calls b' = calls b ++ scan ++ after
    /\ countRebuild scan = 0%nat
    /\ rebuildCRL v = expiryDeletion scan
    /\ (if expiryDeletion scan then
          match getRevocationConfig env (world b1) with
          | (_, Ok c) =>
              if AutoRebuild c then after = [] /\ r = Ok tt
              else after = [CallRebuild false]
          | (_, Err e) => after = [] /\ r = Err e
          end
        else after = [] /\ r = Ok tt)
    /\ countRebuild (scan ++ after) = countRebuild after.
Proof.
  cbv zeta.
  destruct (revokedLoop_calls config m (length serials) serials 0%nat
              revLoopInit (setWorld w2 b)) as (scan & Hc & Hn & Hv).
  rewrite Hscan in Hc, Hv. cbn [fst snd calls setWorld] in Hc, Hv.
  specialize (Hv v eq_refl). cbn [rebuildCRL revLoopInit orb] in Hv.
  unfold doTidyRevocationStore, tidyRebuildCRL. unfold_m.
  rewrite Hmap. cbn [world setWorld]. rewrite Hlist.
  change (setWorld w2 (setWorld w1 b)) with (setWorld w2 b). rewrite Hscan.
  rewrite Hv.
  destruct (expiryDeletion scan) eqn:Eexp.
  - destruct (getRevocationConfig env (world b1)) as [w3 [c|e]] eqn:Ecfg;
      cbn_state.
    + destruct (AutoRebuild c) eqn:Eauto; cbn [negb].
      * exists scan, []. rewrite Eexp, ?Ecfg, ?Eauto, !app_nil_r. cbn. auto 10.
      * exists scan, [CallRebuild false]. rewrite Eexp, ?Ecfg, ?Eauto.
        cbn_state.
        destruct (crlBuilder_rebuild env false w3) as [w4 [[]|e]]; cbn_state;
          rewrite Hc, <- app_assoc, countRebuild_app, Hn; auto 10.
    + exists scan, []. rewrite Eexp, ?Ecfg, !app_nil_r. cbn. auto 10.
  - exists scan, []. rewrite Eexp, !app_nil_r. cbn. auto 10.
Qed.

End RevocationPass.

Lemma crl_rebuild_after_expiry_deletion_witness :
  let w := memWorld [("revoked/aa", [x41; x0a; x07; x02]);
                     ("revoked/bb", [])] (20 * Second) false ∅ [] in
  let config := cfg false true false 5 in
  let b := newBackend w in
  let b' := fst (doTidyRevocationStore memEnv config b) in
  fetchIssuerMapForRevocationChecking memEnv (world b) = (w, Ok ∅)
  /\ storage_List memEnv "revoked/" w = (w, Ok ["aa"; "bb"])
  /\ (exists b1 v,
        revokedLoop memEnv config ∅ 2 0 ["aa"; "bb"] revLoopInit (setWorld w b)
        = (b1, Ok v))
  /\ calls b' = [CallDelete "revoked/aa"; CallDelete "certs/aa";
                 CallDelete "revoked/bb"; CallRebuild false]
  /\ countRebuild (calls b') = 1%nat.
Proof.
  intros w config b b'.
  assert (Hmap : fetchIssuerMapForRevocationChecking memEnv (world b) = (w, Ok ∅))
    by reflexivity.
  assert (Hlist : storage_List memEnv "revoked/" w = (w, Ok ["aa"; "bb"]))
    by reflexivity.
  destruct (revokedLoop memEnv config ∅ 2 0 ["aa"; "bb"] revLoopInit (setWorld w b))
    as [b1 [v|e]] eqn:Hscan; [|vm_compute in Hscan; discriminate].
  split; [exact Hmap|]. split; [exact Hlist|].
  split; [exists b1, v; reflexivity|].
  destruct (crl_rebuild_after_expiry_deletion memEnv config b ∅ ["aa"; "bb"]
              w w b1 v Hmap Hlist Hscan)
    as (scan & after & Hc1 & Hc & Hn & Hv & Hafter & Hcount).
  vm_compute. split; reflexivity.
Defined.

(** C3, counterexample to the wording of the specification: a revoked
    entry is deleted (and counted) in a pass with automatic rebuilding
    off, and the rebuild trigger is not invoked. *)
Lemma crl_rebuild_skipped_for_empty_entry :
  let w := memWorld [("revoked/bb", [])] (20 * Second) false ∅ [] in
  let config := cfg false true false 5 in
  let b' := fst (doTidyRevocationStore memEnv config (newBackend w)) in
  snd (doTidyRevocationStore memEnv config (newBackend w)) = Ok tt
  /\ snd (getRevocationConfig memEnv (world b')) = Ok {| AutoRebuild := false |}
  /\ calls b' = [CallDelete "revoked/bb"]
  /\ mStore (world b') = []
  /\ revokedCertDeletedCount (bTidyStatus b') = 1
  /\ countRebuild (calls b') <> 1%nat
  /\ mRebuilds (world b') = 0%nat.
Proof.
  vm_compute. repeat split. discriminate.
Qed.

(** ** The run keeps the guard and advances the status history *)

Section Progress.

Context {W : Type} (env : Env W).

Implicit Types (b x : backend W) (config : tidyConfig).

Lemma wrapUint64_small (c : Z) : 0 <= c < 2 ^ 64 -> wrapUint64 c = c.
Proof. intros H. unfold wrapUint64. apply Z.mod_small. exact H. Qed.

Lemma adv_base (n1 n2 n3 : Z) b :
  0 <= n1 -> 0 <= n2 -> 0 <= n3 -> adv n1 n2 n3 b b.
Proof.
  intros H1 H2 H3. split; [reflexivity|]. split; [reflexivity|].
  intros Hs Hr.
  split; [exact Hs|]. split; [lia|]. split; [lia|]. split; [lia|].
  intros Hc; exact Hc.
Qed.

Lemma adv_trans (n1 n2 n3 m1 m2 m3 k1 k2 k3 : Z) b b1 b2 :
  adv n1 n2 n3 b b1 -> adv m1 m2 m3 b1 b2 ->
  0 <= m1 -> 0 <= m2 -> 0 <= m3 ->
  0 <= n1 -> 0 <= n2 -> 0 <= n3 ->
  n1 + m1 <= k1 -> n2 + m2 <= k2 -> n3 + m3 <= k3 ->
  adv k1 k2 k3 b b2.
Proof.
  intros [Hg1 [Hl1 H1]] [Hg2 [Hl2 H2]] ? ? ? ? ? ? ? ? ?.
  split; [congruence|]. split; [congruence|]. intros Hs Hr. unfold room in *.
  destruct H1 as (Hs1 & Hc1 & Hr1 & Hm1 & Hch1); [exact Hs|lia|].
  destruct H2 as (Hs2 & Hc2 & Hr2 & Hm2 & Hch2); [exact Hs1|lia|].
  split; [exact Hs2|]. split; [lia|]. split; [lia|]. split; [lia|].
  intros Hc. apply Hch2, Hch1, Hc.
Qed.

Lemma adv_setWorld (n1 n2 n3 : Z) b x (w : W) :
  adv n1 n2 n3 b x -> adv n1 n2 n3 b (setWorld w x).
Proof. intros H. exact H. Qed.

Lemma adv_logCall (n1 n2 n3 : Z) b x (c : Call) :
  adv n1 n2 n3 b x -> adv n1 n2 n3 b (logCall c x).
Proof. intros H. exact H. Qed.

(** A status write that keeps the state and does not lower a counter
    extends a well-formed history of a running tidy. *)
Lemma statusChain_progress x (s' : tidyStatus) :
  state (bTidyStatus x) = tidyStatusStarted ->
  state s' = tidyStatusStarted ->
  countersLe (bTidyStatus x) s' ->
  statusChain (fullLog x) -> statusChain (fullLog (setStatus s' x)).
Proof.
  intros Hs Hs' Hle Hc. cbn. split; [|exact Hc].
  right. left. auto.
Qed.

Lemma adv_message (n1 n2 n3 : Z) b x (msg : string) :
  adv n1 n2 n3 b x -> adv n1 n2 n3 b (tidyStatusMessage msg x).
Proof.
  intros [Hg [Hl H]]. split; [exact Hg|]. split; [exact Hl|]. intros Hs Hr.
  destruct (H Hs Hr) as (Hs1 & Hc1 & Hr1 & Hm1 & Hch1).
  split; [exact Hs1|]. split; [exact Hc1|]. split; [exact Hr1|].
  split; [exact Hm1|].
  intros Hc. apply statusChain_progress; auto.
  unfold countersLe; cbn; lia.
Qed.

Lemma adv_incCert (n1 n2 n3 : Z) b x :
  adv (n1 - 1) n2 n3 b x -> adv n1 n2 n3 b (tidyStatusIncCertStoreCount x).
Proof.
  intros [Hg [Hl H]]. split; [exact Hg|]. split; [exact Hl|]. intros Hs Hr. unfold room in *.
  destruct H as (Hs1 & Hc1 & Hr1 & Hm1 & Hch1); [exact Hs|lia|].
  assert (Hw : wrapUint64 (certStoreDeletedCount (bTidyStatus x) + 1)
               = certStoreDeletedCount (bTidyStatus x) + 1)
    by (apply wrapUint64_small; lia).
  split; [exact Hs1|].
  cbn [tidyStatusIncCertStoreCount tidyStatusIncRevokedCertCount
       tidyStatusIncMissingIssuerCertCount setStatus bTidyStatus
       certStoreDeletedCount revokedCertDeletedCount missingIssuerCertCount
       state]. rewrite Hw.
  split; [lia|]. split; [lia|]. split; [lia|].
  intros Hc. apply (statusChain_progress x); auto.
  unfold countersLe;
  cbn [tidyStatusIncCertStoreCount tidyStatusIncRevokedCertCount
       tidyStatusIncMissingIssuerCertCount setStatus bTidyStatus
       certStoreDeletedCount revokedCertDeletedCount missingIssuerCertCount
       state]; rewrite Hw; lia.
Qed.

Lemma adv_incRevoked (n1 n2 n3 : Z) b x :
  adv n1 (n2 - 1) n3 b x -> adv n1 n2 n3 b (tidyStatusIncRevokedCertCount x).
Proof.
  intros [Hg [Hl H]]. split; [exact Hg|]. split; [exact Hl|]. intros Hs Hr. unfold room in *.
  destruct H as (Hs1 & Hc1 & Hr1 & Hm1 & Hch1); [exact Hs|lia|].
  assert (Hw : wrapUint64 (revokedCertDeletedCount (bTidyStatus x) + 1)
               = revokedCertDeletedCount (bTidyStatus x) + 1)
    by (apply wrapUint64_small; lia).
  split; [exact Hs1|].
  cbn [tidyStatusIncCertStoreCount tidyStatusIncRevokedCertCount
       tidyStatusIncMissingIssuerCertCount setStatus bTidyStatus
       certStoreDeletedCount revokedCertDeletedCount missingIssuerCertCount
       state]. rewrite Hw.
  split; [lia|]. split; [lia|]. split; [lia|].
  intros Hc. apply (statusChain_progress x); auto.
  unfold countersLe;
  cbn [tidyStatusIncCertStoreCount tidyStatusIncRevokedCertCount
       tidyStatusIncMissingIssuerCertCount setStatus bTidyStatus
       certStoreDeletedCount revokedCertDeletedCount missingIssuerCertCount
       state]; rewrite Hw; lia.
Qed.

Lemma adv_incMissing (n1 n2 n3 : Z) b x :
  adv n1 n2 (n3 - 1) b x -> adv n1 n2 n3 b (tidyStatusIncMissingIssuerCertCount x).
Proof.
  intros [Hg [Hl H]]. split; [exact Hg|]. split; [exact Hl|]. intros Hs Hr. unfold room in *.
  destruct H as (Hs1 & Hc1 & Hr1 & Hm1 & Hch1); [exact Hs|lia|].
  assert (Hw : wrapUint64 (missingIssuerCertCount (bTidyStatus x) + 1)
               = missingIssuerCertCount (bTidyStatus x) + 1)
    by (apply wrapUint64_small; lia).
  split; [exact Hs1|].
  cbn [tidyStatusIncCertStoreCount tidyStatusIncRevokedCertCount
       tidyStatusIncMissingIssuerCertCount setStatus bTidyStatus
       certStoreDeletedCount revokedCertDeletedCount missingIssuerCertCount
       state]. rewrite Hw.
  split; [lia|]. split; [lia|]. split; [lia|].
  intros Hc. apply (statusChain_progress x); auto.
  unfold countersLe;
  cbn [tidyStatusIncCertStoreCount tidyStatusIncRevokedCertCount
       tidyStatusIncMissingIssuerCertCount setStatus bTidyStatus
       certStoreDeletedCount revokedCertDeletedCount missingIssuerCertCount
       state]; rewrite Hw; lia.
Qed.

Ltac adv_peel :=
  cbn [fst snd];
  repeat first
    [ apply adv_setWorld | apply adv_logCall | apply adv_message
    | apply adv_incCert | apply adv_incRevoked | apply adv_incMissing ];
  apply adv_base; lia.

Lemma tidyCertStoreEntry_adv config (serialCount i : nat) (serial : string) b :
  adv 1 0 0 b (fst (tidyCertStoreEntry env config serialCount i serial b)).
Proof.
  unfold tidyCertStoreEntry. unfold_m.
  repeat (split_scrutinee; cbn [fst snd negb]); adv_peel.
Qed.

Lemma tidyRevokedEntry_adv config (m : gmap issuerID Certificate)
    (total i : nat) (serial : string) (v : revLoopVars) b :
  adv 0 1 1 b (fst (tidyRevokedEntry env config m total i serial v b)).
Proof.
  unfold tidyRevokedEntry, tidyIssuerAssoc, tidyRevokedExpiry, tidyStoreCert.
  unfold_m.
  repeat (split_scrutinee; cbn [fst snd negb]); adv_peel.
Qed.

Lemma certStoreLoop_adv config (serialCount : nat) (serials : list string) :
  forall (i : nat) b,
    adv (Z.of_nat (length serials)) 0 0 b
      (fst (certStoreLoop env config serialCount i serials b)).
Proof.
  induction serials as [|serial rest IH]; intros i b.
  - apply adv_base; cbn; lia.
  - cbn [certStoreLoop]. unfold bind.
    pose proof (tidyCertStoreEntry_adv config serialCount i serial b) as He.
    destruct (tidyCertStoreEntry env config serialCount i serial b)
      as [b1 [[]|e]]; cbn [fst] in *.
    + eapply adv_trans; [exact He|apply (IH (S i) b1)|..];
        cbn [length]; lia.
    + eapply adv_trans; [exact He|apply (adv_base 0 0 0)|..];
        cbn [length]; lia.
Qed.

Lemma revokedLoop_adv config (m : gmap issuerID Certificate) (total : nat)
    (serials : list string) :
  forall (i : nat) (v : revLoopVars) b,
    adv 0 (Z.of_nat (length serials)) (Z.of_nat (length serials)) b
      (fst (revokedLoop env config m total i serials v b)).
Proof.
  induction serials as [|serial rest IH]; intros i v b.
  - apply adv_base; cbn; lia.
  - cbn [revokedLoop]. unfold bind.
    pose proof (tidyRevokedEntry_adv config m total i serial v b) as He.
    destruct (tidyRevokedEntry env config m total i serial v b)
      as [b1 [v1|e]]; cbn [fst] in *.
    + eapply adv_trans; [exact He|apply (IH (S i) v1 b1)|..];
        cbn [length]; lia.
    + eapply adv_trans; [exact He|apply (adv_base 0 0 0)|..];
        cbn [length]; lia.
Qed.

Lemma doTidyCertStore_adv config b :
  exists n, 0 <= n /\ (listingsFit env -> n < 2 ^ 63)
            /\ adv n 0 0 b (fst (doTidyCertStore env config b)).
Proof.
  unfold doTidyCertStore. unfold_m.
  pose proof (fun H : listingsFit env => H "certs/" (world b)) as Hfit.
  destruct (storage_List env "certs/" (world b)) as [w [l|e]]; cbn [fst snd] in *.
  - exists (Z.of_nat (length l)). split; [lia|]. split; [exact Hfit|].
    eapply adv_trans;
      [apply (adv_setWorld 0 0 0 b b w), adv_base; lia
      |apply certStoreLoop_adv|..]; lia.
  - exists 0. split; [lia|]. split; [lia|]. apply adv_setWorld, adv_base; lia.
Qed.

Lemma tidyRebuildCRL_adv (flag : bool) b :
  adv 0 0 0 b (fst (tidyRebuildCRL env flag b)).
Proof.
  unfold tidyRebuildCRL. unfold_m.
  destruct flag; [|apply adv_base; lia].
  repeat (split_scrutinee; cbn [fst snd negb]);
    cbn [fst snd];
    repeat first [apply adv_setWorld | apply adv_logCall];
    apply adv_base; lia.
Qed.

Lemma doTidyRevocationStore_adv config b :
  exists n, 0 <= n /\ (listingsFit env -> n < 2 ^ 63)
            /\ adv 0 n n b (fst (doTidyRevocationStore env config b)).
Proof.
  unfold doTidyRevocationStore. unfold_m.
  destruct (fetchIssuerMapForRevocationChecking env (world b)) as [w0 [m|e]];
    cbn [fst snd world setWorld].
  2: { exists 0. split; [lia|]. split; [lia|]. apply adv_setWorld, adv_base; lia. }
  pose proof (fun H : listingsFit env => H "revoked/" w0) as Hfit.
  destruct (storage_List env "revoked/" w0) as [w [l|e]]; cbn [fst snd] in *.
  2: { exists 0. split; [lia|]. split; [lia|].
       apply adv_setWorld, adv_setWorld, adv_base; lia. }
  exists (Z.of_nat (length l)). split; [lia|]. split; [exact Hfit|].
  pose proof (revokedLoop_adv config m (length l) l 0%nat revLoopInit
                (setWorld w (setWorld w0 b))) as Hl.
  assert (H0 : adv 0 0 0 b (setWorld w (setWorld w0 b)))
    by (apply adv_setWorld, adv_setWorld, adv_base; lia).
  destruct (revokedLoop env config m (length l) 0 l revLoopInit
              (setWorld w (setWorld w0 b))) as [b1 [v|e]]; cbn [fst] in *.
  - assert (H1 : adv 0 (Z.of_nat (length l)) (Z.of_nat (length l)) b b1)
      by (eapply adv_trans; [exact H0|exact Hl|..]; lia).
    eapply adv_trans; [exact H1|apply tidyRebuildCRL_adv|..]; lia.
  - eapply adv_trans; [exact H0|exact Hl|..]; lia.
Qed.

Lemma doTidy_adv config b :
  exists n1 n2, 0 <= n1 /\ 0 <= n2
    /\ (listingsFit env -> n1 < 2 ^ 63 /\ n2 < 2 ^ 63)
    /\ adv n1 n2 n2 b (fst (doTidy env config b)).
Proof.
  unfold doTidy, bind, ret.
  assert (H1 : exists n b1 r, 0 <= n /\ (listingsFit env -> n < 2 ^ 63)
                /\ adv n 0 0 b b1
                /\ (if CertStore config then doTidyCertStore env config
                    else fun b0 => (b0, Ok tt)) b = (b1, r)).
  { destruct (CertStore config).
    - destruct (doTidyCertStore_adv config b) as (n & Hn & Hf & Ha).
      destruct (doTidyCertStore env config b) as [b1 r].
      exists n, b1, r. auto.
    - exists 0, b, (Ok tt). split; [lia|]. split; [lia|].
      split; [apply adv_base; lia|reflexivity]. }
  destruct H1 as (n1 & b1 & r & Hn1 & Hf1 & Ha1 & ->).
  destruct r as [[]|e].
  - destruct (RevokedCerts config || IssuerAssocs config).
    + destruct (doTidyRevocationStore_adv config b1) as (n2 & Hn2 & Hf2 & Ha2).
      exists n1, n2. split; [lia|]. split; [lia|]. split; [auto|].
      destruct (doTidyRevocationStore env config b1) as [b2 [[]|e]];
        cbn [fst] in *;
        (eapply adv_trans; [exact Ha1|exact Ha2|..]; lia).
    + exists n1, 0. split; [lia|]. split; [lia|].
      split; [intros H; split; [auto|lia]|].
      cbn [fst]. eapply adv_trans; [exact Ha1|apply (adv_base 0 0 0)|..]; lia.
  - exists n1, 0. split; [lia|]. split; [lia|].
    split; [intros H; split; [auto|lia]|].
    cbn [fst]. eapply adv_trans; [exact Ha1|apply (adv_base 0 0 0)|..]; lia.
Qed.

(** [tidyStatusStart]: guard untouched; from a state that is not
    [Started] the history is extended by the start of a run. *)
Lemma tidyStatusStart_step config b :
  tidyCASGuard (tidyStatusStart env config b) = tidyCASGuard b
  /\ last (fullLog (tidyStatusStart env config b)) = last (fullLog b)
  /\ state (bTidyStatus (tidyStatusStart env config b)) = tidyStatusStarted
  /\ countersZero (bTidyStatus (tidyStatusStart env config b))
  /\ (state (bTidyStatus b) <> tidyStatusStarted ->
      statusChain (fullLog b) ->
      statusChain (fullLog (tidyStatusStart env config b))).
Proof.
  unfold tidyStatusStart. destruct (time_Now env (world b)) as [w now].
  split; [reflexivity|]. split; [reflexivity|]. split; [reflexivity|].
  split; [unfold countersZero; cbn; auto|].
  intros Hs Hc. cbn. split; [|exact Hc].
  left. unfold countersZero. cbn. auto.
Qed.

(** [tidyStatusStop]: guard untouched; from state [Started] the history
    is extended by the stop of the run. *)
Lemma tidyStatusStop_step (e : option error) b :
  tidyCASGuard (tidyStatusStop env e b) = tidyCASGuard b
  /\ last (fullLog (tidyStatusStop env e b)) = last (fullLog b)
  /\ state (bTidyStatus (tidyStatusStop env e b)) <> tidyStatusStarted
  /\ (state (bTidyStatus b) = tidyStatusStarted ->
      statusChain (fullLog b) ->
      statusChain (fullLog (tidyStatusStop env e b))).
Proof.
  unfold tidyStatusStop. destruct (time_Now env (world b)) as [w now].
  cbn. split; [reflexivity|]. split; [reflexivity|].
  split; [destruct e; discriminate|].
  intros Hs Hc. split; [|exact Hc].
  right. right. cbn. unfold countersEq. cbn.
  split; [exact Hs|]. split; [destruct e; auto|auto].
Qed.

(** The body of the run, from a fresh [Started] status. *)
Lemma tidyRunBody_step config b :
  tidyCASGuard (tidyRunBody env config b) = tidyCASGuard b
  /\ last (fullLog (tidyRunBody env config b)) = last (fullLog b)
  /\ state (bTidyStatus (tidyRunBody env config b)) <> tidyStatusStarted
  /\ (listingsFit env ->
      state (bTidyStatus b) = tidyStatusStarted ->
      countersZero (bTidyStatus b) ->
      statusChain (fullLog b) ->
      statusChain (fullLog (tidyRunBody env config b))).
Proof.
  unfold tidyRunBody.
  destruct (doTidy_adv config b) as (n1 & n2 & Hn1 & Hn2 & Hf & Hg & Hl & Ha).
  assert (Hgoal : forall (e : option error) b1,
            b1 = fst (doTidy env config b) ->
            tidyCASGuard (tidyStatusStop env e b1) = tidyCASGuard b
            /\ last (fullLog (tidyStatusStop env e b1)) = last (fullLog b)
            /\ state (bTidyStatus (tidyStatusStop env e b1)) <> tidyStatusStarted
            /\ (listingsFit env ->
                state (bTidyStatus b) = tidyStatusStarted ->
                countersZero (bTidyStatus b) ->
                statusChain (fullLog b) ->
                statusChain (fullLog (tidyStatusStop env e b1)))).
  { intros e b1 ->.
    destruct (tidyStatusStop_step e (fst (doTidy env config b)))
      as (Hg' & Hl' & Hs' & Hc').
    split; [congruence|]. split; [congruence|]. split; [exact Hs'|].
    intros Hfit Hs (Hz1 & Hz2 & Hz3) Hc.
    destruct (Hf Hfit) as [Hb1 Hb2].
    destruct Ha as (Hs1 & _ & _ & _ & Hch); [exact Hs| |auto].
    unfold room. rewrite Hz1, Hz2, Hz3. lia. }
  destruct (doTidy env config b) as [b1 [[]|e]]; apply Hgoal; reflexivity.
Qed.

End Progress.

(** ** The run guard and the status state machine *)

Section Guard.

Context {W : Type} (env : Env W).

Implicit Types (b : backend W) (s : System (W:=W)) (config : tidyConfig).

Lemma pathTidyWrite_busy (d : FieldData) s :
  validRequest d -> tidyCASGuard (sysBackend s) <> 0 ->
  pathTidyWrite d s = (s, busyResponse).
Proof.
  intros Hd Hg. unfold pathTidyWrite, CompareAndSwapUint32, validRequest in *.
  destruct (safety_buffer d <? 1) eqn:E; [apply Z.ltb_lt in E; lia|].
  destruct (tidyCASGuard (sysBackend s) =? 0) eqn:E0;
    [apply Z.eqb_eq in E0; contradiction|reflexivity].
Qed.

Lemma pathTidyWrite_idle (d : FieldData) s :
  validRequest d -> tidyCASGuard (sysBackend s) = 0 ->
  exists config r,
    pathTidyWrite d s
    = ({| sysBackend := setGuard 1 (sysBackend s);
          sysGoroutines := sysGoroutines s ++
                           [{| goConfig := config; goAt := GoSpawned |}] |}, r)
    /\ isAccepted r = true.
Proof.
  intros Hd Hg. unfold pathTidyWrite, CompareAndSwapUint32, validRequest in *.
  destruct (safety_buffer d <? 1) eqn:E; [apply Z.ltb_lt in E; lia|].
  rewrite Hg. cbn [Z.eqb negb startTidyOperation sysBackend sysGoroutines].
  eexists. eexists. split; [reflexivity|].
  destruct (negb (tidy_cert_store d) &&
            negb (tidy_revoked_certs d || tidy_revocation_list d) &&
            negb (tidy_revoked_cert_issuer_associations d)); reflexivity.
Qed.

Lemma pathTidyWrite_guardInv (d : FieldData) s :
  guardInv s -> guardInv (fst (pathTidyWrite d s)).
Proof.
  intros Hinv. unfold pathTidyWrite, CompareAndSwapUint32.
  destruct (safety_buffer d <? 1); [exact Hinv|].
  destruct Hinv as [[Hg Hz]|(g & Hg & Hz)]; rewrite Hz; cbn.
  - right. rewrite Hg. eexists. split; reflexivity.
  - right. exists g. auto.
Qed.

Lemma goStep_guard (g : goroutine) b :
  tidyCASGuard (fst (goStep env g b))
  = match goAt g with GoStopped => 0 | _ => tidyCASGuard b end.
Proof.
  unfold goStep. destruct (goAt g); cbn [fst].
  - apply tidyStatusStart_step.
  - apply tidyRunBody_step.
  - reflexivity.
Qed.

Lemma sysStep_guardInv (e : Event) s :
  guardInv s -> guardInv (fst (sysStep env e s)).
Proof.
  intros Hinv. destruct e as [d|i]; cbn [sysStep].
  - pose proof (pathTidyWrite_guardInv d s Hinv) as H.
    destruct (pathTidyWrite d s). exact H.
  - destruct Hinv as [[Hg Hz]|(g & Hg & Hz)]; rewrite Hg.
    + cbn. left. auto.
    + destruct i as [|i]; cbn [lookup list_lookup];
        [|right; exists g; auto].
      pose proof (goStep_guard g (sysBackend s)) as Hgs.
      unfold goStep in *.
      destruct (goAt g); cbn [fst snd sysBackend sysGoroutines] in *.
      * right. eexists. split; [reflexivity|]. cbn [sysBackend]. congruence.
      * right. eexists. split; [reflexivity|]. cbn [sysBackend]. congruence.
      * left. split; [reflexivity|exact Hgs].
Qed.

Lemma newSystem_guardInv (w : W) : guardInv (newSystem w).
Proof. left. split; reflexivity. Qed.

Lemma sysRun_guardInv (es : list Event) :
  forall s, guardInv s -> guardInv (fst (sysRun env es s)).
Proof.
  induction es as [|e es IH]; intros s Hinv; cbn [sysRun]; [exact Hinv|].
  pose proof (sysStep_guardInv e s Hinv) as H1.
  destruct (sysStep env e s) as [s1 r1]. cbn [fst] in H1.
  specialize (IH s1 H1). destruct (sysRun env es s1) as [s2 r2]. exact IH.
Qed.

(** Requests that meet a held guard are all turned away, and change
    nothing. *)
Lemma sysRun_writes_busy (ds : list FieldData) s :
  Forall validRequest ds -> tidyCASGuard (sysBackend s) <> 0 ->
  sysRun env (map EvWrite ds) s = (s, map (fun _ => busyResponse) ds).
Proof.
  intros Hds Hg. induction Hds as [|d ds Hd Hds IH]; [reflexivity|].
  cbn [map sysRun sysStep]. rewrite (pathTidyWrite_busy d s Hd Hg), IH.
  reflexivity.
Qed.

(** C2. In every state the system reaches from start-up, by whatever
    interleaving of tidy requests and scheduling steps of the run's
    goroutine, at most one run exists, and the guard is 1 exactly when
    one does.  While one exists, a valid start request - and every one of
    a batch of them - gets the warning that a tidy is already in
    progress, which is not an error response, and changes nothing.  From
    an idle state, of the valid requests that arrive together exactly the
    first to reach the compare-and-swap is accepted and starts the one
    run; all others get the warning.  The goroutine ends by storing 0 in
    the guard, whatever the passes returned. *)
Theorem tidy_guard_single_flight (w : W) (es : list Event) (d : FieldData)
    (ds : list FieldData) config b
    (Hd : validRequest d) (Hds : Forall validRequest ds) :
  let s := fst (sysRun env es (newSystem w)) in
  (length (sysGoroutines s) <= 1)%nat
  /\ tidyCASGuard (sysBackend s) = Z.of_nat (length (sysGoroutines s))
  /\ match sysGoroutines s with
     | _ :: _ =>
         pathTidyWrite d s = (s, busyResponse)
         /\ sysRun env (map EvWrite (d :: ds)) s
            = (s, map (fun _ => busyResponse) (d :: ds))
     | [] =>
         exists r0,
           snd (sysRun env (map EvWrite (d :: ds)) s)
           = r0 :: map (fun _ => busyResponse) ds
           /\ isAccepted r0 = true
           /\ length (sysGoroutines (fst (sysRun env (map EvWrite (d :: ds)) s)))
              = 1%nat
     end
  /\ isAccepted busyResponse = false
  /\ (forall text, busyResponse <> ErrorResponse text)
  /\ tidyCASGuard (tidyGoroutine env config b) = 0
  /\ goStep env {| goConfig := config; goAt := GoStopped |} b
     = (setGuard 0 b, None).
Proof.
  intros s.
  pose proof (sysRun_guardInv es (newSystem w) (newSystem_guardInv w)) as Hinv.
  fold s in Hinv.
  assert (Hcases :
    (length (sysGoroutines s) <= 1)%nat
    /\ tidyCASGuard (sysBackend s) = Z.of_nat (length (sysGoroutines s))
    /\ match sysGoroutines s with
       | _ :: _ =>
           pathTidyWrite d s = (s, busyResponse)
           /\ sysRun env (map EvWrite (d :: ds)) s
              = (s, map (fun _ => busyResponse) (d :: ds))
       | [] =>
           exists r0,
             snd (sysRun env (map EvWrite (d :: ds)) s)
             = r0 :: map (fun _ => busyResponse) ds
             /\ isAccepted r0 = true
             /\ length (sysGoroutines (fst (sysRun env (map EvWrite (d :: ds)) s)))
                = 1%nat
       end).
  { destruct Hinv as [[Hg Hz]|(g & Hg & Hz)]; rewrite Hg, Hz.
    - split; [cbn; lia|]. split; [reflexivity|].
      destruct (pathTidyWrite_idle d s Hd Hz) as (cfg0 & r0 & Hw & Hacc).
      exists r0. cbn [map sysRun sysStep]. rewrite Hw.
      rewrite sysRun_writes_busy; [|exact Hds|cbn; lia].
      cbn [fst snd app sysGoroutines]. rewrite Hg.
      split; [reflexivity|]. split; [exact Hacc|reflexivity].
    - split; [cbn; lia|]. split; [reflexivity|].
      assert (Hne : tidyCASGuard (sysBackend s) <> 0) by lia.
      split; [exact (pathTidyWrite_busy d s Hd Hne)|].
      apply sysRun_writes_busy; [constructor; assumption|exact Hne]. }
  destruct Hcases as (H1 & H2 & H3).
  split; [exact H1|]. split; [exact H2|]. split; [exact H3|].
  split; [reflexivity|]. split; [discriminate|]. split; reflexivity.
Qed.

End Guard.

(** Three requests race at an idle system while nothing else happens;
    then the goroutine is scheduled through its three segments. *)
Lemma tidy_guard_single_flight_witness :
  let w := memWorld [("certs/aa", [x0a; x01; x02])] (20 * Second) false ∅ [] in
  let d := {| safety_buffer := 5; tidy_cert_store := true;
              tidy_revoked_certs := false; tidy_revocation_list := false;
              tidy_revoked_cert_issuer_associations := false |} in
  let run := sysRun memEnv (map EvWrite [d; d; d]) (newSystem w) in
  validRequest d
  /\ Forall validRequest [d; d]
  /\ List.map isAccepted (snd run) = [true; false; false]
  /\ length (sysGoroutines (fst run)) = 1%nat
  /\ tidyCASGuard (sysBackend (fst run)) = 1
  /\ tidyCASGuard
       (sysBackend
          (fst (sysRun memEnv [EvGo 0; EvGo 0; EvGo 0] (fst run)))) = 0.
Proof.
  intros w d run.
  assert (Hd : validRequest d) by (unfold validRequest; cbn; lia).
  assert (Hds : Forall validRequest [d; d]) by (repeat constructor; exact Hd).
  split; [exact Hd|]. split; [exact Hds|].
  destruct (tidy_guard_single_flight memEnv w [] d [d; d]
              (cfg true false false 5) (newBackend w) Hd Hds)
    as (_ & _ & H3 & _).
  cbn [sysRun fst newSystem sysGoroutines] in H3.
  destruct H3 as (r0 & Hrs & Hacc & Hlen).
  fold run in Hrs, Hlen.
  split; [rewrite Hrs; cbn [List.map]; rewrite Hacc; reflexivity|].
  split; [exact Hlen|].
  split; vm_compute; reflexivity.
Defined.

Section StatusMachine.

Context {W : Type} (env : Env W).

Implicit Types (b : backend W) (s : System (W:=W)) (config : tidyConfig).

Hypothesis Hfit : listingsFit env.

Lemma pathTidyWrite_statusInv (d : FieldData) s :
  guardInv s -> statusInv s -> statusInv (fst (pathTidyWrite d s)).
Proof.
  intros Hg Hs. unfold pathTidyWrite, CompareAndSwapUint32.
  destruct (safety_buffer d <? 1); [exact Hs|].
  destruct Hg as [[Hg Hz]|(g & Hg & Hz)]; rewrite Hz; cbn; [|exact Hs].
  destruct Hs as (Hc & Hl & Hp). rewrite Hg in Hp.
  split; [exact Hc|]. split; [exact Hl|]. rewrite Hg. exact Hp.
Qed.

Lemma sysStep_statusInv (e : Event) s :
  guardInv s -> statusInv s -> statusInv (fst (sysStep env e s)).
Proof.
  intros Hg Hs. destruct e as [d|i]; cbn [sysStep].
  - pose proof (pathTidyWrite_statusInv d s Hg Hs) as H.
    destruct (pathTidyWrite d s). exact H.
  - destruct Hg as [[Hg Hz]|(g & Hg & Hz)].
    + rewrite Hg. exact Hs.
    + destruct Hs as (Hc & Hl & Hp). rewrite Hg in Hp. rewrite Hg.
      destruct i as [|i]; cbn [lookup list_lookup];
        [|destruct i; cbn [lookup list_lookup fst]; (split; [exact Hc|]);
          (split; [exact Hl|]); rewrite Hg; exact Hp].
      unfold goStep, phaseInv in *.
      destruct (goAt g); cbn [fst snd].
      * destruct (tidyStatusStart_step env (goConfig g) (sysBackend s))
          as (_ & Hl' & Hst & Hz' & Hch).
        split; [apply Hch; assumption|]. split; [cbn [sysBackend]; congruence|].
        cbn. unfold phaseInv. cbn. auto.
      * destruct Hp as [Hst Hz0].
        destruct (tidyRunBody_step env (goConfig g) (sysBackend s))
          as (_ & Hl' & Hst' & Hch).
        split; [apply Hch; assumption|]. split; [cbn [sysBackend]; congruence|].
        cbn. unfold phaseInv. cbn. exact Hst'.
      * split; [exact Hc|]. split; [exact Hl|]. cbn. exact Hp.
Qed.

Lemma sysRun_statusInv (es : list Event) :
  forall s, guardInv s -> statusInv s ->
            statusInv (fst (sysRun env es s)).
Proof.
  induction es as [|e es IH]; intros s Hg Hs; cbn [sysRun]; [exact Hs|].
  pose proof (sysStep_guardInv env e s Hg) as Hg1.
  pose proof (sysStep_statusInv e s Hg Hs) as Hs1.
  destruct (sysStep env e s) as [s1 r1]. cbn [fst] in *.
  specialize (IH s1 Hg1 Hs1). destruct (sysRun env es s1) as [s2 r2]. exact IH.
Qed.

(** In a well-formed history only the oldest entry can be [Inactive]. *)
Lemma statusChain_not_inactive (l : list tidyStatus) :
  statusChain l ->
  forall (i : nat) (st : tidyStatus),
    l !! i = Some st -> (S i < length l)%nat ->
    state st <> tidyStatusInactive.
Proof.
  induction l as [|s' tl IH]; intros Hc i st Hi Hlt; [discriminate|].
  destruct Hc as [Hstep Hc]. destruct i as [|i].
  - cbn in Hi. inversion Hi; subst st.
    destruct tl as [|s0 tl']; [cbn in Hlt; lia|].
    destruct Hstep as [(_ & H & _)|[(_ & H & _)|(_ & [H|H] & _)]];
      rewrite H; discriminate.
  - cbn in Hi, Hlt. apply (IH Hc i st Hi). lia.
Qed.

(** C8. In every state the system reaches from start-up, the history of
    the status tracker begins with the [Inactive] status of a fresh
    process, no later entry is [Inactive], and each entry follows its
    predecessor by a permitted step: the start of a run, from a state
    other than [Started] into [Started] with the three counters at zero;
    progress of the run, staying [Started] with no counter decreasing; or
    the stop of the run, from [Started] into [Finished] or [Error] with
    the counters unchanged. *)
Theorem status_history_well_formed (w : W) (es : list Event) :
  let b := sysBackend (fst (sysRun env es (newSystem w))) in
  statusChain (fullLog b)
  /\ last (fullLog b) = Some zeroStatus
  /\ state zeroStatus = tidyStatusInactive
  /\ forall (i : nat) (st : tidyStatus),
       fullLog b !! i = Some st -> (S i < length (fullLog b))%nat ->
       state st <> tidyStatusInactive.
Proof.
  intros b.
  assert (H0 : statusInv (newSystem w)).
  { split; [cbn; auto|]. split; [reflexivity|]. cbn. discriminate. }
  destruct (sysRun_statusInv es (newSystem w) (newSystem_guardInv w) H0)
    as (Hc & Hl & _).
  split; [exact Hc|]. split; [exact Hl|]. split; [reflexivity|].
  apply statusChain_not_inactive. exact Hc.
Qed.

End StatusMachine.

Lemma memEnv_listingsFit : listingsFit memEnv.
Proof.
  intros prefix w. cbn. unfold memList.
  destruct (mFails prefix w); cbn; [exact I|].
  rewrite length_take. unfold memListCap. lia.
Qed.

(** Two complete runs over the in-memory world, the second turned away
    once while the first still holds the guard. *)
Lemma status_history_well_formed_witness :
  let w := memWorld [("certs/aa", [x0a; x01; x02]);
                     ("revoked/bb", [])] (20 * Second) false ∅ [] in
  let d := {| safety_buffer := 5; tidy_cert_store := true;
              tidy_revoked_certs := true; tidy_revocation_list := false;
              tidy_revoked_cert_issuer_associations := false |} in
  let es := [EvWrite d; EvGo 0; EvWrite d; EvGo 0; EvGo 0;
             EvWrite d; EvGo 0; EvGo 0; EvGo 0] in
  let b := sysBackend (fst (sysRun memEnv es (newSystem w))) in
  listingsFit memEnv
  /\ statusChain (fullLog b)
  /\ List.map state (fullLog b)
     = [tidyStatusFinished; tidyStatusStarted; tidyStatusFinished;
        tidyStatusStarted; tidyStatusStarted; tidyStatusStarted;
        tidyStatusStarted; tidyStatusStarted; tidyStatusInactive]
  /\ List.map certStoreDeletedCount (fullLog b)
     = [0; 0; 1; 1; 1; 1; 0; 0; 0].
Proof.
  intros w d es b.
  split; [exact memEnv_listingsFit|].
  split; [exact (proj1 (status_history_well_formed memEnv memEnv_listingsFit w es))|].
  split; vm_compute; reflexivity.
Defined.

(** * Further properties of the tidy code *)

(** ** The cert store pass as a whole *)

Section CertStorePass.

Context {W : Type} (env : Env W).

Implicit Types (b : backend W) (config : tidyConfig).

(** A certificate entry that is nil or has an empty value is deleted and
    counted without being parsed and without a look at the clock: past
    the fetch, the outcome of the iteration depends only on the delete. *)
Theorem cert_empty_entry_deleted config (serialCount i : nat)
    (serial : string) b (certEntry : option StorageEntry) (w1 : W)
    (Hget : storage_Get env ("certs/" +:+ serial) (world b) = (w1, Ok certEntry))
    (Hempty : match certEntry with
              | None => True
              | Some e => Value e = []
              end) :
  let b' := fst (tidyCertStoreEntry env config serialCount i serial b) in
  let r := snd (tidyCertStoreEntry env config serialCount i serial b) in
  calls b' = calls b ++ [certsDelete serial]
  /\ match storage_Delete env ("certs/" +:+ serial) w1 with
     | (w2, Ok _) =>
         r = Ok tt /\ world b' = w2
         /\ certStoreDeletedCount (bTidyStatus b')
            = wrapUint64 (certStoreDeletedCount (bTidyStatus b) + 1)
     | (w2, Err e) =>
         (exists text, r = Err text) /\ world b' = w2
         /\ certStoreDeletedCount (bTidyStatus b')
            = certStoreDeletedCount (bTidyStatus b)
     end.
Proof.
  cbv zeta. unfold tidyCertStoreEntry, certsDelete. unfold_m.
  cbn [world setWorld tidyStatusMessage setStatus]. rewrite Hget.
  destruct certEntry as [e|].
  - rewrite Hempty. cbn [length Nat.eqb world setWorld logCall].
    destruct (storage_Delete env _ w1) as [w2 [[]|e']]; cbn; eauto.
  - cbn [world setWorld logCall].
    destruct (storage_Delete env _ w1) as [w2 [[]|e']]; cbn; eauto.
Qed.

(** A certificate entry that is present but does not parse stops the
    pass on the spot: the entry is not deleted, nothing is counted, and
    the entries after it in the listing are neither fetched nor deleted.
    The state left behind is the one after the fetch, with the progress
    message of this entry.  The error text quotes the serial with [%q];
    it is given for an ASCII serial, where [fmtQ] is that verb. *)
Theorem cert_pass_stops_at_unparseable config (serialCount i : nat)
    (serial : string) (rest : list string) b (certEntry : StorageEntry)
    (w1 : W) (e : error)
    (Hserial : isASCII serial = true)
    (Hget : storage_Get env ("certs/" +:+ serial) (world b)
            = (w1, Ok (Some certEntry)))
    (Hval : Value certEntry <> [])
    (Hparse : x509_ParseCertificate env (Value certEntry) = Err e) :
  certStoreLoop env config serialCount i (serial :: rest) b
  = (setWorld w1
       (tidyStatusMessage
          ("Tidying certificate store: checking entry " +:+ pretty i +:+
           " of " +:+ pretty serialCount) b),
     Err (("unable to parse stored certificate with serial " +:+ fmtQ serial)
          +:+ ": " +:+ e)).
Proof.
  cbn [certStoreLoop]. unfold tidyCertStoreEntry. unfold_m.
  cbn [world setWorld tidyStatusMessage setStatus]. rewrite Hget.
  destruct (Value certEntry) as [|v0 vs] eqn:EV; [contradiction|].
  cbn [length Nat.eqb]. rewrite Hparse. reflexivity.
Qed.

Lemma wrapUint64_range (z : Z) : isUint64 (wrapUint64 z).
Proof. unfold isUint64, wrapUint64. apply Z.mod_pos_bound. lia. Qed.

Lemma wrapUint64_add_l (a c : Z) :
  wrapUint64 (wrapUint64 a + c) = wrapUint64 (a + c).
Proof. unfold wrapUint64. apply Zplus_mod_idemp_l. Qed.

(** What one iteration of the cert store loop adds to the call log and
    to the counters. *)
Lemma tidyCertStoreEntry_footprint config (serialCount i : nat)
    (serial : string) b :
  isUint64 (certStoreDeletedCount (bTidyStatus b)) ->
  exists l,
    calls (fst (tidyCertStoreEntry env config serialCount i serial b))
    = calls b ++ l
    /\ (l = [] \/ l = [certsDelete serial])
    /\ isUint64 (certStoreDeletedCount
                   (bTidyStatus (fst (tidyCertStoreEntry env config serialCount
                                        i serial b))))
    /\ revokedCertDeletedCount
         (bTidyStatus (fst (tidyCertStoreEntry env config serialCount i serial b)))
       = revokedCertDeletedCount (bTidyStatus b)
    /\ missingIssuerCertCount
         (bTidyStatus (fst (tidyCertStoreEntry env config serialCount i serial b)))
       = missingIssuerCertCount (bTidyStatus b)
    /\ (snd (tidyCertStoreEntry env config serialCount i serial b) = Ok tt ->
        certStoreDeletedCount
          (bTidyStatus (fst (tidyCertStoreEntry env config serialCount i serial b)))
        = wrapUint64 (certStoreDeletedCount (bTidyStatus b)
                      + Z.of_nat (length l))).
Proof.
  intros Hr.
  assert (H0 : wrapUint64 (certStoreDeletedCount (bTidyStatus b) + Z.of_nat 0)
               = certStoreDeletedCount (bTidyStatus b)).
  { cbn [Z.of_nat]. rewrite Z.add_0_r. apply wrapUint64_small. exact Hr. }
  unfold tidyCertStoreEntry, certsDelete. unfold_m.
  repeat (split_scrutinee;
          cbn [world setWorld logCall setStatus tidyStatusMessage
               tidyStatusIncCertStoreCount bTidyStatus calls fst snd
               certStoreDeletedCount revokedCertDeletedCount
               missingIssuerCertCount]);
    first
      [ exists []; rewrite app_nil_r;
        cbn [length];
        repeat (split; [first [reflexivity|left; reflexivity|exact Hr]|]);
        intros Hok; first [discriminate Hok|symmetry; exact H0]
      | eexists; split; [reflexivity|];
        split; [right; reflexivity|];
        split; [first [apply wrapUint64_range|exact Hr]|];
        split; [reflexivity|]; split; [reflexivity|];
        intros Hok; first [discriminate Hok|reflexivity] ].
Qed.

Lemma certStoreLoop_footprint config (serialCount : nat)
    (serials : list string) :
  forall (i : nat) b,
    isUint64 (certStoreDeletedCount (bTidyStatus b)) ->
    exists l,
      calls (fst (certStoreLoop env config serialCount i serials b))
      = calls b ++ l
      /\ l `sublist_of` List.map certsDelete serials
      /\ isUint64 (certStoreDeletedCount
                     (bTidyStatus (fst (certStoreLoop env config serialCount i
                                          serials b))))
      /\ revokedCertDeletedCount
           (bTidyStatus (fst (certStoreLoop env config serialCount i serials b)))
         = revokedCertDeletedCount (bTidyStatus b)
      /\ missingIssuerCertCount
           (bTidyStatus (fst (certStoreLoop env config serialCount i serials b)))
         = missingIssuerCertCount (bTidyStatus b)
      /\ (snd (certStoreLoop env config serialCount i serials b) = Ok tt ->
          certStoreDeletedCount
            (bTidyStatus (fst (certStoreLoop env config serialCount i serials b)))
          = wrapUint64 (certStoreDeletedCount (bTidyStatus b)
                        + Z.of_nat (length l))).
Proof.
  induction serials as [|serial rest IH]; intros i b Hr.
  - exists []. cbn. rewrite app_nil_r.
    split; [reflexivity|]. split; [constructor|]. split; [exact Hr|].
    split; [reflexivity|]. split; [reflexivity|].
    intros _. rewrite Z.add_0_r. symmetry. apply wrapUint64_small. exact Hr.
  - cbn [certStoreLoop List.map]. unfold bind.
    destruct (tidyCertStoreEntry_footprint config serialCount i serial b Hr)
      as (l1 & Hc1 & Hl1 & Hr1 & Hv1 & Hm1 & Hn1).
    assert (Hsub1 : l1 `sublist_of` [certsDelete serial]).
    { destruct Hl1 as [->| ->]; [apply sublist_nil_l|reflexivity]. }
    destruct (tidyCertStoreEntry env config serialCount i serial b)
      as [b1 [[]|e]]; cbn [fst snd] in *.
    + destruct (IH (S i) b1 Hr1) as (l2 & Hc2 & Hl2 & Hr2 & Hv2 & Hm2 & Hn2).
      exists (l1 ++ l2). rewrite Hc2, Hc1, <- app_assoc.
      split; [reflexivity|].
      split; [apply (sublist_app l1 [certsDelete serial] l2
                     (List.map certsDelete rest)); assumption|].
      split; [exact Hr2|]. split; [congruence|]. split; [congruence|].
      intros Hok. rewrite (Hn2 Hok), (Hn1 eq_refl), wrapUint64_add_l.
      rewrite length_app, Nat2Z.inj_add. f_equal. lia.
    + exists l1. split; [exact Hc1|].
      split; [rewrite <- (app_nil_r l1);
              apply (sublist_app l1 [certsDelete serial] []
                       (List.map certsDelete rest));
              [exact Hsub1|apply sublist_nil_l]
             |].
      split; [exact Hr1|]. split; [exact Hv1|]. split; [exact Hm1|].
      intros Hok. discriminate Hok.
Qed.

(** Over a listing [serials] of the cert store, the pass issues nothing
    but deletes of [certs/<serial>] for listed serials, each at most once
    and in listing order; it never writes and never triggers a rebuild;
    it leaves the two revocation counters alone; and when it succeeds the
    deleted-count has grown by the number of deletes issued. *)
Theorem doTidyCertStore_footprint config b (serials : list string) (w1 : W)
    (Hlist : storage_List env "certs/" (world b) = (w1, Ok serials))
    (Hrange : isUint64 (certStoreDeletedCount (bTidyStatus b))) :
  let b' := fst (doTidyCertStore env config b) in
  exists l,
    calls b' = calls b ++ l
    /\ l `sublist_of` List.map certsDelete serials
    /\ existsb isPut l = false
    /\ countRebuild l = 0%nat
    /\ revokedCertDeletedCount (bTidyStatus b')
       = revokedCertDeletedCount (bTidyStatus b)
    /\ missingIssuerCertCount (bTidyStatus b')
       = missingIssuerCertCount (bTidyStatus b)
    /\ (snd (doTidyCertStore env config b) = Ok tt ->
        certStoreDeletedCount (bTidyStatus b')
        = wrapUint64 (certStoreDeletedCount (bTidyStatus b)
                      + Z.of_nat (length l))).
Proof.
  cbv zeta. unfold doTidyCertStore. unfold_m. rewrite Hlist.
  destruct (certStoreLoop_footprint config (length serials) serials 0%nat
              (setWorld w1 b) Hrange)
    as (l & Hc & Hs & _ & Hv & Hm & Hn).
  exists l. split; [exact Hc|]. split; [exact Hs|].
  assert (Hshape : forall l0 ss, l0 `sublist_of` List.map certsDelete ss ->
                     existsb isPut l0 = false /\ countRebuild l0 = 0%nat).
  { clear. intros l0 ss. revert l0.
    induction ss as [|x ss IH]; intros l0 H; cbn in H.
    - apply sublist_nil_r in H. subst. split; reflexivity.
    - inversion H; subst.
      + destruct (IH _ H2) as [H3 H4]. split; [exact H3|].
        unfold countRebuild in *. cbn. exact H4.
      + apply IH. assumption. }
  destruct (Hshape l serials Hs) as [Hp Hb].
  split; [exact Hp|]. split; [exact Hb|].
  split; [exact Hv|]. split; [exact Hm|]. exact Hn.
Qed.




End CertStorePass.


Lemma cert_empty_entry_deleted_witness :
  let w := memWorld [("certs/aa", [])] (1 * Second) false ∅ [] in
  let b' := fst (tidyCertStoreEntry memEnv (cfg true false false 5) 1 0 "aa"
                   (newBackend w)) in
  storage_Get memEnv "certs/aa" w
    = (w, Ok (Some {| Key := "certs/aa"; Value := [] |}))
  /\ calls b' = [CallDelete "certs/aa"]
  /\ certStoreDeletedCount (bTidyStatus b') = 1.
Proof.
  intros w b'.
  assert (Hget : storage_Get memEnv ("certs/" +:+ "aa") (world (newBackend w))
                 = (w, Ok (Some {| Key := "certs/aa"; Value := [] |})))
    by reflexivity.
  split; [exact Hget|].
  destruct (cert_empty_entry_deleted memEnv (cfg true false false 5) 1 0 "aa"
              (newBackend w) _ w Hget eq_refl) as (Hc & Hd).
  split; [exact Hc|].
  vm_compute in Hd. destruct Hd as (_ & _ & Hn). exact Hn.
Defined.

Lemma cert_pass_stops_at_unparseable_witness :
  let w := memWorld [("certs/aa", [xff]); ("certs/bb", [])] (20 * Second)
             false ∅ [] in
  let run := certStoreLoop memEnv (cfg true false false 5) 2 0 ["aa"; "bb"]
               (newBackend w) in
  isASCII "aa" = true
  /\ Value {| Key := "certs/aa"; Value := [xff] |} <> []
  /\ x509_ParseCertificate memEnv [xff] = Err "x509: malformed certificate"
  /\ snd run
     = Err (("unable to parse stored certificate with serial " +:+ fmtQ "aa")
            +:+ ": " +:+ "x509: malformed certificate")
  /\ calls (fst run) = []
  /\ mStore (world (fst run)) = [("certs/aa", [xff]); ("certs/bb", [])]
  /\ certStoreDeletedCount (bTidyStatus (fst run)) = 0.
Proof.
  intros w run.
  assert (Hval : Value {| Key := "certs/aa"; Value := [xff] |} <> [])
    by discriminate.
  split; [reflexivity|]. split; [exact Hval|]. split; [reflexivity|].
  pose proof (cert_pass_stops_at_unparseable memEnv (cfg true false false 5)
                2 0 "aa" ["bb"] (newBackend w)
                {| Key := "certs/aa"; Value := [xff] |} w
                "x509: malformed certificate" eq_refl eq_refl Hval eq_refl) as H.
  fold run in H. rewrite H. repeat split.
Defined.

Lemma doTidyCertStore_footprint_witness :
  let w := memWorld [("certs/aa", [x0a; x01; x02]); ("certs/bb", [x63; x01; x02]);
                     ("certs/cc", [])] (20 * Second) false ∅ [] in
  let b' := fst (doTidyCertStore memEnv (cfg true false false 5) (newBackend w)) in
  storage_List memEnv "certs/" w = (w, Ok ["aa"; "bb"; "cc"])
  /\ isUint64 (certStoreDeletedCount (bTidyStatus (newBackend w)))
  /\ calls b' = [certsDelete "aa"; certsDelete "cc"]
  /\ certStoreDeletedCount (bTidyStatus b') = 2.
Proof.
  intros w b'.
  assert (Hlist : storage_List memEnv "certs/" (world (newBackend w))
                  = (w, Ok ["aa"; "bb"; "cc"])) by reflexivity.
  assert (Hrange : isUint64 (certStoreDeletedCount (bTidyStatus (newBackend w))))
    by (unfold isUint64; cbn; lia).
  split; [exact Hlist|]. split; [exact Hrange|].
  destruct (doTidyCertStore_footprint memEnv (cfg true false false 5)
              (newBackend w) ["aa"; "bb"; "cc"] w Hlist Hrange)
    as (l & Hc & _ & _ & _ & _ & _ & Hn).
  assert (Hl : l = [certsDelete "aa"; certsDelete "cc"]).
  { apply (app_inv_head (calls (newBackend w))). rewrite <- Hc. reflexivity. }
  unfold b'.
  split; [rewrite Hc, Hl; reflexivity|].
  rewrite (Hn eq_refl), Hl. reflexivity.
Defined.

(** ** The revocation store pass as a whole *)

Section RevocationFlags.

Context {W : Type} (env : Env W).

Implicit Types (b : backend W) (config : tidyConfig) (v : revLoopVars).

(** A revocation entry that is present but cannot be decoded, or whose
    certificate does not parse, stops the pass on the spot: nothing is
    deleted, written or counted for it - in particular the missing-issuer
    count is untouched - and the entries after it are not examined.  The
    error text quotes the serial with [%q]; it is given for an ASCII
    serial, where [fmtQ] is that verb. *)
Theorem revoked_pass_stops_at_undecodable config
    (m : gmap issuerID Certificate) (total i : nat) (serial : string)
    (rest : list string) v b (revokedEntry : StorageEntry) (w1 : W)
    (Hserial : isASCII serial = true)
    (Hget : storage_Get env ("revoked/" +:+ serial) (world b)
            = (w1, Ok (Some revokedEntry)))
    (Hval : Value revokedEntry <> [])
    (Hbad : match DecodeJSON env (Value revokedEntry) (revInfo v) with
            | Err _ => True
            | Ok revInfo1 =>
                match x509_ParseCertificate env (CertificateBytes revInfo1) with
                | Err _ => True
                | Ok _ => False
                end
            end) :
  revokedLoop env config m total i (serial :: rest) v b
  = (setWorld w1
       (tidyStatusMessage
          ("Tidying revoked certificates: checking certificate " +:+ pretty i +:+
           " of " +:+ pretty total) b),
     match DecodeJSON env (Value revokedEntry) (revInfo v) with
     | Err e =>
         Err (("error decoding revocation entry for serial " +:+ fmtQ serial)
              +:+ ": " +:+ e)
     | Ok revInfo1 =>
         match x509_ParseCertificate env (CertificateBytes revInfo1) with
         | Err e =>
             Err (("unable to parse stored revoked certificate with serial " +:+
                   fmtQ serial) +:+ ": " +:+ e)
         | Ok _ => Ok v
         end
     end).
Proof.
  cbn [revokedLoop]. unfold tidyRevokedEntry. unfold_m.
  cbn [world setWorld tidyStatusMessage setStatus]. rewrite Hget.
  destruct (Value revokedEntry) as [|v0 vs] eqn:EV; [contradiction|].
  cbn [length Nat.eqb].
  destruct (DecodeJSON env (v0 :: vs) (revInfo v)) as [ri|e]; [|reflexivity].
  destruct (x509_ParseCertificate env (CertificateBytes ri)) as [c|e];
    [contradiction|reflexivity].
Qed.

(** What one iteration of the revocation loop does not do, by flag. *)
Lemma tidyRevokedEntry_flags config (m : gmap issuerID Certificate)
    (total i : nat) (serial : string) v b :
  exists l,
    calls (fst (tidyRevokedEntry env config m total i serial v b)) = calls b ++ l
    /\ certStoreDeletedCount
         (bTidyStatus (fst (tidyRevokedEntry env config m total i serial v b)))
       = certStoreDeletedCount (bTidyStatus b)
    /\ (IssuerAssocs config = false ->
        existsb isPut l = false
        /\ missingIssuerCertCount
             (bTidyStatus (fst (tidyRevokedEntry env config m total i serial v b)))
           = missingIssuerCertCount (bTidyStatus b))
    /\ (RevokedCerts config = false -> expiryDeletion l = false).
Proof.
  pose proof (revoked_key_not_certs serial) as Hr.
  unfold tidyRevokedEntry, tidyIssuerAssoc, tidyRevokedExpiry, tidyStoreCert.
  unfold_m. cbn_state. split_matches;
    rewrite <- ?app_assoc;
    first
      [ exists []; rewrite app_nil_r;
        (split; [reflexivity|]); (split; [reflexivity|]);
        (split; [intros Hf; first [congruence|split; reflexivity]
                |intros Hf; reflexivity])
      | eexists;
        (split; [reflexivity|]); (split; [reflexivity|]);
        (split; [intros Hf; first [congruence|split; reflexivity]
                |intros Hf; first [congruence
                                  |unfold expiryDeletion; cbn [existsb];
                                   rewrite ?Hr; reflexivity]]) ].
Qed.

Lemma revokedLoop_flags config (m : gmap issuerID Certificate) (total : nat)
    (serials : list string) :
  forall (i : nat) v b,
  exists l,
    calls (fst (revokedLoop env config m total i serials v b)) = calls b ++ l
    /\ certStoreDeletedCount
         (bTidyStatus (fst (revokedLoop env config m total i serials v b)))
       = certStoreDeletedCount (bTidyStatus b)
    /\ (IssuerAssocs config = false ->
        existsb isPut l = false
        /\ missingIssuerCertCount
             (bTidyStatus (fst (revokedLoop env config m total i serials v b)))
           = missingIssuerCertCount (bTidyStatus b))
    /\ (RevokedCerts config = false -> expiryDeletion l = false).
Proof.
  induction serials as [|serial rest IH]; intros i v b.
  - exists []. cbn. rewrite app_nil_r. auto.
  - cbn [revokedLoop]. unfold bind.
    destruct (tidyRevokedEntry_flags config m total i serial v b)
      as (l1 & Hc1 & Hn1 & Hi1 & He1).
    destruct (tidyRevokedEntry env config m total i serial v b)
      as [b1 [v1|e]]; cbn [fst snd] in *.
    + destruct (IH (S i) v1 b1) as (l2 & Hc2 & Hn2 & Hi2 & He2).
      exists (l1 ++ l2). rewrite Hc2, Hc1, <- app_assoc.
      split; [reflexivity|]. split; [congruence|]. split.
      * intros Hf. destruct (Hi1 Hf) as [Hp1 Hm1].
        destruct (Hi2 Hf) as [Hp2 Hm2].
        rewrite existsb_app, Hp1, Hp2. split; [reflexivity|congruence].
      * intros Hf. rewrite expiryDeletion_app, (He1 Hf), (He2 Hf). reflexivity.
    + exists l1. auto.
Qed.

(** Flag isolation of the revocation pass.  The pass never changes the
    cert-store deleted-count, even when it deletes [certs/<serial>]
    along with an expired revoked entry.  With the issuer-association
    flag off it writes nothing and counts no missing issuer.  With
    [tidy_revoked_certs] off it deletes nothing under [certs/] and never
    invokes the CRL rebuild. *)
Theorem revocation_pass_flag_isolation config b :
  let b' := fst (doTidyRevocationStore env config b) in
  exists l,
    calls b' = calls b ++ l
    /\ certStoreDeletedCount (bTidyStatus b')
       = certStoreDeletedCount (bTidyStatus b)
    /\ (if IssuerAssocs config then True
        else existsb isPut l = false
             /\ missingIssuerCertCount (bTidyStatus b')
                = missingIssuerCertCount (bTidyStatus b))
    /\ (if RevokedCerts config then True
        else expiryDeletion l = false /\ countRebuild l = 0%nat).
Proof.
  cbv zeta. unfold doTidyRevocationStore. unfold_m.
  destruct (fetchIssuerMapForRevocationChecking env (world b)) as [w0 [m|e]];
    cbn [world setWorld].
  2: { exists []. rewrite app_nil_r. cbn.
       repeat split; destruct (IssuerAssocs config), (RevokedCerts config); auto. }
  destruct (storage_List env "revoked/" w0) as [w [serials|e]].
  2: { exists []. rewrite app_nil_r. cbn.
       repeat split; destruct (IssuerAssocs config), (RevokedCerts config); auto. }
  destruct (revokedLoop_flags config m (length serials) serials 0%nat revLoopInit
              (setWorld w (setWorld w0 b))) as (l & Hc & Hn & Hi & He).
  destruct (revokedLoop_calls env config m (length serials) serials 0%nat
              revLoopInit (setWorld w (setWorld w0 b)))
    as (l' & Hc' & Hb' & Hv').
  assert (l' = l) as ->.
  { apply (app_inv_head (calls b)). cbn [calls setWorld] in Hc, Hc'. congruence. }
  destruct (revokedLoop env config m (length serials) 0 serials revLoopInit
              (setWorld w (setWorld w0 b))) as [b1 [v|e]];
    cbn [fst snd calls setWorld] in *.
  - specialize (Hv' v eq_refl). cbn [rebuildCRL revLoopInit orb] in Hv'.
    unfold tidyRebuildCRL. unfold_m. rewrite Hv'.
    destruct (expiryDeletion l) eqn:Eexp.
    + assert (Hrc : RevokedCerts config = true).
      { destruct (RevokedCerts config); [reflexivity|].
        specialize (He eq_refl). discriminate. }
      rewrite Hrc.
      destruct (getRevocationConfig env (world b1)) as [w3 [c|e]]; cbn_state.
      * destruct (AutoRebuild c); cbn [negb]; cbn_state.
        -- exists l. split; [exact Hc|]. split; [exact Hn|].
           split; [destruct (IssuerAssocs config); auto|exact I].
        -- destruct (crlBuilder_rebuild env false w3) as [w4 [[]|e]]; cbn_state;
             exists (l ++ [CallRebuild false]);
             rewrite Hc, <- app_assoc;
             (split; [reflexivity|]); (split; [exact Hn|]);
             (split; [|exact I]);
             (destruct (IssuerAssocs config); [exact I|]);
             destruct (Hi eq_refl) as [Hp Hm];
             rewrite existsb_app, Hp; auto.
      * exists l. split; [exact Hc|]. split; [exact Hn|].
        split; [destruct (IssuerAssocs config); auto|exact I].
    + exists l. cbn. split; [exact Hc|]. split; [exact Hn|].
      split; [destruct (IssuerAssocs config); auto|].
      destruct (RevokedCerts config); auto.
  - exists l. split; [exact Hc|]. split; [exact Hn|].
    split; [destruct (IssuerAssocs config); auto|].
    destruct (RevokedCerts config); auto.
Qed.

(** The loop over a listing in two parts. *)
Lemma revokedLoop_app config (m : gmap issuerID Certificate) (total : nat)
    (pre rest : list string) :
  forall (i : nat) v b,
    revokedLoop env config m total i (pre ++ rest) v b
    = match revokedLoop env config m total i pre v b with
      | (b1, Ok v1) => revokedLoop env config m total (i + length pre) rest v1 b1
      | (b1, Err e) => (b1, Err e)
      end.
Proof.
  induction pre as [|serial pre IH]; intros i v b.
  - cbn. rewrite Nat.add_0_r. reflexivity.
  - cbn [app revokedLoop length]. unfold bind.
    destruct (tidyRevokedEntry env config m total i serial v b)
      as [b1 [v1|e]]; [|reflexivity].
    rewrite IH. replace (S i + length pre)%nat with (i + S (length pre))%nat by lia.
    reflexivity.
Qed.

(** One iteration counts at most one deletion. *)
Lemma tidyRevokedEntry_count config (m : gmap issuerID Certificate)
    (total i : nat) (serial : string) v b :
  revokedCertDeletedCount
    (bTidyStatus (fst (tidyRevokedEntry env config m total i serial v b)))
  = revokedCertDeletedCount (bTidyStatus b)
  \/ revokedCertDeletedCount
       (bTidyStatus (fst (tidyRevokedEntry env config m total i serial v b)))
     = wrapUint64 (revokedCertDeletedCount (bTidyStatus b) + 1).
Proof.
  unfold tidyRevokedEntry, tidyIssuerAssoc, tidyRevokedExpiry, tidyStoreCert.
  unfold_m. cbn_state. split_matches;
    cbn [revokedCertDeletedCount];
    first [left; reflexivity|right; reflexivity].
Qed.

Lemma revokedLoop_count config (m : gmap issuerID Certificate) (total : nat)
    (serials : list string) :
  forall (i : nat) v b,
    isUint64 (revokedCertDeletedCount (bTidyStatus b)) ->
    exists k,
      0 <= k <= Z.of_nat (length serials)
      /\ revokedCertDeletedCount
           (bTidyStatus (fst (revokedLoop env config m total i serials v b)))
         = wrapUint64 (revokedCertDeletedCount (bTidyStatus b) + k).
Proof.
  induction serials as [|serial rest IH]; intros i v b Hr.
  - exists 0. cbn. split; [lia|].
    rewrite Z.add_0_r. symmetry. apply wrapUint64_small. exact Hr.
  - cbn [revokedLoop length]. unfold bind.
    pose proof (tidyRevokedEntry_count config m total i serial v b) as H1.
    destruct (tidyRevokedEntry env config m total i serial v b)
      as [b1 [v1|e]]; cbn [fst snd] in *.
    + assert (Hr1 : isUint64 (revokedCertDeletedCount (bTidyStatus b1))).
      { destruct H1 as [-> | ->]; [exact Hr|apply wrapUint64_range]. }
      destruct (IH (S i) v1 b1 Hr1) as (k & Hk & Hn).
      destruct H1 as [H1|H1].
      * exists k. split; [lia|]. rewrite Hn, H1. reflexivity.
      * exists (1 + k). split; [lia|].
        rewrite Hn, H1, wrapUint64_add_l. f_equal; lia.
    + destruct H1 as [H1|H1].
      * exists 0. split; [lia|]. rewrite H1, Z.add_0_r.
        symmetry. apply wrapUint64_small. exact Hr.
      * exists 1. split; [lia|]. exact H1.
Qed.

(** The tail of the pass leaves the status alone. *)
Lemma tidyRebuildCRL_status (rebuild : bool) b :
  bTidyStatus (fst (tidyRebuildCRL env rebuild b)) = bTidyStatus b.
Proof.
  unfold tidyRebuildCRL, crlRebuild. unfold_m.
  destruct rebuild; [|reflexivity].
  split_matches; reflexivity.
Qed.

(** C10. The revocation pass over a listing, at an entry it reaches that
    is nil or has an empty value, whatever the flags of the
    configuration: the pass issues the delete of [revoked/<serial>].
    When the delete succeeds, the entry is counted - the revoked-deleted
    count at the end of the pass is the count on reaching the entry, plus
    one for it, plus what the entries after it add - and the pass goes on
    with the entries after it, its loop variables untouched.  When the
    delete fails the pass ends there, uncounted.  The run enters this
    pass as soon as one of [tidy_revoked_certs] and the
    issuer-association flag is on, so with only the latter on the
    cleanup happens all the same. *)
Theorem revoked_empty_entry_deleted config b
    (m : gmap issuerID Certificate) (pre rest : list string)
    (serial : string) (w0 wl : W) b1 v1
    (revokedEntry : option StorageEntry) (w1 : W)
    (Hmap : fetchIssuerMapForRevocationChecking env (world b) = (w0, Ok m))
    (Hlist : storage_List env "revoked/" w0 = (wl, Ok (pre ++ serial :: rest)))
    (Hpre : revokedLoop env config m (length (pre ++ serial :: rest)) 0 pre
              revLoopInit (setWorld wl b) = (b1, Ok v1))
    (Hrange : isUint64 (revokedCertDeletedCount (bTidyStatus b1)))
    (Hget : storage_Get env ("revoked/" +:+ serial) (world b1)
            = (w1, Ok revokedEntry))
    (Hempty : match revokedEntry with
              | None => True
              | Some e => Value e = []
              end) :
  let b' := fst (doTidyRevocationStore env config b) in
  let r := snd (doTidyRevocationStore env config b) in
  let n := length (pre ++ serial :: rest) in
  (exists ltail,
     calls b' = calls b1 ++ CallDelete ("revoked/" +:+ serial) :: ltail
     /\ match storage_Delete env ("revoked/" +:+ serial) w1 with
        | (w2, Ok _) =>
            (exists k,
               0 <= k <= Z.of_nat (length rest)
               /\ revokedCertDeletedCount (bTidyStatus b')
                  = wrapUint64 (revokedCertDeletedCount (bTidyStatus b1) + 1 + k))
            /\ doTidyRevocationStore env config b
               = bind (revokedLoop env config m n (S (length pre)) rest v1)
                   (fun v => tidyRebuildCRL env (rebuildCRL v))
                   (tidyStatusIncRevokedCertCount
                      (setWorld w2
                         (logCall (CallDelete ("revoked/" +:+ serial))
                            (tidyStatusMessage
                               ("Tidying revoked certificates: checking certificate " +:+
                                pretty (length pre) +:+ " of " +:+ pretty n)
                               b1))))
        | (w2, Err e) =>
            (exists text, r = Err text)
            /\ world b' = w2
            /\ ltail = []
            /\ revokedCertDeletedCount (bTidyStatus b')
               = revokedCertDeletedCount (bTidyStatus b1)
        end)
  /\ forall b0,
       (if CertStore config then doTidyCertStore env config b0 = (b, Ok tt)
        else b0 = b) ->
       RevokedCerts config || IssuerAssocs config = true ->
       fst (doTidy env config b0) = b'.
Proof.
  cbv zeta. split.
  - pose proof (tidyRevokedEntry_empty env config m
                  (length (pre ++ serial :: rest)) (0 + length pre) serial v1 b1
                  revokedEntry w1 Hget Hempty) as He.
    cbv zeta in He. destruct He as (Hc2 & Hd & _).
    assert (Hstep : tidyRevokedEntry env config m (length (pre ++ serial :: rest))
                      (0 + length pre) serial v1 b1
                    = match storage_Delete env ("revoked/" +:+ serial) w1 with
                      | (w2, Ok _) =>
                          (tidyStatusIncRevokedCertCount
                             (setWorld w2
                                (logCall (CallDelete ("revoked/" +:+ serial))
                                   (tidyStatusMessage
                                      ("Tidying revoked certificates: checking certificate " +:+
                                       pretty (length pre) +:+ " of " +:+
                                       pretty (length (pre ++ serial :: rest)))
                                      b1))), Ok v1)
                      | (w2, Err e) =>
                          (setWorld w2
                             (logCall (CallDelete ("revoked/" +:+ serial))
                                (tidyStatusMessage
                                   ("Tidying revoked certificates: checking certificate " +:+
                                    pretty (length pre) +:+ " of " +:+
                                    pretty (length (pre ++ serial :: rest)))
                                   b1)),
                           Err (match revokedEntry with
                                | Some _ =>
                                    "error deleting revoked entry with nil value with serial "
                                | None =>
                                    "error deleting nil revoked entry with serial "
                                end +:+ serial +:+ ": " +:+ e))
                      end).
    { unfold tidyRevokedEntry. unfold_m.
      cbn [world setWorld tidyStatusMessage setStatus]. rewrite Hget.
      destruct revokedEntry as [e|].
      - rewrite Hempty. cbn [length Nat.eqb world setWorld logCall].
        destruct (storage_Delete env _ w1) as [w2 [[]|e']]; reflexivity.
      - cbn [world setWorld logCall].
        destruct (storage_Delete env _ w1) as [w2 [[]|e']]; reflexivity. }
    unfold doTidyRevocationStore. unfold_m. rewrite Hmap.
    cbn [world setWorld]. rewrite Hlist.
    replace (setWorld wl (setWorld w0 b)) with (setWorld wl b) by reflexivity.
    rewrite revokedLoop_app, Hpre. cbn [revokedLoop]. unfold bind.
    rewrite Hstep. clear Hstep Hc2 Hd.
    destruct (storage_Delete env ("revoked/" +:+ serial) w1) as [w2 [[]|e2]].
    + set (b2 := tidyStatusIncRevokedCertCount _).
      assert (Hr2 : isUint64 (revokedCertDeletedCount (bTidyStatus b2)))
        by apply wrapUint64_range.
      destruct (revokedLoop_count config m (length (pre ++ serial :: rest)) rest
                  (S (0 + length pre)) v1 b2 Hr2) as (k & Hk & Hn).
      destruct (revokedLoop_calls env config m (length (pre ++ serial :: rest))
                  rest (S (0 + length pre)) v1 b2) as (l & Hl & _ & _).
      cbn [Nat.add] in *.
      destruct (revokedLoop env config m (length (pre ++ serial :: rest))
                  (S (length pre)) rest v1 b2) as [b3 [v3|e3]];
        cbn [fst snd] in *.
      * pose proof (tidyRebuildCRL_status (rebuildCRL v3) b3) as Hs.
        assert (Hcalls : exists l', calls (fst (tidyRebuildCRL env (rebuildCRL v3) b3))
                                    = calls b3 ++ l').
        { unfold tidyRebuildCRL, crlRebuild. unfold_m.
          destruct (rebuildCRL v3); [|exists []; rewrite app_nil_r; reflexivity].
          split_matches;
            first [exists []; rewrite app_nil_r; reflexivity
                  |eexists; reflexivity]. }
        destruct Hcalls as (l' & Hl').
        exists (l ++ l'). split.
        -- rewrite Hl', Hl. subst b2. cbn_state. rewrite <- !app_assoc. reflexivity.
        -- split; [|reflexivity].
           exists k. split; [exact Hk|].
           rewrite Hs, Hn. subst b2. cbn_state.
           cbn [revokedCertDeletedCount]. rewrite wrapUint64_add_l. reflexivity.
      * exists l. split.
        -- rewrite Hl. subst b2. cbn_state. rewrite <- !app_assoc. reflexivity.
        -- split; [|reflexivity].
           exists k. split; [exact Hk|].
           rewrite Hn. subst b2. cbn_state.
           cbn [revokedCertDeletedCount]. rewrite wrapUint64_add_l. reflexivity.
    + exists []. cbn_state. split; [reflexivity|].
      split; [eexists; reflexivity|]. auto.
  - intros b0 Hcert Hscan. unfold doTidy. unfold_m. rewrite Hscan.
    destruct (CertStore config).
    + rewrite Hcert.
      destruct (doTidyRevocationStore env config b) as [b2 [[]|e]]; reflexivity.
    + subst b0.
      destruct (doTidyRevocationStore env config b) as [b2 [[]|e]]; reflexivity.
Qed.

End RevocationFlags.

(** A run with only the issuer-association flag on, over a revocation
    store of three entries: [aa], a sound record of issuer B; [bb], whose
    value is empty; and [cc], another sound record.  The pass deletes and
    counts [bb] and leaves the two others in place. *)
Lemma revoked_empty_entry_deleted_witness :
  let issuers : gmap issuerID Certificate :=
    {[ "B" := {| Raw := [x64; x00; x07]; NotAfter := 100 * Second |} ]} in
  let store := [("revoked/aa", [x42; x63; x07; x09]); ("revoked/bb", []);
                ("revoked/cc", [x42; x63; x07; x0a])] in
  let w := memWorld store (20 * Second) false issuers [] in
  let config := cfg false false true 5 in
  let b' := fst (doTidyRevocationStore memEnv config (newBackend w)) in
  storage_List memEnv "revoked/" w = (w, Ok ["aa"; "bb"; "cc"])
  /\ storage_Get memEnv "revoked/bb" w
     = (w, Ok (Some {| Key := "revoked/bb"; Value := [] |}))
  /\ RevokedCerts config = false
  /\ calls b' = [CallDelete "revoked/bb"]
  /\ revokedCertDeletedCount (bTidyStatus b') = 1
  /\ mStore (world b')
     = [("revoked/aa", [x42; x63; x07; x09]); ("revoked/cc", [x42; x63; x07; x0a])]
  /\ fst (doTidy memEnv config (newBackend w)) = b'.
Proof.
  intros issuers store w config b'.
  split; [reflexivity|]. split; [reflexivity|]. split; [reflexivity|].
  destruct (revokedLoop memEnv config issuers 3 0 ["aa"] revLoopInit
              (setWorld w (newBackend w))) as [b1 r1] eqn:Hpre.
  assert (Hb1 : (b1, r1)
                = (tidyStatusMessage
                     "Tidying revoked certificates: checking certificate 0 of 3"
                     (newBackend w),
                   Ok {| revInfo := {| CertificateBytes := [x63; x07; x09];
                                       CertificateIssuer := "B" |};
                         rebuildCRL := false; fixedIssuers := 0 |})).
  { rewrite <- Hpre. vm_compute. reflexivity. }
  inversion Hb1; subst b1 r1. clear Hb1.
  assert (Hrange : isUint64 (revokedCertDeletedCount
                     (bTidyStatus (tidyStatusMessage
                        "Tidying revoked certificates: checking certificate 0 of 3"
                        (newBackend w)))))
    by (unfold isUint64; cbn; lia).
  destruct (revoked_empty_entry_deleted memEnv config (newBackend w) issuers
              ["aa"] ["cc"] "bb" w w _ _
              (Some {| Key := "revoked/bb"; Value := [] |}) w
              eq_refl eq_refl Hpre Hrange eq_refl eq_refl)
    as ((ltail & Hc & Hd) & Hrun).
  fold b' in Hc, Hd, Hrun.
  assert (Hcalls : calls b' = [CallDelete "revoked/bb"])
    by (vm_compute; reflexivity).
  split; [exact Hcalls|].
  split; [vm_compute; reflexivity|].
  split; [vm_compute; reflexivity|].
  apply Hrun; reflexivity.
Defined.

Lemma revoked_pass_stops_at_undecodable_witness :
  let w := memWorld [("revoked/aa", [xff; x0a]); ("revoked/bb", [])]
             (20 * Second) false ∅ [] in
  let run := revokedLoop memEnv (cfg false true true 5) ∅ 2 0 ["aa"; "bb"]
               revLoopInit (newBackend w) in
  isASCII "aa" = true
  /\ Value {| Key := "revoked/aa"; Value := [xff; x0a] |} <> []
  /\ DecodeJSON memEnv [xff; x0a] (revInfo revLoopInit) = Err "invalid character"
  /\ snd run
     = Err (("error decoding revocation entry for serial " +:+ fmtQ "aa")
            +:+ ": " +:+ "invalid character")
  /\ calls (fst run) = []
  /\ mStore (world (fst run)) = [("revoked/aa", [xff; x0a]); ("revoked/bb", [])]
  /\ missingIssuerCertCount (bTidyStatus (fst run)) = 0.
Proof.
  intros w run.
  assert (Hval : Value {| Key := "revoked/aa"; Value := [xff; x0a] |} <> [])
    by discriminate.
  split; [reflexivity|]. split; [exact Hval|]. split; [reflexivity|].
  pose proof (revoked_pass_stops_at_undecodable memEnv (cfg false true true 5)
                ∅ 2 0 "aa" ["bb"] revLoopInit (newBackend w)
                {| Key := "revoked/aa"; Value := [xff; x0a] |} w
                eq_refl eq_refl Hval I) as H.
  fold run in H. rewrite H. repeat split.
Defined.

(** ** Requests, runs and status reads together *)

Section RunsAndReads.

Context {W : Type} (env : Env W).

Implicit Types (b : backend W) (s : System (W:=W)) (config : tidyConfig).

Lemma wrapInt64_small (z : Z) : - 2 ^ 63 <= z < 2 ^ 63 -> wrapInt64 z = z.
Proof. intros H. unfold wrapInt64. rewrite Z.mod_small; lia. Qed.

(** A request that names no target is accepted all the same, with a
    warning of its own; the run it starts reads the clock twice, makes no
    storage call, counts nothing and ends [Finished], releasing the
    guard. *)
Theorem no_targets_run (sb : Z) s
    (Hsb : 1 <= sb) (Hg : tidyCASGuard (sysBackend s) = 0) :
  let d := {| safety_buffer := sb; tidy_cert_store := false;
              tidy_revoked_certs := false; tidy_revocation_list := false;
              tidy_revoked_cert_issuer_associations := false |} in
  let config := {| CertStore := false; RevokedCerts := false;
                   IssuerAssocs := false;
                   SafetyBuffer := wrapInt64 (sb * Second) |} in
  pathTidyWrite d s
  = ({| sysBackend := setGuard 1 (sysBackend s);
        sysGoroutines := sysGoroutines s ++
                         [{| goConfig := config; goAt := GoSpawned |}] |},
     RespondWithStatusCode
       (Resp ∅ ["No targets to tidy; specify tidy_cert_store=true or tidy_revoked_certs=true or tidy_revoked_cert_issuer_associations=true to start a tidy operation."])
       StatusAccepted)
  /\ forall b,
       let b' := tidyGoroutine env config b in
       calls b' = calls b
       /\ world b' = fst (time_Now env (fst (time_Now env (world b))))
       /\ state (bTidyStatus b') = tidyStatusFinished
       /\ err (bTidyStatus b') = None
       /\ countersZero (bTidyStatus b')
       /\ tidyCASGuard b' = 0.
Proof.
  cbv zeta. split.
  - unfold pathTidyWrite, CompareAndSwapUint32. cbn [safety_buffer].
    destruct (sb <? 1) eqn:E; [apply Z.ltb_lt in E; lia|].
    rewrite Hg. reflexivity.
  - intros b. unfold tidyGoroutine, tidyRunBody, doTidy, tidyStatusStart,
      tidyStatusStop. unfold_m. cbn [CertStore RevokedCerts IssuerAssocs orb].
    destruct (time_Now env (world b)) as [w1 t1]. cbn [world setStatus setWorld fst].
    destruct (time_Now env w1) as [w2 t2]. cbn.
    unfold countersZero. cbn. auto 10.
Qed.

(** When the cert store pass fails, the run is over: the revocation pass
    is not entered (no call, no status write of its own follows the
    pass), and the only thing that happens after the pass is the stop,
    which records the error of the pass and the state [Error]. *)
Theorem cert_store_failure_ends_run config b b1 (e : error)
    (Hc : CertStore config = true)
    (Hf : doTidyCertStore env config b = (b1, Err e)) :
  let b' := tidyRunBody env config b in
  state (bTidyStatus b') = tidyStatusError
  /\ err (bTidyStatus b') = Some e
  /\ calls b' = calls b1
  /\ statusLog b' = bTidyStatus b1 :: statusLog b1
  /\ message (bTidyStatus b') = message (bTidyStatus b1)
  /\ countersEq (bTidyStatus b1) (bTidyStatus b').
Proof.
  cbv zeta. unfold tidyRunBody, doTidy, bind. rewrite Hc, Hf.
  unfold tidyStatusStop. destruct (time_Now env (world b1)) as [w t].
  cbn. unfold countersEq. cbn. auto 10.
Qed.

Lemma tidyRunBody_errorRecorded config b :
  errorRecorded (bTidyStatus (tidyRunBody env config b)).
Proof.
  unfold tidyRunBody.
  destruct (doTidy env config b) as [b1 [[]|e]]; unfold tidyStatusStop;
    destruct (time_Now env (world b1)) as [w t]; unfold errorRecorded; cbn;
    intros H; discriminate.
Qed.

Lemma sysStep_errorRecorded (e : Event) s :
  errorRecorded (bTidyStatus (sysBackend s)) ->
  errorRecorded (bTidyStatus (sysBackend (fst (sysStep env e s)))).
Proof.
  intros H. destruct e as [d|i]; cbn [sysStep].
  - unfold pathTidyWrite, CompareAndSwapUint32.
    destruct (safety_buffer d <? 1); [exact H|].
    destruct (tidyCASGuard (sysBackend s) =? 0); exact H.
  - destruct (sysGoroutines s !! i) as [g|]; [|exact H].
    unfold goStep. destruct (goAt g); cbn [fst snd sysBackend].
    + unfold tidyStatusStart.
      destruct (time_Now env (world (sysBackend s))) as [w t].
      unfold errorRecorded. cbn. discriminate.
    + apply tidyRunBody_errorRecorded.
    + exact H.
Qed.

Lemma sysRun_errorRecorded (es : list Event) :
  forall s, errorRecorded (bTidyStatus (sysBackend s)) ->
            errorRecorded (bTidyStatus (sysBackend (fst (sysRun env es s)))).
Proof.
  induction es as [|e es IH]; intros s H; cbn [sysRun]; [exact H|].
  pose proof (sysStep_errorRecorded e s H) as H1.
  destruct (sysStep env e s) as [s1 r1]. cbn [fst] in H1.
  specialize (IH s1 H1). destruct (sysRun env es s1) as [s2 r2]. exact IH.
Qed.

(** In every state the system reaches from start-up, a status in state
    [Error] carries its error, so the status read never dereferences a
    nil error: it is either refused for forwarding (on a performance
    secondary that is not a local mount) or answered with a data map that
    holds a state, and in state [Error] the text of the error. *)
Theorem status_read_never_panics (w : W) (es : list Event) :
  let b := sysBackend (fst (sysRun env es (newSystem w))) in
  errorRecorded (bTidyStatus b)
  /\ if perfSecondary env (world b) && negb (localMount env (world b))
     then pathTidyStatusRead env b = Err ErrReadOnly
     else exists data name,
            pathTidyStatusRead env b = Ok (Resp data [])
            /\ data !! "state" = Some (VString name)
            /\ match state (bTidyStatus b) with
               | tidyStatusError =>
                   exists text, err (bTidyStatus b) = Some text
                                /\ data !! "error" = Some (VString text)
               | _ => data !! "error" = Some VNil
               end.
Proof.
  intros b.
  assert (H0 : errorRecorded (bTidyStatus (sysBackend (newSystem w))))
    by (unfold errorRecorded; cbn; discriminate).
  pose proof (sysRun_errorRecorded es (newSystem w) H0) as Hinv. fold b in Hinv.
  split; [exact Hinv|].
  unfold pathTidyStatusRead.
  destruct (perfSecondary env (world b) && negb (localMount env (world b)));
    [reflexivity|].
  unfold errorRecorded in Hinv.
  destruct (state (bTidyStatus b)) eqn:Es; cbn.
  - eexists. eexists. split; [reflexivity|]. split; reflexivity.
  - eexists. eexists. split; [reflexivity|]. split; reflexivity.
  - eexists. eexists. split; [reflexivity|]. split; reflexivity.
  - destruct (err (bTidyStatus b)) as [text|] eqn:Ee;
      [|exfalso; apply Hinv; reflexivity].
    eexists. eexists. split; [reflexivity|]. split; [reflexivity|].
    exists text. split; reflexivity.
Qed.

(** Round trip of a request through the start of its run to the status
    read.  For a valid request whose buffer in nanoseconds fits a
    [time.Duration], accepted at an idle system: once the goroutine has
    run [tidyStatusStart], a served status read reports state Running,
    the buffer in seconds exactly as requested, the three flags (the
    deprecated [tidy_revocation_list] counted as [tidy_revoked_certs]),
    the start time read from the clock, zero counters, an empty message
    and neither finish time nor error. *)
Theorem request_start_read_roundtrip (d : FieldData) s
    (Hd : validRequest d)
    (Hdur : safety_buffer d * Second < 2 ^ 63)
    (Hidle : sysGoroutines s = [])
    (Hg : tidyCASGuard (sysBackend s) = 0)
    (Hserved : servedLocally env (fst (time_Now env (world (sysBackend s))))) :
  let s1 := fst (sysRun env [EvWrite d; EvGo 0] s) in
  exists data,
    pathTidyStatusRead env (sysBackend s1) = Ok (Resp data [])
    /\ data !! "state" = Some (VString "Running")
    /\ data !! "safety_buffer" = Some (VInt (safety_buffer d))
    /\ data !! "tidy_cert_store" = Some (VBool (tidy_cert_store d))
    /\ data !! "tidy_revoked_certs"
       = Some (VBool (tidy_revoked_certs d || tidy_revocation_list d))
    /\ data !! "tidy_revoked_cert_issuer_associations"
       = Some (VBool (tidy_revoked_cert_issuer_associations d))
    /\ data !! "time_started"
       = Some (VTime (snd (time_Now env (world (sysBackend s)))))
    /\ data !! "time_finished" = Some VNil
    /\ data !! "error" = Some VNil
    /\ data !! "message" = Some (VString EmptyString)
    /\ data !! "cert_store_deleted_count" = Some (VUint 0)
    /\ data !! "revoked_cert_deleted_count" = Some (VUint 0)
    /\ data !! "missing_issuer_cert_count" = Some (VUint 0).
Proof.
  cbv zeta. unfold validRequest, servedLocally in *.
  assert (Hq : Z.quot (wrapInt64 (safety_buffer d * Second)) Second
               = safety_buffer d).
  { rewrite wrapInt64_small by (unfold Second in *; lia).
    apply Z.quot_mul. unfold Second. lia. }
  cbn [sysRun sysStep]. unfold pathTidyWrite, CompareAndSwapUint32.
  destruct (safety_buffer d <? 1) eqn:E; [apply Z.ltb_lt in E; lia|].
  rewrite Hg. cbn [Z.eqb negb startTidyOperation sysBackend sysGoroutines fst snd].
  rewrite Hidle. cbn [app lookup list_lookup goStep goAt goConfig fst snd].
  unfold tidyStatusStart. cbn [world setGuard SafetyBuffer CertStore RevokedCerts
                               IssuerAssocs].
  rewrite Hq.
  destruct (time_Now env (world (sysBackend s))) as [w1 t1].
  cbn [fst snd] in *. cbn [sysBackend fst].
  unfold pathTidyStatusRead. cbn [world setStatus setWorld]. rewrite Hserved.
  cbn. eexists. split; [reflexivity|]. repeat split.
Qed.

End RunsAndReads.

(** * Properties of the fetch handler *)

Ltac cbn_fetch :=
  cbn [fst snd fetchFail fetchVars0 withCertificate fvResponse fvRetErr
       fvContentType fvCertificate fvFullChain fvRevocationTime
       selSerial selPemType selContentType selResponse
       String.length Nat.eqb negb].

Ltac split_fetch :=
  cbn_fetch;
  repeat (match goal with
          | |- context [match ?x with _ => _ end] =>
              match x with
              | fetchCAInfo _ _ _ => destruct x as [? [?|?]] eqn:?
              | fetchCertBySerial _ _ _ _ => destruct x as [? [[?|]|?]] eqn:?
              | decodeRevocationTime _ _ => destruct x as [?|?] eqn:?
              | isUserError _ _ => destruct x eqn:?
              | Nat.eqb _ _ => destruct x eqn:?
              | negb (Nat.eqb _ _) => destruct x eqn:?
              | orb _ _ => destruct x eqn:?
              | String.eqb _ _ => destruct x eqn:?
              | HasSuffix _ _ => destruct x eqn:?
              end
          end;
          cbn_fetch).

Section FetchProperties.

Context {W : Type} (fenv : FetchEnv W).

Implicit Types (req : FetchRequest) (w : W).

(** A raw answer carries its content type and body, and the status 200
    when the body is not empty, 204 when it is. *)
Lemma rawResponse_fields (contentType : string) (body : bytes) :
  exists data,
    rawResponse contentType body = FetchData data
    /\ data !! HTTPContentType = Some (FString contentType)
    /\ data !! HTTPRawBody = Some (FBytes body)
    /\ data !! HTTPStatusCode
       = Some (FInt (if (0 <? length body)%nat then 200 else 204)).
Proof.
  unfold rawResponse. eexists. split; [reflexivity|].
  split; [|split].
  - rewrite lookup_insert_ne by discriminate.
    rewrite lookup_insert_ne by discriminate.
    apply lookup_insert_eq.
  - rewrite lookup_insert_ne by discriminate. apply lookup_insert_eq.
  - apply lookup_insert_eq.
Qed.

Lemma fetchReply_raw (v : fetchVars) :
  (String.length (fvContentType v) =? 0)%nat = false ->
  fetchReply fenv v = (Some (rawResponse (fvContentType v) (fvCertificate v)), None).
Proof. intros H. unfold fetchReply. rewrite H. reflexivity. Qed.

(** A read of a stored certificate on a raw path (suffix [/raw] or
    [/pem], not one of the CA, chain or CRL paths) never returns a Go
    error and never a nil response.  Whatever the fetches do - fail,
    find nothing, or find the certificate - the answer is a raw response
    with the content type of the path, and so with status 200 or 204 by
    its body; the one exception is a revocation record that cannot be
    decoded, which is answered with an error response. *)
Theorem raw_cert_read_never_fails req w
    (Hca : isCAPath (reqPath req) = false)
    (Hchain : isChainPath (reqPath req) = false)
    (Hcrl : isCRLPath (reqPath req) = false)
    (Hraw : HasSuffix (reqPath req) "/pem" || HasSuffix (reqPath req) "/raw" = true) :
  let contentType :=
    if HasSuffix (reqPath req) "/pem"
    then "application/pem-certificate-chain" else "application/pkix-cert" in
  snd (snd (pathFetchRead fenv req w)) = None
  /\ ((exists body data,
         fst (snd (pathFetchRead fenv req w)) = Some (FetchData data)
         /\ rawResponse contentType body = FetchData data
         /\ data !! HTTPContentType = Some (FString contentType)
         /\ data !! HTTPRawBody = Some (FBytes body)
         /\ data !! HTTPStatusCode
            = Some (FInt (if (0 <? length body)%nat then 200 else 204)))
      \/ (exists e,
            fst (snd (pathFetchRead fenv req w))
            = Some (FetchError ("Error decoding revocation entry for serial " +:+
                                reqSerial req +:+ ": " +:+ e)))).
Proof.
  cbv zeta.
  assert (Hleft : forall ct body,
            exists body0 data,
              Some (rawResponse ct body) = Some (FetchData data)
              /\ rawResponse ct body0 = FetchData data
              /\ data !! HTTPContentType = Some (FString ct)
              /\ data !! HTTPRawBody = Some (FBytes body0)
              /\ data !! HTTPStatusCode
                 = Some (FInt (if (0 <? length body0)%nat then 200 else 204))).
  { intros ct body. destruct (rawResponse_fields ct body) as (data & H1 & H2).
    exists body, data. rewrite H1. auto. }
  unfold pathFetchRead, fetchSelect. rewrite Hca, Hchain, Hcrl, Hraw.
  destruct (HasSuffix (reqPath req) "/pem"); unfold fetchBody, fetchFail;
    cbn [selSerial selPemType selContentType selResponse];
    split_fetch;
    rewrite ?fetchReply_raw by reflexivity;
    cbn [fst snd fvContentType fvCertificate];
    (split; [reflexivity|]);
    first [left; apply Hleft | right; eexists; reflexivity].
Qed.

(** The read of a stored certificate as JSON (a path that is none of the
    special ones and has no raw suffix, with a serial that is not empty
    and not a CA name), outcome by outcome.  A failing fetch is answered
    with an error response when the error is a user error and returned
    as a Go error otherwise; a certificate that is not stored gives a nil
    response and no error; a stored one is returned PEM-armoured, with
    revocation time 0 when it has no revocation record and the time of
    the record when it has one; a record that cannot be decoded gives an
    error response. *)
Theorem json_cert_read_outcomes req w
    (Hca : isCAPath (reqPath req) = false)
    (Hchain : isChainPath (reqPath req) = false)
    (Hcrl : isCRLPath (reqPath req) = false)
    (Hraw : HasSuffix (reqPath req) "/pem" || HasSuffix (reqPath req) "/raw" = false)
    (Hserial : (String.length (reqSerial req) =? 0)%nat = false)
    (Hname : String.eqb (reqSerial req) "ca_chain" || String.eqb (reqSerial req) "ca"
             = false) :
  let serial := reqSerial req in
  let failed (e : error) : option FetchResponse * option error :=
    if isUserError fenv e then (Some (FetchError e), None) else (None, Some e) in
  let found (der : bytes) (t : Z) : option FetchResponse * option error :=
    (Some (FetchData
             (<["revocation_time" := FInt t]>
              (<["certificate" :=
                   FString (string_of_list_byte (pemTrimmed fenv "CERTIFICATE" der))]>
               ∅))),
     None) in
  pathFetchRead fenv req w
  = match fetchCertBySerial fenv (reqPath req) serial w with
    | (w1, Err e) => (w1, failed e)
    | (w1, Ok None) => (w1, (None, None))
    | (w1, Ok (Some certEntry)) =>
        match fetchCertBySerial fenv "revoked/" serial w1 with
        | (w2, Err e) => (w2, failed e)
        | (w2, Ok None) => (w2, found (Value certEntry) 0)
        | (w2, Ok (Some revokedEntry)) =>
            match decodeRevocationTime fenv (Value revokedEntry) with
            | Err e =>
                (w2, (Some (FetchError
                              ("Error decoding revocation entry for serial " +:+
                               serial +:+ ": " +:+ e)), None))
            | Ok t => (w2, found (Value certEntry) t)
            end
        end
    end.
Proof.
  cbv zeta. unfold pathFetchRead, fetchSelect. rewrite Hca, Hchain, Hcrl, Hraw.
  unfold fetchBody, fetchFail. cbn [selSerial selPemType selContentType selResponse].
  rewrite Hserial, Hname.
  pose proof (dataIsError_empty fenv) as Hempty.
  split_fetch; unfold fetchReply; cbn_fetch;
    cbn [IsError length Nat.ltb Nat.leb];
    rewrite ?Hempty; reflexivity.
Qed.

(** Without a serial nothing is fetched.  On a JSON path the answer is
    the error response that asks for the serial; on a raw path even that
    is dropped, and the answer is an empty raw response with status
    204. *)
Theorem empty_serial_read req w
    (Hca : isCAPath (reqPath req) = false)
    (Hchain : isChainPath (reqPath req) = false)
    (Hcrl : isCRLPath (reqPath req) = false)
    (Hserial : (String.length (reqSerial req) =? 0)%nat = true) :
  pathFetchRead fenv req w
  = (w, if HasSuffix (reqPath req) "/pem" then
          (Some (rawResponse "application/pem-certificate-chain" []), None)
        else if HasSuffix (reqPath req) "/raw" then
          (Some (rawResponse "application/pkix-cert" []), None)
        else
          (Some (FetchError "The serial number must be provided"), None)).
Proof.
  unfold pathFetchRead, fetchSelect. rewrite Hca, Hchain, Hcrl.
  unfold fetchBody.
  destruct (HasSuffix (reqPath req) "/pem");
    [|destruct (HasSuffix (reqPath req) "/raw")];
    cbn [orb selSerial selPemType selContentType selResponse];
    rewrite Hserial; reflexivity.
Qed.

(** The raw CA paths, once the If-Modified-Since helper lets the request
    through.  The body is the CA certificate - DER, or PEM on the two
    [/pem] paths.  When the CA cannot be fetched, whatever the error, the
    answer is still a raw response, with an empty body and status 204,
    and no error is returned. *)
Theorem raw_ca_read req w (w1 : W) (data : gmap string FetchValue)
    (Hca : isCAPath (reqPath req) = true)
    (Hjson : String.eqb (reqPath req) "cert/ca" = false)
    (Hhelper : sendNotModifiedResponseIfNecessary fenv (defaultRef fenv) req w
               = (w1, (Ok false, data))) :
  let pem := String.eqb (reqPath req) "ca/pem"
             || String.eqb (reqPath req) "cert/ca/raw/pem" in
  let contentType :=
    if pem then "application/pem-certificate-chain" else "application/pkix-cert" in
  pathFetchRead fenv req w
  = match fetchCAInfo fenv (defaultRef fenv) w1 with
    | (w2, Err _) => (w2, (Some (rawResponse contentType []), None))
    | (w2, Ok caInfo) =>
        (w2, (Some (rawResponse contentType
                      (if pem then pemTrimmed fenv "CERTIFICATE" (caRaw caInfo)
                       else caRaw caInfo)), None))
    end.
Proof.
  cbv zeta. unfold pathFetchRead, fetchSelect. rewrite Hca, Hhelper.
  destruct (String.eqb (reqPath req) "ca/pem"
            || String.eqb (reqPath req) "cert/ca/raw/pem");
    [|rewrite Hjson]; unfold fetchBody, fetchFail;
    cbn [selSerial selPemType selContentType selResponse String.length Nat.eqb
         String.eqb Ascii.eqb Bool.eqb orb andb negb];
    split_fetch; reflexivity.
Qed.

(** On the CA and CRL paths the If-Modified-Since helper is asked first,
    and what it says is final.  An error of the helper is returned as a
    Go error on every one of these paths, the raw ones included; a "not
    modified" ends the request without any fetch, and the response the
    helper prepared - unless it is an error response - is completed with
    an empty certificate and revocation time 0. *)
Theorem not_modified_ends_read req w (w1 : W) (r : result bool)
    (data : gmap string FetchValue)
    (Hpath : isCAPath (reqPath req) = true
             \/ (isChainPath (reqPath req) = false
                 /\ isCRLPath (reqPath req) = true))
    (Hhelper : sendNotModifiedResponseIfNecessary fenv
                 (if isCAPath (reqPath req) then defaultRef fenv else EmptyString)
                 req w
               = (w1, (r, data)))
    (Hr : r <> Ok false) :
  pathFetchRead fenv req w
  = (w1, match r with
         | Err e => (None, Some e)
         | Ok _ =>
             if dataIsError fenv data then (Some (FetchData data), None)
             else (Some (FetchData
                           (<["revocation_time" := FInt 0]>
                            (<["certificate" := FString EmptyString]> data))),
                   None)
         end).
Proof.
  unfold pathFetchRead, fetchSelect.
  destruct Hpath as [Hca|[Hchain Hcrl]].
  - rewrite Hca in *. rewrite Hhelper.
    destruct r as [[|]|e]; [|contradiction|]; unfold fetchReply; cbn;
      [destruct (dataIsError fenv data)|]; reflexivity.
  - destruct (isCAPath (reqPath req)) eqn:Hca.
    + rewrite Hhelper.
      destruct r as [[|]|e]; [|contradiction|]; unfold fetchReply; cbn;
        [destruct (dataIsError fenv data)|]; reflexivity.
    + rewrite Hchain, Hcrl, Hhelper.
      destruct r as [[|]|e]; [|contradiction|]; unfold fetchReply; cbn;
        [destruct (dataIsError fenv data)|]; reflexivity.
Qed.

(** The CA chain.  On [cert/ca_chain] a chain that is not empty is
    returned twice, as [certificate] and as [ca_chain], with revocation
    time 0; an empty chain gives an empty [certificate] and no
    [ca_chain].  On [ca_chain] the same bytes are the body of a raw
    response. *)
Theorem ca_chain_read req w (w1 : W) (caInfo : CAInfoBundle)
    (Hchain : isChainPath (reqPath req) = true)
    (Hca : isCAPath (reqPath req) = false)
    (Hinfo : fetchCAInfo fenv (defaultRef fenv) w = (w1, Ok caInfo)) :
  let chain := fetchChain fenv (caFullChain caInfo) in
  pathFetchRead fenv req w
  = (w1,
     if String.eqb (reqPath req) "ca_chain" then
       (Some (rawResponse "application/pkix-cert" chain), None)
     else if (0 <? length chain)%nat then
       (Some (FetchData
                (<["ca_chain" := FString (string_of_list_byte chain)]>
                 (<["revocation_time" := FInt 0]>
                  (<["certificate" := FString (string_of_list_byte chain)]> ∅)))),
        None)
     else
       (Some (FetchData
                (<["revocation_time" := FInt 0]>
                 (<["certificate" := FString (string_of_list_byte chain)]> ∅))),
        None)).
Proof.
  cbv zeta. unfold pathFetchRead, fetchSelect. rewrite Hca, Hchain.
  unfold fetchBody.
  cbn [selSerial selPemType selContentType selResponse String.length Nat.eqb
       String.eqb Ascii.eqb Bool.eqb orb andb negb].
  rewrite Hinfo.
  pose proof (dataIsError_empty fenv) as Hempty.
  destruct (String.eqb (reqPath req) "ca_chain"); unfold fetchReply;
    cbn_fetch; cbn [IsError];
    [reflexivity|].
  rewrite Hempty.
  destruct (0 <? length (fetchChain fenv (caFullChain caInfo)))%nat; reflexivity.
Qed.

End FetchProperties.

(** ** Concrete runs of the further properties *)

Lemma no_targets_run_witness :
  let w := memWorld [("certs/aa", [x0a; x01; x02])] (20 * Second) false ∅ [] in
  let config := {| CertStore := false; RevokedCerts := false;
                   IssuerAssocs := false;
                   SafetyBuffer := wrapInt64 (5 * Second) |} in
  1 <= 5
  /\ tidyCASGuard (sysBackend (newSystem w)) = 0
  /\ calls (tidyGoroutine memEnv config (newBackend w)) = []
  /\ mStore (world (tidyGoroutine memEnv config (newBackend w)))
     = [("certs/aa", [x0a; x01; x02])]
  /\ state (bTidyStatus (tidyGoroutine memEnv config (newBackend w)))
     = tidyStatusFinished.
Proof.
  intros w config.
  assert (Hsb : 1 <= 5) by lia.
  assert (Hg : tidyCASGuard (sysBackend (newSystem w)) = 0) by reflexivity.
  split; [exact Hsb|]. split; [exact Hg|].
  destruct (no_targets_run memEnv 5 (newSystem w) Hsb Hg) as [_ H].
  destruct (H (newBackend w)) as (Hc & Hw & Hs & _).
  split; [exact Hc|].
  split; [exact (eq_trans (f_equal mStore Hw) eq_refl)|exact Hs].
Defined.

Lemma cert_store_failure_ends_run_witness :
  let w := memWorld [("certs/aa", [xff]); ("revoked/bb", [])] (20 * Second)
             false ∅ [] in
  let config := cfg true true true 5 in
  let b := tidyStatusStart memEnv config (newBackend w) in
  let b' := tidyRunBody memEnv config b in
  CertStore config = true
  /\ snd (doTidyCertStore memEnv config b)
     = Err (("unable to parse stored certificate with serial " +:+ fmtQ "aa")
            +:+ ": " +:+ "x509: malformed certificate")
  /\ state (bTidyStatus b') = tidyStatusError
  /\ calls b' = []
  /\ mStore (world b') = [("certs/aa", [xff]); ("revoked/bb", [])].
Proof.
  intros w config b b'.
  destruct (doTidyCertStore memEnv config b) as [b1 r] eqn:Hf.
  assert (Hr : r = Err (("unable to parse stored certificate with serial " +:+
                         fmtQ "aa") +:+ ": " +:+ "x509: malformed certificate")).
  { vm_compute in Hf. inversion Hf. reflexivity. }
  subst r.
  split; [reflexivity|]. split; [reflexivity|].
  destruct (cert_store_failure_ends_run memEnv config b b1 _ eq_refl Hf)
    as (Hs & _ & Hc & _).
  fold b' in Hs, Hc.
  split; [exact Hs|]. split; vm_compute; reflexivity.
Defined.

Lemma request_start_read_roundtrip_witness :
  let w := memWorld [] (20 * Second) false ∅ [] in
  let d := {| safety_buffer := 259200; tidy_cert_store := true;
              tidy_revoked_certs := false; tidy_revocation_list := true;
              tidy_revoked_cert_issuer_associations := false |} in
  let s1 := fst (sysRun memEnv [EvWrite d; EvGo 0] (newSystem w)) in
  validRequest d
  /\ safety_buffer d * Second < 2 ^ 63
  /\ servedLocally memEnv (fst (time_Now memEnv (world (sysBackend (newSystem w)))))
  /\ exists data,
       pathTidyStatusRead memEnv (sysBackend s1) = Ok (Resp data [])
       /\ data !! "safety_buffer" = Some (VInt 259200)
       /\ data !! "tidy_revoked_certs" = Some (VBool true).
Proof.
  intros w d s1.
  assert (Hd : validRequest d) by (unfold validRequest; cbn; lia).
  assert (Hdur : safety_buffer d * Second < 2 ^ 63) by (vm_compute; reflexivity).
  assert (Hserved : servedLocally memEnv
            (fst (time_Now memEnv (world (sysBackend (newSystem w))))))
    by reflexivity.
  split; [exact Hd|]. split; [exact Hdur|]. split; [exact Hserved|].
  destruct (request_start_read_roundtrip memEnv d (newSystem w) Hd Hdur
              eq_refl eq_refl Hserved)
    as (data & Hr & _ & Hsb & _ & Hrc & _).
  exists data. split; [exact Hr|]. split; [exact Hsb|exact Hrc].
Defined.

(** A store with certificate [aa], revoked at time 5. *)
Lemma raw_cert_read_never_fails_witness :
  let w := memWorld [("certs/aa", [x0a; x01; x02]); ("revoked/aa", [x05])]
             0 false ∅ ["certs/bb"] in
  let found := {| reqPath := "cert/aa/raw"; reqSerial := "aa" |} in
  let failing := {| reqPath := "cert/bb/raw"; reqSerial := "bb" |} in
  isCAPath (reqPath failing) = false
  /\ isChainPath (reqPath failing) = false
  /\ isCRLPath (reqPath failing) = false
  /\ HasSuffix (reqPath failing) "/pem" || HasSuffix (reqPath failing) "/raw" = true
  /\ snd (fetchCertBySerial memFetchEnv "cert/bb/raw" "bb" w)
     = Err "storage unavailable"
  /\ snd (pathFetchRead memFetchEnv failing w)
     = (Some (rawResponse "application/pkix-cert" []), None)
  /\ snd (pathFetchRead memFetchEnv found w)
     = (Some (rawResponse "application/pkix-cert" [x0a; x01; x02]), None).
Proof.
  intros w found failing.
  do 5 (split; [reflexivity|]).
  destruct (raw_cert_read_never_fails memFetchEnv failing w eq_refl eq_refl
              eq_refl eq_refl) as [He _].
  split; [|vm_compute; reflexivity].
  destruct (pathFetchRead memFetchEnv failing w) as [w' [r e]] eqn:E.
  cbn [snd] in He. subst e.
  vm_compute in E. inversion E. reflexivity.
Defined.

Lemma json_cert_read_outcomes_witness :
  let w := memWorld [("certs/aa", [x0a; x01; x02]); ("revoked/aa", [x05])]
             0 false ∅ [] in
  let req := {| reqPath := "cert/aa"; reqSerial := "aa" |} in
  isCAPath (reqPath req) = false
  /\ isChainPath (reqPath req) = false
  /\ isCRLPath (reqPath req) = false
  /\ HasSuffix (reqPath req) "/pem" || HasSuffix (reqPath req) "/raw" = false
  /\ (String.length (reqSerial req) =? 0)%nat = false
  /\ String.eqb (reqSerial req) "ca_chain" || String.eqb (reqSerial req) "ca" = false
  /\ exists data,
       snd (pathFetchRead memFetchEnv req w) = (Some (FetchData data), None)
       /\ data !! "revocation_time" = Some (FInt 5)
       /\ data !! "certificate"
          = Some (FString
                    (string_of_list_byte
                       (pemTrimmed memFetchEnv "CERTIFICATE" [x0a; x01; x02]))).
Proof.
  intros w req.
  do 6 (split; [reflexivity|]).
  pose proof (json_cert_read_outcomes memFetchEnv req w eq_refl eq_refl eq_refl
                eq_refl eq_refl eq_refl) as H.
  cbv zeta in H. rewrite H.
  eexists. split; [reflexivity|]. split; reflexivity.
Defined.

Lemma empty_serial_read_witness :
  let w := memWorld [] 0 false ∅ [] in
  let json := {| reqPath := "cert/"; reqSerial := EmptyString |} in
  let raw := {| reqPath := "cert//raw"; reqSerial := EmptyString |} in
  isCAPath (reqPath raw) = false
  /\ isChainPath (reqPath raw) = false
  /\ isCRLPath (reqPath raw) = false
  /\ (String.length (reqSerial raw) =? 0)%nat = true
  /\ pathFetchRead memFetchEnv raw w
     = (w, (Some (rawResponse "application/pkix-cert" []), None))
  /\ pathFetchRead memFetchEnv json w
     = (w, (Some (FetchError "The serial number must be provided"), None)).
Proof.
  intros w json raw.
  do 4 (split; [reflexivity|]).
  split.
  - rewrite (empty_serial_read memFetchEnv raw w eq_refl eq_refl eq_refl eq_refl).
    reflexivity.
  - rewrite (empty_serial_read memFetchEnv json w eq_refl eq_refl eq_refl eq_refl).
    reflexivity.
Defined.

Lemma raw_ca_read_witness :
  let w := memWorld [] 0 false ∅ ["config/ca"] in
  let req := {| reqPath := "ca/pem"; reqSerial := EmptyString |} in
  isCAPath (reqPath req) = true
  /\ String.eqb (reqPath req) "cert/ca" = false
  /\ sendNotModifiedResponseIfNecessary memFetchEnv (defaultRef memFetchEnv) req w
     = (w, (Ok false, ∅))
  /\ pathFetchRead memFetchEnv req w
     = (w, (Some (rawResponse "application/pem-certificate-chain" []), None)).
Proof.
  intros w req.
  do 3 (split; [reflexivity|]).
  rewrite (raw_ca_read memFetchEnv req w w ∅ eq_refl eq_refl eq_refl).
  reflexivity.
Defined.

Lemma not_modified_ends_read_witness :
  let w := memWorld [] 0 false ∅ ["not-modified"] in
  let req := {| reqPath := "crl/pem"; reqSerial := EmptyString |} in
  (isChainPath (reqPath req) = false /\ isCRLPath (reqPath req) = true)
  /\ sendNotModifiedResponseIfNecessary memFetchEnv EmptyString req w
     = (w, (Ok true, <[HTTPStatusCode := FInt 304]> ∅))
  /\ Ok true <> Ok false
  /\ pathFetchRead memFetchEnv req w
     = (w, (Some (FetchData
                    (<["revocation_time" := FInt 0]>
                     (<["certificate" := FString EmptyString]>
                      (<[HTTPStatusCode := FInt 304]> ∅)))), None)).
Proof.
  intros w req.
  assert (Hp : isChainPath (reqPath req) = false /\ isCRLPath (reqPath req) = true)
    by (split; reflexivity).
  assert (Hne : @Ok bool true <> Ok false) by discriminate.
  split; [exact Hp|]. split; [reflexivity|]. split; [exact Hne|].
  rewrite (not_modified_ends_read memFetchEnv req w w (Ok true)
             (<[HTTPStatusCode := FInt 304]> ∅) (or_intror Hp) eq_refl Hne).
  reflexivity.
Defined.

Lemma ca_chain_read_witness :
  let w := memWorld [] 0 false ∅ [] in
  let req := {| reqPath := "cert/ca_chain"; reqSerial := EmptyString |} in
  let chain := fetchChain memFetchEnv [[x63; x00; x07]; [x64; x00; x08]] in
  isChainPath (reqPath req) = true
  /\ isCAPath (reqPath req) = false
  /\ fetchCAInfo memFetchEnv (defaultRef memFetchEnv) w
     = (w, Ok {| caRaw := [x63; x00; x07];
                 caFullChain := [[x63; x00; x07]; [x64; x00; x08]] |})
  /\ exists data,
       snd (pathFetchRead memFetchEnv req w) = (Some (FetchData data), None)
       /\ data !! "ca_chain" = Some (FString (string_of_list_byte chain))
       /\ data !! "certificate" = Some (FString (string_of_list_byte chain)).
Proof.
  intros w req chain.
  do 3 (split; [reflexivity|]).
  pose proof (ca_chain_read memFetchEnv req w w _ eq_refl eq_refl eq_refl) as H.
  cbv zeta in H. rewrite H.
  eexists. split; [vm_compute; reflexivity|]. split; vm_compute; reflexivity.
Defined.

End pki.
